(** * i4NS LENS: mission-log analysis against doctrine

    A shallow embedding of the Python backend
    (backend/models.py, backend/mission_parser.py,
    backend/doctrine_indexer.py, backend/rag_pipeline.py, backend/api.py)
    and the properties its specification states about it, followed by
    further properties of the same code.

    Python values that cross the JSON boundary are a small inductive type,
    exceptions are an error monad, the doctrine searches are effects that
    leave a trace, and everything the code takes from the Python runtime or
    from a third-party library (datetime.strptime, pydantic's lax coercions,
    float formatting, the FAISS store) is a field of one interface,
    [PyRuntime], so that every theorem holds for every such runtime. *)

From Stdlib Require Import Floats ZArith Uint63 String Ascii List Bool Lia.
From stdpp Require Import base option list gmap strings pretty sorting.

Local Open Scope string_scope.
Local Open Scope list_scope.
Set Warnings "-clear-no-such-hyp,-inexact-float".

(** ** Python values *)

(** [float] is IEEE binary64, as in CPython. *)
Abbreviation float := PrimFloat.float.

(** datetime.datetime, naive (no tzinfo): the parser never attaches one. *)
Record datetime := mk_datetime {
  year : Z; month : Z; day : Z;
  hour : Z; minute : Z; second : Z; microsecond : Z
}.

(** The values json.load can produce, plus [datetime] objects, which
    [parse_timestamp] accepts as they are.  A dict is kept as an
    association list; lookup takes the first binding of a key. *)
#[warnings="-register-all"]
Inductive pyval :=
| PNone
| PBool (b : bool)
| PInt (z : Z)
| PFloat (f : float)
| PStr (s : string)
| PDatetime (d : datetime)
| PList (l : list pyval)
| PDict (m : list (string * pyval)).

Definition pydict := list (string * pyval).

(** The exceptions the modelled code can raise. [LibraryError] stands for
    whatever a library call raises on its own (OverflowError from
    datetime.fromtimestamp, an I/O error while loading documents, ...). *)
Inductive exn :=
| KeyError (key : string)
| ValueError (msg : string)
| TypeError (msg : string)
| AttributeError (msg : string)
| ZeroDivisionError
| ValidationError (model : string)
| LibraryError (msg : string).

Inductive result (A : Type) :=
| Ok (a : A)
| Raise (e : exn).
Arguments Ok {A} a.
Arguments Raise {A} e.

#[global] Instance result_ret : MRet result := fun A a => Ok a.
#[global] Instance result_bind : MBind result := fun A B f m =>
  match m with
  | Ok a => f a
  | Raise e => Raise e
  end.
#[global] Instance result_fmap : FMap result := fun A B f m =>
  match m with
  | Ok a => Ok (f a)
  | Raise e => Raise e
  end.

(** The computation ends in an exception. *)
Definition raises {A} (r : result A) : Prop := exists e, r = Raise e.

(** [d[k]] on a dict. *)
Fixpoint dict_lookup (m : pydict) (k : string) : option pyval :=
  match m with
  | [] => None
  | (k', v) :: m' => if String.eqb k' k then Some v else dict_lookup m' k
  end.

(** [d.get(k, default)]. *)
Definition dict_get (m : pydict) (k : string) (default : pyval) : pyval :=
  match dict_lookup m k with
  | Some v => v
  | None => default
  end.

(** [d[k]], raising KeyError. *)
Definition dict_getitem (m : pydict) (k : string) : result pyval :=
  match dict_lookup m k with
  | Some v => Ok v
  | None => Raise (KeyError k)
  end.

(** [k in d]. *)
Definition dict_contains (m : pydict) (k : string) : bool :=
  match dict_lookup m k with
  | Some _ => true
  | None => false
  end.

(** [isinstance(v, (int, float))]: bool is a subclass of int. *)
Inductive pynum :=
| NInt (z : Z)
| NFloat (f : float).

Definition as_number (v : pyval) : option pynum :=
  match v with
  | PInt z => Some (NInt z)
  | PBool b => Some (NInt (if b then 1 else 0))
  | PFloat f => Some (NFloat f)
  | _ => None
  end.

(** ** The runtime interface *)

(** What the code calls but does not define.
    - [strptime s fmt] is datetime.strptime; [None] is its ValueError.
    - [fromtimestamp] is datetime.fromtimestamp (local time zone; it raises
      on values out of range).
    - [lax_str], [lax_float], [lax_dict], [lax_datetime] are pydantic's
      coercions of a value that is neither of the declared type nor None
      (they differ between pydantic versions); [None] is a rejection.
    - [format_1f x] is [format(x, ".1f")], [str_datetime] is [str] on a
      datetime, [str_value] is [str] on any other value, [now] the clock
      read by MissionAnalysis's default factory. *)
Class PyRuntime := {
  strptime : string -> string -> option datetime;
  fromtimestamp : pynum -> result datetime;
  lax_str : pyval -> option string;
  lax_float : pyval -> option float;
  lax_dict : pyval -> option pydict;
  lax_datetime : pyval -> option datetime;
  format_1f : float -> string;
  str_datetime : datetime -> string;
  str_value : pyval -> string;
  now : datetime
}.

(** ** models.py *)

(** pydantic validation of one field against its annotation. *)
Section Validation.
Context {RT : PyRuntime}.

(** [x: str] *)
Definition validate_str (v : pyval) : option string :=
  match v with
  | PStr s => Some s
  | PNone => None
  | _ => lax_str v
  end.

(** [x: float] *)
Definition validate_float (v : pyval) : option float :=
  match v with
  | PFloat f => Some f
  | PNone => None
  | _ => lax_float v
  end.

(** [x: datetime] *)
Definition validate_datetime (v : pyval) : option datetime :=
  match v with
  | PDatetime d => Some d
  | PNone => None
  | _ => lax_datetime v
  end.

(** [x: Dict[str, Any]] *)
Definition validate_dict (v : pyval) : option pydict :=
  match v with
  | PDict m => Some m
  | PNone => None
  | _ => lax_dict v
  end.

(** [x: Optional[T]] *)
Definition validate_optional {T} (validate : pyval -> option T) (v : pyval)
  : option (option T) :=
  match v with
  | PNone => Some None
  | _ => Some <$> validate v
  end.
End Validation.

(** class MissionEvent(BaseModel).  The attribute [timestamp] is declared
    [datetime]; it is kept as an option because the rule engine tests it
    against None.  Only [MissionEvent_new] (the validating constructor)
    guarantees that it is set. *)
Record MissionEvent := mk_MissionEvent {
  timestamp : option datetime;
  event_type : string;
  description : string;
  tracking_number : option string;
  speed : option float;
  course : option float;
  latitude : option float;
  longitude : option float;
  metadata : pydict
}.

Section MissionEventModel.
Context {RT : PyRuntime}.

(** MissionEvent(timestamp=..., event_type=..., ...): every keyword is
    validated against its annotation; any rejection raises pydantic's
    ValidationError. *)
Definition MissionEvent_new
    (ts ty desc tn sp co la lo md : pyval) : result MissionEvent :=
  match validate_datetime ts, validate_str ty, validate_str desc,
        validate_optional validate_str tn,
        validate_optional validate_float sp,
        validate_optional validate_float co,
        validate_optional validate_float la,
        validate_optional validate_float lo,
        validate_dict md with
  | Some ts', Some ty', Some desc', Some tn', Some sp', Some co',
    Some la', Some lo', Some md' =>
      Ok (mk_MissionEvent (Some ts') ty' desc' tn' sp' co' la' lo' md')
  | _, _, _, _, _, _, _, _, _ => Raise (ValidationError "MissionEvent")
  end.
End MissionEventModel.

(** class MissionLog(BaseModel) *)
Record MissionLog := mk_MissionLog {
  mission_id : string;
  mission_name : string;
  start_time : datetime;
  end_time : option datetime;
  vessel_name : string;
  events : list MissionEvent;
  raw_data : option pydict
}.

(** ** mission_parser.py *)

Section MissionLogParser.
Context {RT : PyRuntime}.

(** The formats parse_timestamp tries, in this order. *)
Definition formats : list string :=
  [ "%Y-%m-%dT%H:%M:%S.%fZ";
    "%Y-%m-%dT%H:%M:%SZ";
    "%Y-%m-%d %H:%M:%S";
    "%Y-%m-%d %H:%M:%S.%f";
    "%m/%d/%Y %H:%M:%S" ].

(** [for fmt in formats: try: return strptime(ts, fmt) except ValueError:
    continue], then the raise after the loop. *)
Fixpoint try_formats (ts : string) (fmts : list string) : result datetime :=
  match fmts with
  | [] => Raise (ValueError ("Could not parse timestamp: " +:+ ts))
  | fmt :: fmts' =>
      match strptime ts fmt with
      | Some d => Ok d
      | None => try_formats ts fmts'
      end
  end.

Definition parse_timestamp (ts : pyval) : result datetime :=
  match ts with
  | PDatetime d => Ok d
  | PStr s => try_formats s formats
  | _ =>
      match as_number ts with
      | Some n => fromtimestamp n
      | None =>
          Raise (ValueError ("Unknown timestamp format: " +:+ str_value ts))
      end
  end.

(** parse_event: [event_data["timestamp"]] is the only subscript; every
    other field is read with [.get]. *)
Definition parse_event (event_data : pyval) : result MissionEvent :=
  match event_data with
  | PDict d =>
      v ← dict_getitem d "timestamp";
      ts ← parse_timestamp v;
      MissionEvent_new
        (PDatetime ts)
        (dict_get d "event_type" (PStr "unknown"))
        (dict_get d "description" (PStr ""))
        (dict_get d "tracking_number" PNone)
        (dict_get d "speed" PNone)
        (dict_get d "course" PNone)
        (dict_get d "latitude" PNone)
        (dict_get d "longitude" PNone)
        (dict_get d "metadata" (PDict []))
  | _ => Raise (TypeError "event is not subscriptable by a string key")
  end.

(** [[cls.parse_event(event) for event in xs]]: the first exception stops
    the comprehension. *)
Fixpoint parse_events (xs : list pyval) : result (list MissionEvent) :=
  match xs with
  | [] => Ok []
  | x :: xs' =>
      e ← parse_event x;
      es ← parse_events xs';
      Ok (e :: es)
  end.

(** Iterating over the value under "events": a list yields its items, a
    string its characters, a dict its keys; anything else is not
    iterable. *)
Definition iterate (v : pyval) : result (list pyval) :=
  match v with
  | PList l => Ok l
  | PStr s =>
      Ok ((fun c => PStr (String c EmptyString)) <$> list_ascii_of_string s)
  | PDict m => Ok ((fun kv => PStr (fst kv)) <$> m)
  | _ => Raise (TypeError "object is not iterable")
  end.

Definition parse_json_data (data : pyval) : result MissionLog :=
  match data with
  | PDict d =>
      xs ← iterate (dict_get d "events" (PList []));
      evs ← parse_events xs;
      st_v ← dict_getitem d "start_time";
      st ← parse_timestamp st_v;
      en ← (if dict_contains d "end_time"
            then en_v ← dict_getitem d "end_time";
                 PDatetime <$> parse_timestamp en_v
            else Ok PNone);
      match validate_str (dict_get d "mission_id" (PStr "unknown")),
            validate_str (dict_get d "mission_name" (PStr "Unnamed Mission")),
            validate_optional validate_datetime en,
            validate_str (dict_get d "vessel_name" (PStr "Unknown Vessel")) with
      | Some mid, Some mname, Some en', Some vname =>
          Ok (mk_MissionLog mid mname st en' vname evs (Some d))
      | _, _, _, _ => Raise (ValidationError "MissionLog")
      end
  | _ => Raise (AttributeError "object has no attribute get")
  end.
End MissionLogParser.

(** class DoctrineReference(BaseModel) *)
Record DoctrineReference := mk_DoctrineReference {
  doctrine_id : string;
  doctrine_name : string;
  section : string;
  requirement : string;
  context : string
}.

(** class ComparisonResult(BaseModel) *)
Record ComparisonResult := mk_ComparisonResult {
  cr_timestamp : datetime;
  event_description : string;
  actual_action : string;
  expected_action : string;
  compliance_status : string;
  doctrine_references : list DoctrineReference;
  analysis : string;
  severity : option string
}.

(** class MissionAnalysis(BaseModel) *)
Record MissionAnalysis := mk_MissionAnalysis {
  ma_mission_id : string;
  ma_mission_name : string;
  ma_timestamp : datetime;
  comparisons : list ComparisonResult;
  ma_summary : string;
  ma_lessons_learned : list string;
  ma_recommendations : list string;
  overall_compliance_score : option float
}.

(** ** doctrine_indexer.py *)

(** langchain's Document: the chunk text and a metadata dict. *)
Record Document := mk_Document {
  page_content : string;
  doc_metadata : gmap string pyval
}.

(** langchain's FAISS store, seen through the one method the code calls on
    it: [similarity_search(query, k=k)].  The store embeds the query and
    looks up its index; neither step is code of this repository. *)
Record FAISS := mk_FAISS {
  similarity_search : string -> nat -> list Document
}.

(** class DoctrineIndexer: the attribute that [search] and [index_doctrines]
    read and write. *)
Record DoctrineIndexer := mk_DoctrineIndexer {
  vector_store : option FAISS
}.

(** DoctrineIndexer.__init__ leaves [self.vector_store = None]. *)
Definition DoctrineIndexer_init : DoctrineIndexer := mk_DoctrineIndexer None.

(** The queries that reached a vector store, oldest first. *)
Definition trace := list (string * nat).

(** Computations that may raise and that query the store. *)
Definition Eff (A : Type) : Type := trace -> result A * trace.

#[global] Instance Eff_ret : MRet Eff := fun A a t => (Ok a, t).
#[global] Instance Eff_bind : MBind Eff := fun A B f m t =>
  match m t with
  | (Ok a, t') => f a t'
  | (Raise e, t') => (Raise e, t')
  end.

(** A computation without store access. *)
Definition lift {A} (r : result A) : Eff A := fun t => (r, t).

(** DoctrineIndexer.search *)
Definition search (self : DoctrineIndexer) (query : string) (k : nat)
  : Eff (list Document) :=
  fun t =>
    match vector_store self with
    | None =>
        (Raise (ValueError
           "Vector store not initialized. Call index_doctrines() first."), t)
    | Some vs => (Ok (similarity_search vs query k), t ++ [(query, k)])
    end.

(** What index_doctrines reads from and writes to outside the object: the
    file system under VECTOR_STORE_DIR and DOCTRINES_DIR, and the library
    calls on them. *)
Record IndexEnv := mk_IndexEnv {
  index_path_exists : bool;
  load_local : result FAISS;
  load_all_doctrines : result (list Document);
  create_vector_store : list Document -> result FAISS;
  save_local : FAISS -> result unit
}.

(** [if documents:] *)
Definition truthy {A} (l : list A) : bool :=
  match l with
  | [] => false
  | _ :: _ => true
  end.

(** DoctrineIndexer.index_doctrines: what the call returns or raises, and
    the object after it.  The method assigns [self.vector_store] before it
    saves, so a failure to save leaves the new store on the object. *)
Definition index_doctrines (env : IndexEnv) (self : DoctrineIndexer)
    (force_reindex : bool) : result FAISS * DoctrineIndexer :=
  let rebuild :=
    match load_all_doctrines env with
    | Raise e => (Raise e, self)
    | Ok documents =>
        match create_vector_store env documents with
        | Raise e => (Raise e, self)
        | Ok vs =>
            let self' := mk_DoctrineIndexer (Some vs) in
            match (if truthy documents then save_local env vs else Ok tt) with
            | Raise e => (Raise e, self')
            | Ok _ => (Ok vs, self')
            end
        end
    end in
  if index_path_exists env && negb force_reindex then
    match load_local env with
    | Ok vs => (Ok vs, mk_DoctrineIndexer (Some vs))
    | Raise _ => rebuild
    end
  else rebuild.

(** ** rag_pipeline.py *)

(** class AnalysisState(TypedDict); analyze_mission fills in every key. *)
Record AnalysisState := mk_AnalysisState {
  mission_log : MissionLog;
  current_event : option MissionEvent;
  doctrine_context : list Document;
  comparison_results : list ComparisonResult;
  summary : string;
  lessons_learned : list string;
  recommendations : list string
}.

(** One key of the dict a node returns. *)
Inductive update :=
| set_current_event (e : option MissionEvent)
| set_doctrine_context (l : list Document)
| set_comparison_results (l : list ComparisonResult)
| set_summary (s : string)
| set_lessons_learned (l : list string)
| set_recommendations (l : list string).

(** LangGraph writes each returned key over the state's. *)
Definition apply_update (st : AnalysisState) (u : update) : AnalysisState :=
  match u with
  | set_current_event e =>
      mk_AnalysisState (mission_log st) e (doctrine_context st)
        (comparison_results st) (summary st) (lessons_learned st)
        (recommendations st)
  | set_doctrine_context l =>
      mk_AnalysisState (mission_log st) (current_event st) l
        (comparison_results st) (summary st) (lessons_learned st)
        (recommendations st)
  | set_comparison_results l =>
      mk_AnalysisState (mission_log st) (current_event st)
        (doctrine_context st) l (summary st) (lessons_learned st)
        (recommendations st)
  | set_summary s =>
      mk_AnalysisState (mission_log st) (current_event st)
        (doctrine_context st) (comparison_results st) s (lessons_learned st)
        (recommendations st)
  | set_lessons_learned l =>
      mk_AnalysisState (mission_log st) (current_event st)
        (doctrine_context st) (comparison_results st) (summary st) l
        (recommendations st)
  | set_recommendations l =>
      mk_AnalysisState (mission_log st) (current_event st)
        (doctrine_context st) (comparison_results st) (summary st)
        (lessons_learned st) l
  end.

Definition apply_updates (st : AnalysisState) (us : list update)
  : AnalysisState :=
  fold_left apply_update us st.

(** class MissionAnalysisRAG: the attribute the pipeline reads. *)
Record MissionAnalysisRAG := mk_MissionAnalysisRAG {
  doctrine_indexer : DoctrineIndexer
}.

(** MissionAnalysisRAG.__init__ with [use_local_llm=True] (the default, and
    what the server passes): a fresh indexer, indexed at once; the language
    model is left unset and the graph is the fixed one of [graph_invoke]. *)
Definition MissionAnalysisRAG_init (env : IndexEnv)
  : result MissionAnalysisRAG :=
  match index_doctrines env DoctrineIndexer_init false with
  | (Ok _, idx) => Ok (mk_MissionAnalysisRAG idx)
  | (Raise e, _) => Raise e
  end.

(** *** Stage 1: _analyze_events_node *)

Definition _analyze_events_node (st : AnalysisState) : result (list update) :=
  let mission_log := mission_log st in
  let comparison_results := [] in
  Ok [ set_comparison_results comparison_results;
       set_current_event (head (events mission_log)) ].

(** *** Stage 2: _retrieve_doctrine_node *)

(** [f"{event.event_type}: {event.description}"] *)
Definition event_query (event : MissionEvent) : string :=
  event_type event +:+ ": " +:+ description event.

(** [for desc in descs: docs = search(desc, k=3); all.extend(docs)] *)
Fixpoint search_each (self : DoctrineIndexer) (descs : list string)
    (all_doctrine_docs : list Document) : Eff (list Document) :=
  match descs with
  | [] => mret all_doctrine_docs
  | desc :: descs' =>
      docs ← search self desc 3;
      search_each self descs' (all_doctrine_docs ++ docs)
  end.

(** The loop over [all_doctrine_docs] with its two accumulators. *)
Fixpoint unique_loop (docs : list Document) (unique_docs : list Document)
    (seen_content : gset string) : list Document :=
  match docs with
  | [] => unique_docs
  | doc :: docs' =>
      if decide (page_content doc ∉ seen_content)
      then unique_loop docs' (unique_docs ++ [doc])
             (seen_content ∪ {[ page_content doc ]})
      else unique_loop docs' unique_docs seen_content
  end.

Definition _retrieve_doctrine_node (self : MissionAnalysisRAG)
    (st : AnalysisState) : Eff (list update) :=
  let mission_log := mission_log st in
  let event_descriptions := event_query <$> events mission_log in
  all_doctrine_docs ←
    search_each (doctrine_indexer self) (take 5 event_descriptions) [];
  let unique_docs := unique_loop all_doctrine_docs [] ∅ in
  mret [ set_doctrine_context unique_docs ].

(** *** The rule engine *)

Definition event_type_expectations : gmap string string :=
  list_to_map
    [ ("speed_change", "Log timestamp, previous speed, new speed, reason, and tracking number. Changes > 5 knots require communication to all stations.");
      ("course_change", "Log timestamp, previous course, new course, and tracking number. Notify navigation team for changes > 10 degrees.");
      ("contact_detection", "Assign tracking number immediately. Log bearing, range, timestamp, and classification. Maintain continuous tracking.");
      ("man_overboard", "Sound alarm, reduce speed to 5 knots, mark position with GPS timestamp, deploy recovery equipment.");
      ("mission_start", "Log start time (UTC), record initial position, document objectives, verify systems.");
      ("mission_end", "Log completion time, record final position, document outcomes, prepare debrief.") ].

Definition _get_expected_action_for_event (event : MissionEvent)
    (doctrine_text : string) : string :=
  default "Follow standard operational procedures and maintain detailed logs."
    (event_type_expectations !! event_type event).

(** [x is not None] *)
Definition is_not_None {A} (x : option A) : bool :=
  match x with
  | Some _ => true
  | None => false
  end.

Definition _determine_compliance (event : MissionEvent)
    (expected_action : string) : string :=
  let has_tracking := is_not_None (tracking_number event) in
  let has_timestamp := is_not_None (timestamp event) in
  if String.eqb (event_type event) "speed_change" then
    if has_tracking && has_timestamp && is_not_None (speed event) then
      "compliant"
    else if has_timestamp then
      "partial"
    else
      "non-compliant"
  else if String.eqb (event_type event) "contact_detection" then
    if has_tracking && has_timestamp then
      "compliant"
    else
      "non-compliant"
  else
    "unclear".

Definition severity_map : gmap string string :=
  list_to_map
    [ ("compliant", "info"); ("partial", "minor");
      ("non-compliant", "major"); ("unclear", "minor") ].

Definition _determine_severity (compliance_status : string) : string :=
  default "minor" (severity_map !! compliance_status).

Definition _generate_event_analysis (event : MissionEvent)
    (expected actual compliance : string) : string :=
  if String.eqb compliance "compliant" then
    "Event '" +:+ event_type event +:+ "' was properly documented with all required information including tracking number and timestamp. This follows doctrine requirements."
  else if String.eqb compliance "partial" then
    "Event '" +:+ event_type event +:+ "' was logged but missing some required information (e.g., tracking number). Recommend ensuring all events include complete documentation per doctrine."
  else if String.eqb compliance "non-compliant" then
    "Event '" +:+ event_type event +:+ "' did not meet doctrine requirements. Missing critical information such as tracking number or complete timestamp data. This should be addressed in future operations."
  else
    "Unable to fully determine compliance for event '" +:+ event_type event +:+ "'. Recommend manual review against doctrine requirements.".

(** *** Stage 3: _compare_actions_node *)

Definition newline : string := String (ascii_of_nat 10) EmptyString.

(** [sep.join(parts)] *)
Fixpoint join (sep : string) (parts : list string) : string :=
  match parts with
  | [] => ""
  | [p] => p
  | p :: parts' => p +:+ sep +:+ join sep parts'
  end.

Section Pipeline.
Context {RT : PyRuntime}.

(** DoctrineReference(doctrine_id=..., doctrine_name=..., section=...,
    requirement=..., context=...): the two values read from the metadata
    dict are validated as [str]. *)
Definition DoctrineReference_new (id name : pyval)
    (section requirement context : string) : result DoctrineReference :=
  match validate_str id, validate_str name with
  | Some id', Some name' =>
      Ok (mk_DoctrineReference id' name' section requirement context)
  | _, _ => Raise (ValidationError "DoctrineReference")
  end.

Definition doctrine_ref_of (doc : Document) : result DoctrineReference :=
  DoctrineReference_new
    (default (PStr "unknown") (doc_metadata doc !! "source_file"))
    (default (PStr "Naval Doctrine") (doc_metadata doc !! "source_file"))
    "General"
    (substring 0 200 (page_content doc))
    (page_content doc).

(** [[DoctrineReference(...) for doc in docs]] *)
Fixpoint doctrine_refs_of (docs : list Document)
  : result (list DoctrineReference) :=
  match docs with
  | [] => Ok []
  | doc :: docs' =>
      r ← doctrine_ref_of doc;
      rs ← doctrine_refs_of docs';
      Ok (r :: rs)
  end.

(** ComparisonResult(timestamp=event.timestamp, ...): [timestamp] is
    declared [datetime], so None is rejected. *)
Definition ComparisonResult_new (ts : option datetime)
    (event_description actual_action expected_action compliance_status : string)
    (doctrine_references : list DoctrineReference) (analysis : string)
    (severity : string) : result ComparisonResult :=
  match ts with
  | Some ts' =>
      Ok (mk_ComparisonResult ts' event_description actual_action
            expected_action compliance_status doctrine_references analysis
            (Some severity))
  | None => Raise (ValidationError "ComparisonResult")
  end.

Definition _analyze_event_against_doctrine (event : MissionEvent)
    (doctrine_text : string) (doctrine_docs : list Document)
  : result (option ComparisonResult) :=
  let expected_action := _get_expected_action_for_event event doctrine_text in
  let actual_action := description event in
  let compliance_status := _determine_compliance event expected_action in
  doctrine_refs ← doctrine_refs_of (take 2 doctrine_docs);
  let analysis :=
    _generate_event_analysis event expected_action actual_action
      compliance_status in
  c ← ComparisonResult_new (timestamp event) (description event)
        actual_action expected_action compliance_status doctrine_refs
        analysis (_determine_severity compliance_status);
  Ok (Some c).

(** [f"DOCTRINE PASSAGE {i+1}:\n{doc.page_content}"] for [i, doc] in
    [enumerate(docs)], counting from [i]. *)
Fixpoint passages (i : nat) (docs : list Document) : list string :=
  match docs with
  | [] => []
  | doc :: docs' =>
      ("DOCTRINE PASSAGE " +:+ pretty (i + 1) +:+ ":" +:+ newline
         +:+ page_content doc) :: passages (S i) docs'
  end.

(** The loop over [mission_log.events]: [if comparison: append]. *)
Fixpoint compare_loop (evs : list MissionEvent) (doctrine_text : string)
    (doctrine_context : list Document)
    (comparison_results : list ComparisonResult)
  : result (list ComparisonResult) :=
  match evs with
  | [] => Ok comparison_results
  | event :: evs' =>
      comparison ← _analyze_event_against_doctrine event doctrine_text
                     doctrine_context;
      compare_loop evs' doctrine_text doctrine_context
        (match comparison with
         | Some c => comparison_results ++ [c]
         | None => comparison_results
         end)
  end.

Definition _compare_actions_node (st : AnalysisState) : result (list update) :=
  let mission_log := mission_log st in
  let doctrine_context := doctrine_context st in
  let doctrine_text :=
    join (newline +:+ newline) (passages 0 doctrine_context) in
  comparison_results ←
    compare_loop (events mission_log) doctrine_text doctrine_context [];
  Ok [ set_comparison_results comparison_results ].

(** *** Stage 4: _generate_summary_node *)

(** [sum(1 for c in cs if c.compliance_status == status)] *)
Definition count_status (status : string) (cs : list ComparisonResult) : nat :=
  length (filter (fun c => String.eqb (compliance_status c) status = true) cs).

(** int to float, exact below 2^53 (the counts are list lengths). *)
Definition float_of_nat (n : nat) : float :=
  PrimFloat.of_uint63 (Uint63.of_Z (Z.of_nat n)).

(** [a / b] on ints: true division. *)
Definition truediv (a b : nat) : result float :=
  match b with
  | O => Raise ZeroDivisionError
  | S _ => Ok (PrimFloat.div (float_of_nat a) (float_of_nat b))
  end.

(** [x * 100] with [x] a float. *)
Definition times_100 (x : float) : float :=
  PrimFloat.mul x (float_of_nat 100).

(** [(compliant / total_events * 100) if total_events > 0 else 0] *)
Definition summary_compliance_score (compliant total_events : nat)
  : result pynum :=
  if (0 <? total_events)%nat then
    q ← truediv compliant total_events;
    Ok (NFloat (times_100 q))
  else Ok (NInt 0).

(** [f"{x:.1f}"] *)
Definition format_num_1f (x : pynum) : string :=
  match x with
  | NFloat f => format_1f f
  | NInt z => format_1f (PrimFloat.of_uint63 (Uint63.of_Z z))
  end.

(** The f-string assigned to [summary].  Its second replacement field is
    [{compliant/total_events*100:.1f}]: the words [if total_events > 0 else
    0] that follow are text of the string, so the division is evaluated for
    every [total_events]. *)
Definition summary_text (mission_log : MissionLog)
    (total_events compliant partial non_compliant : nat)
    (compliance_score : pynum) : result string :=
  q ← truediv compliant total_events;
  Ok ("Mission Analysis Summary for " +:+ mission_name mission_log
      +:+ newline +:+ newline
      +:+ "Total Events Analyzed: " +:+ pretty total_events +:+ newline
      +:+ "Compliant: " +:+ pretty compliant +:+ " ("
      +:+ format_1f (times_100 q) +:+ "% if total_events > 0 else 0)"
      +:+ newline
      +:+ "Partial Compliance: " +:+ pretty partial +:+ newline
      +:+ "Non-Compliant: " +:+ pretty non_compliant +:+ newline
      +:+ "Overall Compliance Score: " +:+ format_num_1f compliance_score
      +:+ "%" +:+ newline +:+ newline
      +:+ "The mission was conducted aboard " +:+ vessel_name mission_log
      +:+ " from " +:+ str_datetime (start_time mission_log) +:+ " to "
      +:+ match end_time mission_log with
          | Some t => str_datetime t
          | None => "ongoing"
          end
      +:+ "." +:+ newline).

Definition lesson_non_compliant (non_compliant : nat) : string :=
  pretty non_compliant +:+ " events did not meet doctrine requirements - ensure proper documentation procedures are followed".

Definition lesson_partial (partial : nat) : string :=
  pretty partial +:+ " events had partial compliance - review checklist for complete event logging".

Definition lesson_excellent : string :=
  "All events properly documented according to doctrine - excellent adherence to procedures".

Definition rec_training : string :=
  "Conduct refresher training on event documentation requirements".

Definition rec_checklist : string :=
  "Implement pre-mission checklist review of documentation procedures".

Definition rec_debriefs : string :=
  "Continue post-mission debriefs to reinforce lessons learned".

(** [xs.append(x)] under a condition. *)
Definition append_if {A} (c : bool) (xs : list A) (x : A) : list A :=
  if c then xs ++ [x] else xs.

Definition _generate_summary_node (st : AnalysisState) : result (list update) :=
  let comparison_results := comparison_results st in
  let mission_log := mission_log st in
  let total_events := length comparison_results in
  let compliant := count_status "compliant" comparison_results in
  let partial := count_status "partial" comparison_results in
  let non_compliant := count_status "non-compliant" comparison_results in
  compliance_score ← summary_compliance_score compliant total_events;
  summary ← summary_text mission_log total_events compliant partial
              non_compliant compliance_score;
  let lessons_learned := [] in
  let lessons_learned :=
    append_if (0 <? non_compliant)%nat lessons_learned
      (lesson_non_compliant non_compliant) in
  let lessons_learned :=
    append_if (0 <? partial)%nat lessons_learned (lesson_partial partial) in
  let lessons_learned :=
    append_if (compliant =? total_events)%nat lessons_learned lesson_excellent in
  let recommendations := [] in
  let recommendations :=
    if (0 <? non_compliant)%nat || (0 <? partial)%nat
    then (recommendations ++ [rec_training]) ++ [rec_checklist]
    else recommendations in
  let recommendations := recommendations ++ [rec_debriefs] in
  Ok [ set_summary summary;
       set_lessons_learned lessons_learned;
       set_recommendations recommendations ].

(** *** The graph and analyze_mission *)

(** The nodes _build_graph adds, by the names it gives them. *)
Inductive node :=
| analyze_events
| retrieve_doctrine
| compare_actions
| generate_summary.

#[global] Instance node_eq_dec : EqDecision node.
Proof. solve_decision. Defined.

(** The method each name is bound to by [add_node]. *)
Definition node_action (self : MissionAnalysisRAG) (n : node)
  : AnalysisState -> Eff (list update) :=
  match n with
  | analyze_events => fun st => lift (_analyze_events_node st)
  | retrieve_doctrine => _retrieve_doctrine_node self
  | compare_actions => fun st => lift (_compare_actions_node st)
  | generate_summary => fun st => lift (_generate_summary_node st)
  end.

(** The edges, in the order of the [add_edge] calls; [None] is START. *)
Definition edges : list (option node * node) :=
  [ (None, analyze_events);
    (Some analyze_events, retrieve_doctrine);
    (Some retrieve_doctrine, compare_actions);
    (Some compare_actions, generate_summary) ].

(** The node the graph moves to from [src]; none when no edge leaves it. *)
Definition successor (src : option node) : option node :=
  snd <$> find (fun e => bool_decide (fst e = src)) edges.

(** One node of the compiled graph: run it on the state, write its keys. *)
Definition run_node (action : AnalysisState -> Eff (list update))
    (st : AnalysisState) : Eff AnalysisState :=
  us ← action st;
  mret (apply_updates st us).

(** Follow the edges from [src] until a node without a successor has run.
    [steps] bounds the walk; the graph has no cycle, so one step per edge
    is enough. *)
Fixpoint run_graph (self : MissionAnalysisRAG) (steps : nat)
    (src : option node) (st : AnalysisState) : Eff AnalysisState :=
  match steps with
  | O => mret st
  | S steps' =>
      match successor src with
      | None => mret st
      | Some n =>
          st' ← run_node (node_action self n) st;
          run_graph self steps' (Some n) st'
      end
  end.

(** [self.graph.invoke(initial_state)] *)
Definition graph_invoke (self : MissionAnalysisRAG)
    (initial_state : AnalysisState) : Eff AnalysisState :=
  run_graph self (S (length edges)) None initial_state.

Definition initial_state (mission_log : MissionLog) : AnalysisState :=
  mk_AnalysisState mission_log None [] [] "" [] [].

(** The score analyze_mission computes from the final comparison list. *)
Definition overall_score (comparisons : list ComparisonResult) : result float :=
  if truthy comparisons then
    let compliant_count := count_status "compliant" comparisons in
    q ← truediv compliant_count (length comparisons);
    Ok (times_100 q)
  else Ok 0%float.

Definition analyze_mission (self : MissionAnalysisRAG)
    (mission_log : MissionLog) : Eff MissionAnalysis :=
  result ← graph_invoke self (initial_state mission_log);
  let comparisons := comparison_results result in
  overall_score ← lift (overall_score comparisons);
  mret (mk_MissionAnalysis
          (mission_id mission_log)
          (mission_name mission_log)
          now
          (comparison_results result)
          (summary result)
          (lessons_learned result)
          (recommendations result)
          (Some overall_score)).
End Pipeline.

(** ** A reference runtime

    One concrete [PyRuntime], used to run the model on concrete inputs.  It
    covers what the repository's own sample data needs: zero-padded
    date-time fields, epochs within the first day of 1970 (UTC), and the
    coercions of pydantic 2 (an int or a bool for a float; nothing else). *)
Module Reference.

Definition digit_of (c : ascii) : option Z :=
  let n := Z.of_nat (nat_of_ascii c) in
  if ((48 <=? n) && (n <=? 57))%Z then Some (n - 48)%Z else None.

(** Exactly [n] digits at the front of [s]: their value and the rest. *)
Fixpoint digits (n : nat) (acc : Z) (s : string) : option (Z * string) :=
  match n with
  | O => Some (acc, s)
  | S n' =>
      match s with
      | String c s' =>
          match digit_of c with
          | Some d => digits n' (acc * 10 + d)%Z s'
          | None => None
          end
      | EmptyString => None
      end
  end.

(** One to [n] digits, read as a fraction of a second in microseconds. *)
Fixpoint fraction (n : nat) (scale acc : Z) (s : string) : Z * string :=
  match n with
  | O => (acc, s)
  | S n' =>
      match s with
      | String c s' =>
          match digit_of c with
          | Some d => fraction n' (scale / 10)%Z (acc + d * scale)%Z s'
          | None => (acc, s)
          end
      | EmptyString => (acc, s)
      end
  end.

Inductive field := FYear | FMonth | FDay | FHour | FMinute | FSecond | FMicro.

Inductive directive :=
| Field (f : field)
| Literal (c : ascii).

Fixpoint directives (fmt : string) : list directive :=
  match fmt with
  | String "%" (String c fmt') =>
      match c with
      | "Y"%char => Field FYear :: directives fmt'
      | "m"%char => Field FMonth :: directives fmt'
      | "d"%char => Field FDay :: directives fmt'
      | "H"%char => Field FHour :: directives fmt'
      | "M"%char => Field FMinute :: directives fmt'
      | "S"%char => Field FSecond :: directives fmt'
      | "f"%char => Field FMicro :: directives fmt'
      | _ => Literal c :: directives fmt'
      end
  | String c fmt' => Literal c :: directives fmt'
  | EmptyString => []
  end.

Definition set_field (f : field) (v : Z) (d : datetime) : datetime :=
  match f with
  | FYear => mk_datetime v (month d) (day d) (hour d) (minute d) (second d) (microsecond d)
  | FMonth => mk_datetime (year d) v (day d) (hour d) (minute d) (second d) (microsecond d)
  | FDay => mk_datetime (year d) (month d) v (hour d) (minute d) (second d) (microsecond d)
  | FHour => mk_datetime (year d) (month d) (day d) v (minute d) (second d) (microsecond d)
  | FMinute => mk_datetime (year d) (month d) (day d) (hour d) v (second d) (microsecond d)
  | FSecond => mk_datetime (year d) (month d) (day d) (hour d) (minute d) v (microsecond d)
  | FMicro => mk_datetime (year d) (month d) (day d) (hour d) (minute d) (second d) v
  end.

Definition in_range (f : field) (v : Z) : bool :=
  match f with
  | FYear => (1 <=? v)%Z
  | FMonth => ((1 <=? v) && (v <=? 12))%Z
  | FDay => ((1 <=? v) && (v <=? 31))%Z
  | FHour => (v <=? 23)%Z
  | FMinute | FSecond => (v <=? 59)%Z
  | FMicro => true
  end.

Fixpoint scan (ds : list directive) (s : string) (d : datetime)
  : option datetime :=
  match ds with
  | [] => match s with EmptyString => Some d | _ => None end
  | Literal c :: ds' =>
      match s with
      | String c' s' => if Ascii.eqb c c' then scan ds' s' d else None
      | EmptyString => None
      end
  | Field FMicro :: ds' =>
      match s with
      | String c _ =>
          match digit_of c with
          | Some _ =>
              let '(v, s') := fraction 6 100000 0 s in
              scan ds' s' (set_field FMicro v d)
          | None => None
          end
      | EmptyString => None
      end
  | Field f :: ds' =>
      match digits (match f with FYear => 4 | _ => 2 end) 0 s with
      | Some (v, s') =>
          if in_range f v then scan ds' s' (set_field f v d) else None
      | None => None
      end
  end.

Definition ref_strptime (s fmt : string) : option datetime :=
  scan (directives fmt) s (mk_datetime 1900 1 1 0 0 0 0).

Definition ref_fromtimestamp (n : pynum) : result datetime :=
  match n with
  | NInt z =>
      if ((0 <=? z) && (z <? 86400))%Z
      then Ok (mk_datetime 1970 1 1 (z / 3600) (z / 60 mod 60) (z mod 60) 0)
      else Raise (LibraryError "epoch outside the reference runtime's range")
  | NFloat _ => Raise (LibraryError "epoch outside the reference runtime's range")
  end.

Definition ref_lax_float (v : pyval) : option float :=
  match v with
  | PInt z => Some (PrimFloat.of_uint63 (Uint63.of_Z z))
  | PBool b => Some (if b then 1%float else 0%float)
  | _ => None
  end.

(** [n] in decimal, at least two digits. *)
Definition two_digits (n : Z) : string :=
  if (n <? 10)%Z then "0" +:+ pretty n else pretty n.

Definition ref_str_datetime (d : datetime) : string :=
  pretty (year d) +:+ "-" +:+ two_digits (month d) +:+ "-"
  +:+ two_digits (day d) +:+ " " +:+ two_digits (hour d) +:+ ":"
  +:+ two_digits (minute d) +:+ ":" +:+ two_digits (second d).

(** Tenths of [m * 2^e], rounded to nearest, ties to even. *)
Definition tenths (m : positive) (e : Z) : Z :=
  if (0 <=? e)%Z then (Z.pos m * 10 * 2 ^ e)%Z
  else
    let den := (2 ^ (- e))%Z in
    let q := (Z.pos m * 10 / den)%Z in
    let r := (Z.pos m * 10 mod den)%Z in
    if (2 * r <? den)%Z then q
    else if (den <? 2 * r)%Z then (q + 1)%Z
    else if Z.even q then q else (q + 1)%Z.

Definition ref_format_1f (x : float) : string :=
  match Prim2SF x with
  | S754_zero s => if s then "-0.0" else "0.0"
  | S754_infinity s => if s then "-inf" else "inf"
  | S754_nan => "nan"
  | S754_finite s m e =>
      let t := tenths m e in
      (if s then "-" else "") +:+ pretty (t / 10)%Z +:+ "."
      +:+ pretty (t mod 10)%Z
  end.

(** [str] on the values that have no items; a container prints as its
    brackets only. *)
Definition ref_str_value (v : pyval) : string :=
  match v with
  | PNone => "None"
  | PBool b => if b then "True" else "False"
  | PInt z => pretty z
  | PFloat f => ref_format_1f f
  | PStr s => s
  | PDatetime d => ref_str_datetime d
  | PList _ => "[...]"
  | PDict _ => "{...}"
  end.

Definition runtime : PyRuntime := {|
  strptime := ref_strptime;
  fromtimestamp := ref_fromtimestamp;
  lax_str := fun _ => None;
  lax_float := ref_lax_float;
  lax_dict := fun _ => None;
  lax_datetime := fun _ => None;
  format_1f := ref_format_1f;
  str_datetime := ref_str_datetime;
  str_value := ref_str_value;
  now := mk_datetime 2024 11 15 0 0 0 0
|}.

End Reference.

(** ** Sample data

    The mission log of MissionLogParser.generate_sample_mission_log, and a
    small doctrine store whose answers overlap between queries. *)
Module Sample.

Definition event (ts ty desc : string) (rest : pydict) : pyval :=
  PDict ([("timestamp", PStr ts); ("event_type", PStr ty);
          ("description", PStr desc)] ++ rest).

Definition mission_json : pyval :=
  PDict
    [ ("mission_id", PStr "MISSION-2024-001");
      ("mission_name", PStr "Training Exercise Alpha");
      ("vessel_name", PStr "USS Example");
      ("start_time", PStr "2024-11-14T08:00:00Z");
      ("end_time", PStr "2024-11-14T16:00:00Z");
      ("events", PList
        [ event "2024-11-14T08:00:00Z" "mission_start" "Mission commenced"
            [("speed", PFloat 0); ("course", PFloat 0);
             ("latitude", PFloat 36.8529);
             ("longitude", PFloat (-76.2999))];
          event "2024-11-14T08:15:00Z" "speed_change"
            "Increased speed to 15 knots"
            [("speed", PFloat 15); ("course", PFloat 90);
             ("tracking_number", PStr "TRK-001")];
          event "2024-11-14T09:30:00Z" "contact_detection"
            "Surface contact detected bearing 045"
            [("tracking_number", PStr "TRK-002");
             ("metadata", PDict [("bearing", PInt 45); ("range", PInt 5000);
                                 ("classification", PStr "merchant")])];
          event "2024-11-14T10:00:00Z" "course_change"
            "Changed course to 120 degrees"
            [("speed", PFloat 15); ("course", PFloat 120);
             ("tracking_number", PStr "TRK-001")];
          event "2024-11-14T12:00:00Z" "speed_change"
            "Reduced speed to 5 knots for man overboard drill"
            [("speed", PFloat 5); ("course", PFloat 120);
             ("tracking_number", PStr "TRK-001")];
          event "2024-11-14T16:00:00Z" "mission_end"
            "Mission completed, returning to port"
            [("speed", PFloat 10); ("course", PFloat 270)] ]) ].

Definition chunk (text : string) : Document :=
  mk_Document text
    (<[ "source_file" := PStr "sample_naval_doctrine.txt" ]>
       (<[ "doctrine_type" := PStr "naval_doctrine" ]> ∅)).

Definition speed_chunk : Document :=
  chunk "All speed changes must be logged with timestamp and tracking number".
Definition course_chunk : Document :=
  chunk "Assign tracking number to maneuver".
Definition contact_chunk : Document :=
  chunk "Immediately assign tracking number".
Definition debrief_chunk : Document :=
  chunk "All missions require post-mission debrief".

(** A store that answers speed queries with one ranking and every other
    query with another; two of the chunks are in both. *)
Definition store : FAISS :=
  mk_FAISS (fun query k =>
    take k (if String.prefix "speed_change" query
            then [speed_chunk; course_chunk; debrief_chunk]
            else [contact_chunk; course_chunk; speed_chunk])).

(** A first start: nothing persisted yet, the corpus loads. *)
Definition env : IndexEnv :=
  mk_IndexEnv false
    (Raise (LibraryError "no index on disk"))
    (Ok [speed_chunk; course_chunk; contact_chunk; debrief_chunk])
    (fun _ => Ok store)
    (fun _ => Ok tt).

Definition rag : MissionAnalysisRAG :=
  mk_MissionAnalysisRAG (mk_DoctrineIndexer (Some store)).

(** [mission_json] as the parser returns it under the reference runtime. *)
Definition mission_log : MissionLog :=
  Eval vm_compute in
    match parse_json_data (RT := Reference.runtime) mission_json with
    | Ok log => log
    | Raise _ => mk_MissionLog "" "" (mk_datetime 0 0 0 0 0 0 0) None "" [] None
    end.

(** The analysis of [mission_log] by [rag] under the reference runtime,
    and the queries it put to the store. *)
Definition analysis : MissionAnalysis :=
  Eval vm_compute in
    match analyze_mission (RT := Reference.runtime) rag mission_log [] with
    | (Ok a, _) => a
    | (Raise _, _) =>
        mk_MissionAnalysis "" "" (mk_datetime 0 0 0 0 0 0 0) [] "" [] [] None
    end.

Definition queries : trace :=
  Eval vm_compute in
    snd (analyze_mission (RT := Reference.runtime) rag mission_log []).

(** The state the evaluation stage receives for [mission_log]. *)
Definition retrieved_state : AnalysisState :=
  mk_AnalysisState mission_log (head (events mission_log))
    [contact_chunk; course_chunk; speed_chunk; debrief_chunk] [] "" [] [].

End Sample.

(** ** The vocabulary of the properties

    What the specification's sentences speak of, as definitions: the
    classification table as worded, first occurrences in a list of chunks,
    well-formed events and documents, the score as a formula, the listed
    timestamp layouts, and the inputs the examples run on. *)
Section Vocabulary.
Context {RT : PyRuntime}.

(** The classification as the specification words it: for a speed change,
    compliant when tracking number, timestamp and speed are all present,
    partial when only the timestamp is present, non-compliant otherwise;
    for a contact detection, compliant when tracking number and timestamp
    are present, non-compliant otherwise; unclear for every other type. *)
Definition table_compliance (event : MissionEvent) : string :=
  let tn := is_not_None (tracking_number event) in
  let ts := is_not_None (timestamp event) in
  let sp := is_not_None (speed event) in
  if String.eqb (event_type event) "speed_change" then
    if tn && ts && sp then "compliant"
    else if ts && negb tn && negb sp then "partial"
    else "non-compliant"
  else if String.eqb (event_type event) "contact_detection" then
    if tn && ts then "compliant" else "non-compliant"
  else "unclear".

(** A speed change logged at 08:15 with its speed but without a tracking
    number (the specification's own "same without tracking_number"). *)
Definition speed_change_without_tracking : MissionEvent :=
  mk_MissionEvent (Some (mk_datetime 2024 11 14 8 15 0 0)) "speed_change"
    "Increased speed to 15 knots" None (Some 15%float) None None None [].

(** A mission log without events, as parse_json_data builds it from a JSON
    object that has no "events" key. *)
Definition empty_log : MissionLog :=
  mk_MissionLog "MISSION-2024-000" "Harbour Watch"
    (mk_datetime 2024 11 14 8 0 0 0) None "USS Example" [] None.

(** The lessons the stage builds from the three counts. *)
Definition lessons_of (cs : list ComparisonResult) : list string :=
  let non_compliant := count_status "non-compliant" cs in
  let partial := count_status "partial" cs in
  (if decide (Exists (fun c => compliance_status c = "non-compliant") cs)
   then [lesson_non_compliant non_compliant] else [])
  ++ (if decide (Exists (fun c => compliance_status c = "partial") cs)
      then [lesson_partial partial] else [])
  ++ (if decide (Forall (fun c => compliance_status c = "compliant") cs)
      then [lesson_excellent] else []).

Definition recommendations_of (cs : list ComparisonResult) : list string :=
  (if decide (Exists (fun c => compliance_status c = "non-compliant"
                               \/ compliance_status c = "partial") cs)
   then [rec_training; rec_checklist] else [])
  ++ [rec_debriefs].

(** The documents of [docs] whose text is neither in [earlier] nor carried
    by a document before them in [docs]. *)
Fixpoint fresh_docs (earlier : list string) (docs : list Document)
  : list Document :=
  match docs with
  | [] => []
  | doc :: docs' =>
      if decide (page_content doc ∈ earlier)
      then fresh_docs earlier docs'
      else doc :: fresh_docs (page_content doc :: earlier) docs'
  end.

(** [doc] stands at index [i] of [docs] and no document before it has its
    text. *)
Definition first_occurrence (docs : list Document) (i : nat) (doc : Document)
  : Prop :=
  docs !! i = Some doc
  /\ forall j doc', j < i -> docs !! j = Some doc' ->
       page_content doc' <> page_content doc.

(** [ctx] lists the documents of [docs] in first-seen order: it holds, by
    increasing position, the documents that stand in [docs] at a position
    where their text occurs for the first time, and no other. *)
Definition first_seen_order (docs ctx : list Document) : Prop :=
  exists positions,
    StronglySorted lt positions
    /\ Forall2 (first_occurrence docs) positions ctx
    /\ forall i doc, first_occurrence docs i doc -> i ∈ positions.

(** The metadata of [doc] passes DoctrineReference's validation: its
    "source_file" entry, when there is one, is accepted as a [str].  Every
    chunk the indexer loads has the file's name there. *)
Definition doc_ok (doc : Document) : Prop :=
  match doc_metadata doc !! "source_file" with
  | Some v => is_Some (validate_str v)
  | None => True
  end.

(** The event carries a timestamp, as every constructed MissionEvent does. *)
Definition event_ok (event : MissionEvent) : Prop := is_Some (timestamp event).

(** What one event contributes to the comparison list. *)
Definition matches (doctrine_text : string) (refs : list DoctrineReference)
    (event : MissionEvent) (c : ComparisonResult) : Prop :=
  timestamp event = Some (cr_timestamp c)
  /\ event_description c = description event
  /\ actual_action c = description event
  /\ expected_action c = _get_expected_action_for_event event doctrine_text
  /\ compliance_status c = _determine_compliance event (expected_action c)
  /\ severity c = Some (_determine_severity (compliance_status c))
  /\ doctrine_references c = refs.

(** The score in one expression of the code's own operations: what both
    computations of it reduce to. *)
Definition compliance_percentage (cs : list ComparisonResult) : float :=
  match cs with
  | [] => 0%float
  | _ :: _ =>
      PrimFloat.mul
        (PrimFloat.div (float_of_nat (count_status "compliant" cs))
                       (float_of_nat (length cs)))
        100%float
  end.

(** The timestamp values the specification lists: a string in one of the
    five layouts (ISO-8601 with "Z", with or without fractional seconds;
    space-separated, with or without fractional seconds; US-style), or a
    number. *)
Definition listed_timestamp (v : pyval) : Prop :=
  match v with
  | PStr s => exists fmt, fmt ∈ formats /\ is_Some (strptime s fmt)
  | PInt _ | PFloat _ => True
  | _ => False
  end.

(** [fmt], at index [i] of the list, is the first format that parses [s]. *)
Definition first_match (s : string) (d : datetime) : Prop :=
  exists i fmt,
    formats !! i = Some fmt
    /\ strptime s fmt = Some d
    /\ forall j fmt', j < i -> formats !! j = Some fmt' ->
         strptime s fmt' = None.

(** An event with the timestamp "yesterday", and a log that holds it after
    a well-formed event. *)
Definition undated_event : pyval :=
  PDict [("timestamp", PStr "yesterday"); ("event_type", PStr "speed_change")].

Definition undated_log : pydict :=
  [ ("mission_id", PStr "MISSION-2024-002");
    ("start_time", PStr "2024-11-14T08:00:00Z");
    ("events", PList
       [ Sample.event "2024-11-14T08:00:00Z" "mission_start"
           "Mission commenced" [];
         undated_event ]) ].

(** The fields of MissionEvent other than the timestamp, each with the
    test its annotation puts on a supplied value. *)
Definition field_accepts : list (string * (pyval -> bool)) :=
  [ ("event_type", fun v => bool_decide (is_Some (validate_str v)));
    ("description", fun v => bool_decide (is_Some (validate_str v)));
    ("tracking_number",
       fun v => bool_decide (is_Some (validate_optional validate_str v)));
    ("speed",
       fun v => bool_decide (is_Some (validate_optional validate_float v)));
    ("course",
       fun v => bool_decide (is_Some (validate_optional validate_float v)));
    ("latitude",
       fun v => bool_decide (is_Some (validate_optional validate_float v)));
    ("longitude",
       fun v => bool_decide (is_Some (validate_optional validate_float v)));
    ("metadata", fun v => bool_decide (is_Some (validate_dict v))) ].

(** A supplied field that its annotation rejects. *)
Definition rejected_field (d : pydict) : Prop :=
  exists k accepts v,
    (k, accepts) ∈ field_accepts
    /\ dict_lookup d k = Some v
    /\ accepts v = false.

(** A mission log as JSON with no "events" key. *)
Definition no_events_json : pyval :=
  PDict [ ("mission_id", PStr "MISSION-2024-000");
          ("start_time", PStr "2024-11-14T08:00:00Z") ].

(** An event whose timestamp is fine and whose event_type is null. *)
Definition null_typed_event : pydict :=
  [("timestamp", PStr "2024-11-14T08:15:00Z"); ("event_type", PNone)].

End Vocabulary.

(** ** doctrine_indexer.py: loading the corpus and building the store *)
Module Indexer.

(** A pathlib.Path: [str(path)] and [path.name]. *)
Record Path := mk_Path {
  path_str : string;
  path_name : string
}.

(** The library calls of the loaders and of create_vector_store:
    [PyPDFLoader(str(p)).load()], [TextLoader(str(p)).load()],
    [self.text_splitter.split_documents], the embedder's [embed_documents]
    and [dimension], and [index_add dim vectors] for
    [faiss.IndexFlatL2(dim)] followed by
    [index.add(np.array(vectors).astype('float32'))], which numpy or faiss
    refuse when the vectors are not all of length [dim]. *)
Record Library := mk_Library {
  pdf_load : Path -> result (list Document);
  text_load : Path -> result (list Document);
  split_documents : list Document -> result (list Document);
  embed_documents : list string -> result (list (list float));
  dimension : nat;
  index_add : nat -> list (list float) -> result unit
}.

(** [doc.metadata["source_file"] = file_path.name] and then
    [doc.metadata["doctrine_type"] = "naval_doctrine"]. *)
Definition tag (file_path : Path) (doc : Document) : Document :=
  mk_Document (page_content doc)
    (<[ "doctrine_type" := PStr "naval_doctrine" ]>
       (<[ "source_file" := PStr (path_name file_path) ]> (doc_metadata doc))).

Definition load_pdf (L : Library) (file_path : Path) : result (list Document) :=
  pages ← pdf_load L file_path;
  split_documents L (tag file_path <$> pages).

Definition load_text (L : Library) (file_path : Path) : result (list Document) :=
  docs ← text_load L file_path;
  split_documents L (tag file_path <$> docs).

(** [for f in files: docs = load(f); all_docs.extend(docs)] *)
Fixpoint load_each (load : Path -> result (list Document)) (files : list Path)
    (all_docs : list Document) : result (list Document) :=
  match files with
  | [] => Ok all_docs
  | file :: files' =>
      docs ← load file;
      load_each load files' (all_docs ++ docs)
  end.

(** load_all_doctrines; [pdf_files] and [txt_files] are what the two globs
    of the doctrines directory yield, in their order. *)
Definition load_all_doctrines (L : Library) (pdf_files txt_files : list Path)
  : result (list Document) :=
  all_docs ← load_each (load_pdf L) pdf_files [];
  load_each (load_text L) txt_files all_docs.

(** What create_vector_store hands to the FAISS constructor: the flat
    index (its dimension and the vectors added to it), the docstore and
    the map from index positions to docstore ids. *)
Record FAISS_args := mk_FAISS_args {
  index_dimension : nat;
  index_vectors : list (list float);
  docstore : gmap string Document;
  index_to_docstore_id : gmap nat string
}.

(** [{str(i): doc for i, doc in enumerate(documents)}], counting from [i]. *)
Fixpoint docstore_from (i : nat) (documents : list Document)
    (d : gmap string Document) : gmap string Document :=
  match documents with
  | [] => d
  | doc :: documents' => docstore_from (S i) documents' (<[ pretty i := doc ]> d)
  end.

(** [{i: str(i) for i in range(n)}], built from [i] upwards for [n] keys. *)
Fixpoint ids_from (i n : nat) (d : gmap nat string) : gmap nat string :=
  match n with
  | O => d
  | S n' => ids_from (S i) n' (<[ i := pretty i ]> d)
  end.

(** create_vector_store.  [embeddings[0]] on an empty answer of the
    embedder is Python's IndexError. *)
Definition create_vector_store (L : Library) (documents : list Document)
  : result FAISS_args :=
  if negb (truthy documents) then
    Ok (mk_FAISS_args (dimension L) [] ∅ ∅)
  else
    let texts := page_content <$> documents in
    embeddings ← embed_documents L texts;
    match embeddings with
    | [] => Raise (LibraryError "IndexError: list index out of range")
    | first :: _ =>
        let embedding_dim := length first in
        _ ← index_add L embedding_dim embeddings;
        Ok (mk_FAISS_args embedding_dim embeddings
              (docstore_from 0 documents ∅)
              (ids_from 0 (length documents) ∅))
    end.

(** The environment of index_doctrines over a directory: the persisted
    index [persisted] (none when the path does not exist; loading it may
    fail), the files the globs yield, [faiss] the FAISS constructor and
    [save] the store's save_local. *)
Definition env_of (L : Library) (persisted : option (result FAISS))
    (pdf_files txt_files : list Path) (faiss : FAISS_args -> FAISS)
    (save : FAISS -> result unit) : IndexEnv :=
  mk_IndexEnv
    (match persisted with Some _ => true | None => false end)
    (default (Raise (LibraryError "no index file")) persisted)
    (load_all_doctrines L pdf_files txt_files)
    (fun documents => faiss <$> create_vector_store L documents)
    save.

End Indexer.

(** ** api.py: the handlers that call the parser, the pipeline and the
    indexer *)
Module Api.

(** What a handler gives back: the value it returns, or the HTTPException
    it raises. *)
Inductive response (A : Type) :=
| Returned (a : A)
| HTTPException (status_code : nat) (detail : string).
Arguments Returned {A} a.
Arguments HTTPException {A} status_code detail.

(** The module's global instances. *)
Record Globals := mk_Globals {
  rag_pipeline : option MissionAnalysisRAG;
  indexer : option DoctrineIndexer;
  stored_analyses : gmap string MissionAnalysis
}.

(** class ChatQuery(BaseModel) and class ChatResponse(BaseModel) of
    models.py. *)
Record ChatQuery := mk_ChatQuery {
  question : string;
  cq_mission_id : option string;
  context_type : option string
}.

Record ChatResponse := mk_ChatResponse {
  answer : string;
  sources : list string;
  related_events : option (list MissionEvent)
}.

(** A handler reads and writes the globals and may query the store. *)
Definition Handler (A : Type) : Type :=
  Globals -> trace -> (response A * Globals) * trace.

(** One dict of the list GET /api/missions returns. *)
Record mission_row := mk_mission_row {
  row_mission_id : string;
  row_mission_name : string;
  row_vessel_name : string;
  row_start_time : string;
  events_count : nat;
  has_analysis : bool
}.

Section Handlers.
Context {RT : PyRuntime}.

(** [str(e)] on a caught exception, and [list(set(xs))]: a TypeError on an
    unhashable item, otherwise the distinct items in the set's own
    order. *)
Variable str_exn : exn -> string.
Variable list_of_set : list pyval -> result (list pyval).

(** POST /api/missions/analyze.  The 503 is raised before the [try]; every
    exception inside it becomes a 500. *)
Definition analyze_mission (mission_data : pydict)
  : Handler MissionAnalysis :=
  fun g t =>
    match rag_pipeline g with
    | None => ((HTTPException 503 "RAG pipeline not initialized", g), t)
    | Some rag =>
        match parse_json_data (PDict mission_data) with
        | Raise e =>
            ((HTTPException 500 ("Error analyzing mission: " +:+ str_exn e),
              g), t)
        | Ok mission =>
            match analyze_mission rag mission t with
            | (Raise e, t') =>
                ((HTTPException 500
                    ("Error analyzing mission: " +:+ str_exn e), g), t')
            | (Ok analysis, t') =>
                ((Returned analysis,
                  mk_Globals (rag_pipeline g) (indexer g)
                    (<[ mission_id mission := analysis ]>
                       (stored_analyses g))), t')
            end
        end
    end.

(** GET /api/missions/{mission_id}/analysis *)
Definition get_mission_analysis (mission_id : string)
  : Handler MissionAnalysis :=
  fun g t =>
    match stored_analyses g !! mission_id with
    | None => ((HTTPException 404 "Analysis not found", g), t)
    | Some analysis => ((Returned analysis, g), t)
    end.

(** [f"{i}. {doc.page_content[:200]}..."] and an empty line for each
    [i, doc] of [enumerate(docs, i)]. *)
Fixpoint answer_parts (i : nat) (docs : list Document) : list string :=
  match docs with
  | [] => []
  | doc :: docs' =>
      (pretty i +:+ ". " +:+ substring 0 200 (page_content doc) +:+ "...")
        :: "" :: answer_parts (S i) docs'
  end.

(** [[validate(x) for x in xs]] for a field declared [List[str]]. *)
Fixpoint validate_strs (xs : list pyval) : option (list string) :=
  match xs with
  | [] => Some []
  | x :: xs' =>
      match validate_str x, validate_strs xs' with
      | Some s, Some ss => Some (s :: ss)
      | _, _ => None
      end
  end.

(** POST /api/chat *)
Definition chat (query : ChatQuery) : Handler ChatResponse :=
  fun g t =>
    match indexer g with
    | None => ((HTTPException 503 "Doctrine indexer not initialized", g), t)
    | Some doctrine_indexer =>
        match search doctrine_indexer (question query) 5 t with
        | (Raise e, t') =>
            ((HTTPException 500 ("Error processing query: " +:+ str_exn e),
              g), t')
        | (Ok relevant_docs, t') =>
            let sources :=
              (fun doc => default (PStr "Unknown")
                            (doc_metadata doc !! "source_file"))
                <$> relevant_docs in
            let answer_parts :=
              [ "Based on doctrine documents, here are relevant passages:";
                "" ] ++ answer_parts 1 (take 3 relevant_docs) in
            let answer := join newline answer_parts in
            match list_of_set sources with
            | Raise e =>
                ((HTTPException 500
                    ("Error processing query: " +:+ str_exn e), g), t')
            | Ok distinct =>
                match validate_strs distinct with
                | None =>
                    ((HTTPException 500
                        ("Error processing query: "
                         +:+ str_exn (ValidationError "ChatResponse")), g),
                     t')
                | Some sources' =>
                    ((Returned (mk_ChatResponse answer sources' None), g), t')
                end
            end
        end
    end.

(** [MissionAnalysisRAG(use_local_llm=True)] as the server calls it:
    [new_embeddings] is the [LocalEmbeddings()] of the constructor, which
    loads the model and may fail. *)
Definition new_pipeline (new_embeddings : result unit) (env : IndexEnv)
  : result MissionAnalysisRAG :=
  _ ← new_embeddings;
  MissionAnalysisRAG_init env.

(** startup_event.  [new_embeddings] is its own [LocalEmbeddings()];
    [sample] is the outcome of create_sample_doctrine when the doctrines
    directory holds neither a text nor a PDF file, and None when it holds
    one; [env1] is the file system as the indexer's index_doctrines finds
    it, [new_embeddings'] and [env2] are what the constructor of the
    pipeline finds.  The global indexer is the object index_doctrines
    works on, so it shows what the call left there.  An exception is not
    caught. *)
Definition startup_event (new_embeddings : result unit)
    (sample : option (result unit)) (env1 : IndexEnv)
    (new_embeddings' : result unit) (env2 : IndexEnv) (g : Globals)
  : result unit * Globals :=
  match new_embeddings with
  | Raise e => (Raise e, g)
  | Ok _ =>
      let doctrine_indexer := DoctrineIndexer_init in
      match default (Ok tt) sample with
      | Raise e =>
          (Raise e,
           mk_Globals (rag_pipeline g) (Some doctrine_indexer)
             (stored_analyses g))
      | Ok _ =>
          match index_doctrines env1 doctrine_indexer false with
          | (Raise e, doctrine_indexer') =>
              (Raise e,
               mk_Globals (rag_pipeline g) (Some doctrine_indexer')
                 (stored_analyses g))
          | (Ok _, doctrine_indexer') =>
              match new_pipeline new_embeddings' env2 with
              | Raise e =>
                  (Raise e,
                   mk_Globals (rag_pipeline g) (Some doctrine_indexer')
                     (stored_analyses g))
              | Ok rag =>
                  (Ok tt,
                   mk_Globals (Some rag) (Some doctrine_indexer')
                     (stored_analyses g))
              end
          end
      end
  end.

(** POST /api/doctrines/reindex; the parameters are those of
    [startup_event].  Every exception becomes a 500; the assignments made
    before it stay. *)
Definition reindex_doctrines (new_embeddings : result unit) (env1 : IndexEnv)
    (new_embeddings' : result unit) (env2 : IndexEnv) : Handler string :=
  fun g t =>
    match (match indexer g with
           | None => (fun _ => DoctrineIndexer_init) <$> new_embeddings
           | Some doctrine_indexer => Ok doctrine_indexer
           end) with
    | Raise e => ((HTTPException 500 ("Error reindexing: " +:+ str_exn e), g), t)
    | Ok doctrine_indexer =>
        match index_doctrines env1 doctrine_indexer true with
        | (Raise e, doctrine_indexer') =>
            ((HTTPException 500 ("Error reindexing: " +:+ str_exn e),
              mk_Globals (rag_pipeline g) (Some doctrine_indexer')
                (stored_analyses g)), t)
        | (Ok _, doctrine_indexer') =>
            match new_pipeline new_embeddings' env2 with
            | Raise e =>
                ((HTTPException 500 ("Error reindexing: " +:+ str_exn e),
                  mk_Globals (rag_pipeline g) (Some doctrine_indexer')
                    (stored_analyses g)), t)
            | Ok rag =>
                ((Returned "Doctrine documents reindexed successfully",
                  mk_Globals (Some rag) (Some doctrine_indexer')
                    (stored_analyses g)), t)
            end
        end
    end.

(** GET /api/missions.  [files] is what [json.load] gave, or raised, for
    each file of the glob over the mission log directory, in its order; a
    file that does not load or does not parse is skipped. *)
Variable isoformat : datetime -> string.

Fixpoint list_missions_loop (files : list (result pyval))
    (stored : gmap string MissionAnalysis) (missions : list mission_row)
  : list mission_row :=
  match files with
  | [] => missions
  | file :: files' =>
      match file ≫= parse_json_data with
      | Ok mission =>
          list_missions_loop files' stored
            (missions
             ++ [ mk_mission_row (mission_id mission) (mission_name mission)
                    (vessel_name mission) (isoformat (start_time mission))
                    (length (events mission))
                    (bool_decide (is_Some (stored !! mission_id mission))) ])
      | Raise _ => list_missions_loop files' stored missions
      end
  end.

Definition list_missions (files : list (result pyval))
  : Handler (list mission_row) :=
  fun g t => ((Returned (list_missions_loop files (stored_analyses g) []), g), t).

End Handlers.

End Api.

(** ** The vector store, from the specification *)

Section FlatIndex.

(** What the store takes from its libraries: [embed_query] is
    LocalEmbeddings.embed_query, a sentence-transformers model, and
    [distance q v] stands for the distance the index measures between the
    query vector and a stored one (for faiss.IndexFlatL2 the Euclidean
    one), as a number of an ordered type. *)
Variable embed_query : string -> list float.
Variable distance : list float -> list float -> Z.

(** The distance of the vector at position [j] of the index. *)
Definition distance_at (q : list float) (vectors : list (list float))
    (j : nat) : Z :=
  default 0%Z (distance q <$> vectors !! j).

(** Position [i] is at least as near to [q] as position [j]. *)
Definition nearer (q : list float) (vectors : list (list float))
  : relation nat :=
  fun i j => (distance_at q vectors i <= distance_at q vectors j)%Z.

#[global] Instance nearer_dec q vectors : RelDecision (nearer q vectors).
Proof. intros i j. unfold nearer. apply _. Defined.

(** Modelled from the spec: similarity_search of langchain's FAISS store,
    which is a library and not code of this repository; the specification
    says of it that search "embeds the query and returns the k nearest
    chunks with their metadata".  The query is embedded, the positions of
    the index are ranked by the distance of their vectors to the query
    vector, the first [k] are taken, and each is looked up through
    index_to_docstore_id in the docstore, which holds the chunks with
    their metadata.  The index, the docstore and the id map are those the
    store was constructed with (create_vector_store). *)
Definition flat_index_search (args : Indexer.FAISS_args) (query : string)
    (k : nat) : list Document :=
  let q := embed_query query in
  let vectors := Indexer.index_vectors args in
  let ranked := merge_sort (nearer q vectors) (seq 0 (length vectors)) in
  omap (fun j => Indexer.index_to_docstore_id args !! j
                   ≫= (fun id => Indexer.docstore args !! id))
       (take k ranked).

Definition flat_index (args : Indexer.FAISS_args) : FAISS :=
  mk_FAISS (flat_index_search args).

End FlatIndex.

(** ** Further vocabulary *)

(** The event types the rule engine has an expectation for. *)
Definition known_event_types : list string :=
  [ "speed_change"; "course_change"; "contact_detection"; "man_overboard";
    "mission_start"; "mission_end" ].

(** The four compliance statuses. *)
Definition statuses : list string :=
  [ "compliant"; "partial"; "non-compliant"; "unclear" ].

(** The expectation for an event type that is not known. *)
Definition fallback_expectation : string :=
  "Follow standard operational procedures and maintain detailed logs.".

(** A comparison without its doctrine references. *)
Definition without_references (c : ComparisonResult) : ComparisonResult :=
  mk_ComparisonResult (cr_timestamp c) (event_description c)
    (actual_action c) (expected_action c) (compliance_status c) []
    (analysis c) (severity c).

(** What an analysis says about the mission: every field but the time
    stamp, which is the reading of the clock when the analysis was built,
    and the comparisons without their references. *)
Definition verdicts (a : MissionAnalysis)
  : string * string * list ComparisonResult * string * list string
    * list string * option float :=
  (ma_mission_id a, ma_mission_name a, without_references <$> comparisons a,
   ma_summary a, ma_lessons_learned a, ma_recommendations a,
   overall_compliance_score a).

(** The score law of the specification, stated without the code's
    functions.  [status_count] counts the comparisons whose status is the
    given one; [binary64_of_nat] is a natural number as IEEE 754 binary64
    (rounded to nearest, ties to even; exact up to 2^53); [score_law] is
    the number of compliant comparisons divided by the number of
    comparisons, times 100, each operation the correctly rounded binary64
    one, and zero for no comparison. *)
Definition status_count (status : string) (cs : list ComparisonResult) : nat :=
  length (filter (fun c => compliance_status c = status) cs).

Definition binary64_of_nat (n : nat) : spec_float :=
  binary_normalize prec emax (Z.of_nat n) 0 false.

Definition score_law (cs : list ComparisonResult) : spec_float :=
  match cs with
  | [] => S754_zero false
  | _ :: _ =>
      SFmul prec emax
        (SFdiv prec emax
           (binary64_of_nat (status_count "compliant" cs))
           (binary64_of_nat (length cs)))
        (binary64_of_nat 100)
  end.

(** A comparison list with the given statuses, for the examples. *)
Definition with_statuses (statuses : list string) : list ComparisonResult :=
  (fun status =>
     mk_ComparisonResult (mk_datetime 2024 11 14 8 0 0 0) "" "" "" status []
       "" None) <$> statuses.

(** The runtime [RT] at a moment when the clock reads [d]: models.py
    gives MissionAnalysis.timestamp the default factory datetime.now, so
    each analysis is built at a reading of its own. *)
Definition with_now (RT : PyRuntime) (d : datetime) : PyRuntime := {|
  strptime := @strptime RT;
  fromtimestamp := @fromtimestamp RT;
  lax_str := @lax_str RT;
  lax_float := @lax_float RT;
  lax_dict := @lax_dict RT;
  lax_datetime := @lax_datetime RT;
  format_1f := @format_1f RT;
  str_datetime := @str_datetime RT;
  str_value := @str_value RT;
  now := d
|}.

(** The comparison the evaluation stage builds for an event that carries
    the timestamp [ts], given the references [refs]. *)
Definition comparison_for (event : MissionEvent) (ts : datetime)
    (refs : list DoctrineReference) : ComparisonResult :=
  let expected := _get_expected_action_for_event event "" in
  let status := _determine_compliance event expected in
  mk_ComparisonResult ts (description event) (description event) expected
    status refs
    (_generate_event_analysis event expected (description event) status)
    (Some (_determine_severity status)).

Section Built.
Context {RT : PyRuntime}.

(** [c] is the comparison the evaluation stage builds for [event] when the
    doctrine context is [docs]. *)
Definition built_for (docs : list Document) (event : MissionEvent)
    (c : ComparisonResult) : Prop :=
  exists ts refs,
    timestamp event = Some ts
    /\ doctrine_refs_of (take 2 docs) = Ok refs
    /\ c = comparison_for event ts refs.

End Built.

(** A pipeline whose store finds nothing, the analysis of the sample
    mission it gives when the clock reads five minutes after that of the
    reference runtime, and the queries it put. *)
Definition bare_rag : MissionAnalysisRAG :=
  mk_MissionAnalysisRAG (mk_DoctrineIndexer (Some (mk_FAISS (fun _ _ => [])))).

Definition later_analysis : MissionAnalysis :=
  Eval vm_compute in
    match analyze_mission
            (RT := with_now Reference.runtime (mk_datetime 2024 11 15 0 5 0 0))
            bare_rag Sample.mission_log [] with
    | (Ok a, _) => a
    | (Raise _, _) =>
        mk_MissionAnalysis "" "" (mk_datetime 0 0 0 0 0 0 0) [] "" [] [] None
    end.

Definition bare_queries : trace :=
  Eval vm_compute in
    snd (analyze_mission (RT := Reference.runtime) bare_rag
           Sample.mission_log []).

(** A library for the examples: no PDF loads, a text file holds one
    document, the splitter cuts nothing and the embedder gives each text a
    vector of one coordinate; and the sample doctrine file. *)
Definition plain_library : Indexer.Library :=
  Indexer.mk_Library
    (fun _ => Raise (LibraryError "not a PDF"))
    (fun file => Ok [mk_Document ("Text of " +:+ Indexer.path_name file) ∅])
    (fun docs => Ok docs)
    (fun texts => Ok ((fun _ => [0%float]) <$> texts))
    384
    (fun _ _ => Ok tt).

(** An embedder and a distance for the examples: a text is embedded as the
    one coordinate of its length, and the distance of two such vectors is
    the difference of their coordinates. *)
Definition sample_embed (text : string) : list float :=
  [float_of_nat (String.length text)].

Definition coordinate (v : list float) : Z :=
  match v with
  | x :: _ =>
      match Prim2SF x with
      | S754_finite false m e => Z.shiftl (Z.pos m) e
      | _ => 0%Z
      end
  | [] => 0%Z
  end.

Definition sample_distance (q v : list float) : Z :=
  Z.abs (coordinate q - coordinate v).

Definition sized_library : Indexer.Library :=
  Indexer.mk_Library
    (fun _ => Raise (LibraryError "not a PDF"))
    (fun file => Ok [mk_Document ("Text of " +:+ Indexer.path_name file) ∅])
    (fun docs => Ok docs)
    (fun texts => Ok (sample_embed <$> texts))
    1
    (fun _ _ => Ok tt).

Definition doctrine_file : Indexer.Path :=
  Indexer.mk_Path "data/doctrines/sample_naval_doctrine.txt"
    "sample_naval_doctrine.txt".

(** The server's globals after a start-up that indexed the sample store,
    with no analysis stored yet. *)
Definition started : Api.Globals :=
  Api.mk_Globals (Some Sample.rag) (Some (mk_DoctrineIndexer (Some Sample.store)))
    ∅.

(** [str(e)] for the examples. *)
Definition sample_str_exn (e : exn) : string :=
  match e with
  | KeyError key => "'" +:+ key +:+ "'"
  | ValueError msg | TypeError msg | AttributeError msg | LibraryError msg =>
      msg
  | ZeroDivisionError => "division by zero"
  | ValidationError model => "validation error for " +:+ model
  end.

(** [list(set(xs))] for the examples, right for lists of strings: the
    distinct strings, in the order of their first occurrence. *)
Definition sample_list_of_set (xs : list pyval) : result (list pyval) :=
  Ok (PStr <$> remove_dups
                 (omap (fun v => match v with PStr s => Some s | _ => None end)
                       xs)).

(** [d.isoformat()] for the examples (whole seconds). *)
Definition sample_isoformat (d : datetime) : string :=
  pretty (year d) +:+ "-" +:+ Reference.two_digits (month d) +:+ "-"
  +:+ Reference.two_digits (day d) +:+ "T" +:+ Reference.two_digits (hour d)
  +:+ ":" +:+ Reference.two_digits (minute d) +:+ ":"
  +:+ Reference.two_digits (second d).

(** The sample mission as the dict POST /api/missions/analyze receives,
    and the globals after its analysis. *)
Definition sample_mission_data : pydict :=
  match Sample.mission_json with
  | PDict d => d
  | _ => []
  end.

Definition analysed : Api.Globals :=
  Api.mk_Globals (Some Sample.rag)
    (Some (mk_DoctrineIndexer (Some Sample.store)))
    (<[ "MISSION-2024-001" := Sample.analysis ]> ∅).

(** Globals whose store gives three chunks at most, the first three of
    the sample store's. *)
Definition started_short : Api.Globals :=
  Api.mk_Globals None
    (Some (mk_DoctrineIndexer
             (Some (mk_FAISS (fun query k =>
                      take 3 (similarity_search Sample.store query k))))))
    ∅.


(** The keys parse_event reads. *)
Definition event_keys : list string :=
  [ "timestamp"; "event_type"; "description"; "tracking_number"; "speed";
    "course"; "latitude"; "longitude"; "metadata" ].

(** * Properties *)

(** ** The compliance rules *)

(** C1, as worded, fails: with the timestamp and the speed present and the
    tracking number absent, the table says non-compliant (the timestamp is
    not the only field present) and the code says partial. *)
Lemma determine_compliance_not_table :
  _determine_compliance speed_change_without_tracking "" = "partial"
  /\ table_compliance speed_change_without_tracking = "non-compliant".
Proof. split; reflexivity. Qed.

(** C1, amended: the status is decided by the event type and by which of
    tracking number, timestamp and speed are present.  A speed change is
    compliant when all three are present, partial when the timestamp is
    present and the tracking number or the speed is missing, non-compliant
    when the timestamp is missing.  A contact detection is compliant when
    tracking number and timestamp are present, non-compliant otherwise.
    Every other type is unclear. *)
Theorem determine_compliance_rules (event : MissionEvent) (expected : string) :
  (event_type event = "speed_change" ->
     (is_Some (tracking_number event) -> is_Some (timestamp event) ->
      is_Some (speed event) ->
      _determine_compliance event expected = "compliant")
     /\ (is_Some (timestamp event) ->
         tracking_number event = None \/ speed event = None ->
         _determine_compliance event expected = "partial")
     /\ (timestamp event = None ->
         _determine_compliance event expected = "non-compliant"))
  /\ (event_type event = "contact_detection" ->
     (is_Some (tracking_number event) -> is_Some (timestamp event) ->
      _determine_compliance event expected = "compliant")
     /\ (tracking_number event = None \/ timestamp event = None ->
         _determine_compliance event expected = "non-compliant"))
  /\ (event_type event <> "speed_change" ->
      event_type event <> "contact_detection" ->
      _determine_compliance event expected = "unclear").
Proof.
  unfold _determine_compliance.
  split; [| split].
  - intros ->. simpl. repeat split.
    + intros [? ->] [? ->] [? ->]. reflexivity.
    + intros [? ->] [-> | ->]; simpl; [reflexivity |].
      destruct (tracking_number event); reflexivity.
    + intros ->. simpl. rewrite andb_false_r. reflexivity.
  - intros ->. simpl. split.
    + intros [? ->] [? ->]. reflexivity.
    + intros [-> | ->]; simpl; [reflexivity |].
      rewrite andb_false_r. reflexivity.
  - intros H1 H2.
    apply String.eqb_neq in H1, H2. rewrite H1, H2. reflexivity.
Qed.

Lemma determine_compliance_rules_witness :
  _determine_compliance speed_change_without_tracking "" = "partial".
Proof.
  apply (determine_compliance_rules speed_change_without_tracking "").
  - reflexivity.
  - by eexists.
  - left. reflexivity.
Defined.

(** The four statuses are the only values of the classifier. *)
Lemma determine_compliance_range (event : MissionEvent) (expected : string) :
  _determine_compliance event expected ∈
    ["compliant"; "partial"; "non-compliant"; "unclear"].
Proof.
  unfold _determine_compliance.
  repeat match goal with |- context [if ?b then _ else _] => destruct b end;
    set_solver.
Qed.

Section ValidatedEvents.
Context {RT : PyRuntime}.

(** The validating constructor always sets the timestamp. *)
Lemma MissionEvent_new_timestamp ts ty desc tn sp co la lo md event :
  MissionEvent_new ts ty desc tn sp co la lo md = Ok event ->
  is_Some (timestamp event).
Proof.
  unfold MissionEvent_new. intros H.
  repeat match type of H with
         | match ?x with _ => _ end = _ => destruct x; try discriminate
         end.
  injection H as <-. simpl. by eexists.
Qed.

(** C9: a MissionEvent that its constructor returned has a timestamp, so a
    speed change among such events is classified compliant or partial,
    never non-compliant. *)
Theorem speed_change_never_non_compliant
    ts ty desc tn sp co la lo md event expected :
  MissionEvent_new ts ty desc tn sp co la lo md = Ok event ->
  event_type event = "speed_change" ->
  _determine_compliance event expected <> "non-compliant"
  /\ (_determine_compliance event expected = "compliant"
      \/ _determine_compliance event expected = "partial").
Proof.
  intros Hnew Hty.
  destruct (MissionEvent_new_timestamp _ _ _ _ _ _ _ _ _ _ Hnew) as [d Hd].
  unfold _determine_compliance. rewrite Hty, Hd. simpl.
  destruct (is_not_None (tracking_number event) && true
            && is_not_None (speed event)); split;
    first [discriminate | by left | by right].
Qed.

(** The parser builds its events with that constructor, so the events of
    a parsed mission log all carry a timestamp. *)
Lemma parse_event_event_ok event_data event :
  parse_event event_data = Ok event -> event_ok event.
Proof.
  destruct event_data; try done. simpl.
  destruct (dict_getitem m "timestamp") as [v |]; [| done]. simpl.
  destruct (parse_timestamp v) as [ts |]; [| done]. simpl.
  apply MissionEvent_new_timestamp.
Qed.

Lemma parse_events_ok xs evs :
  parse_events xs = Ok evs -> Forall event_ok evs.
Proof.
  revert evs. induction xs as [| x xs IH]; simpl; intros evs.
  - intros [= <-]. constructor.
  - destruct (parse_event x) as [e |] eqn:He; [| done]. simpl.
    destruct (parse_events xs) as [es |]; [| done]. simpl.
    intros [= <-]. constructor; [by eapply parse_event_event_ok | by apply IH].
Qed.

Lemma parse_json_data_events_ok data log :
  parse_json_data data = Ok log -> Forall event_ok (events log).
Proof.
  destruct data; try done. simpl.
  destruct (iterate _) as [xs |]; [| done]. simpl.
  destruct (parse_events xs) as [evs |] eqn:Hevs; [| done]. simpl.
  destruct (dict_getitem m "start_time") as [sv |]; [| done]. simpl.
  destruct (parse_timestamp sv) as [st |]; [| done]. simpl.
  destruct (if dict_contains m "end_time" then _ else _) as [en |]; [| done].
  simpl.
  repeat match goal with
         | |- match ?x with _ => _ end = _ -> _ => destruct x; try done
         end.
  intros [= <-]. simpl. by eapply parse_events_ok.
Qed.

End ValidatedEvents.

Lemma speed_change_never_non_compliant_witness :
  _determine_compliance speed_change_without_tracking "" <> "non-compliant"
  /\ (_determine_compliance speed_change_without_tracking "" = "compliant"
      \/ _determine_compliance speed_change_without_tracking "" = "partial").
Proof.
  apply (speed_change_never_non_compliant (RT := Reference.runtime)
           (PDatetime (mk_datetime 2024 11 14 8 15 0 0))
           (PStr "speed_change") (PStr "Increased speed to 15 knots")
           PNone (PFloat 15) PNone PNone PNone (PDict [])).
  - reflexivity.
  - reflexivity.
Defined.

(** ** Stage 1: event extraction *)

(** C3, as worded, fails: the first stage does not reject a mission log
    without events; it returns its two keys, with no current event.  The
    exception the analysis of that log ends with is not raised by this
    stage: it is the division by zero of the summary stage. *)
Lemma analyze_events_node_accepts_empty_log :
  events empty_log = []
  /\ _analyze_events_node (initial_state empty_log)
     = Ok [ set_comparison_results []; set_current_event None ]
  /\ _generate_summary_node (RT := Reference.runtime)
       (mk_AnalysisState empty_log None [] [] "" [] [])
     = Raise ZeroDivisionError
  /\ analyze_mission (RT := Reference.runtime) Sample.rag empty_log []
     = (Raise ZeroDivisionError, []).
Proof. repeat split. Qed.

(** C3, amended: the first stage validates nothing.  For every state,
    whether or not the mission log has events, it returns normally; it
    seeds the comparison list as empty, records the first event (none for a
    log without events) as the current one, and leaves the mission log as
    it was. *)
Theorem analyze_events_node_total (st : AnalysisState) :
  exists us,
    _analyze_events_node st = Ok us
    /\ comparison_results (apply_updates st us) = []
    /\ (events (mission_log st) = [] ->
        current_event (apply_updates st us) = None)
    /\ (forall event rest,
          events (mission_log st) = event :: rest ->
          current_event (apply_updates st us) = Some event)
    /\ mission_log (apply_updates st us) = mission_log st
    /\ doctrine_context (apply_updates st us) = doctrine_context st.
Proof.
  eexists. split; [reflexivity |]. simpl.
  split; [reflexivity |].
  split; [by intros -> |].
  split; [by intros event rest -> |].
  split; reflexivity.
Qed.

Lemma analyze_events_node_total_witness :
  exists us,
    _analyze_events_node (initial_state empty_log) = Ok us
    /\ current_event (apply_updates (initial_state empty_log) us) = None.
Proof.
  destruct (analyze_events_node_total (initial_state empty_log))
    as (us & Hrun & _ & Hnone & _).
  exists us. split; [exact Hrun |]. apply Hnone. reflexivity.
Defined.

(** ** Stage 4: summary synthesis *)

Section Summary.
Context {RT : PyRuntime}.

Lemma truediv_pos (a b : nat) :
  0 < b ->
  truediv a b = Ok (PrimFloat.div (float_of_nat a) (float_of_nat b)).
Proof. destruct b; [lia | reflexivity]. Qed.

(** C6 at the empty comparison list: the stage produces no lessons and no
    recommendations, because formatting the summary text divides by the
    number of comparisons before either list is built. *)
Theorem generate_summary_node_empty ml ce ctx text ls rs :
  _generate_summary_node (mk_AnalysisState ml ce ctx [] text ls rs)
  = Raise ZeroDivisionError.
Proof. reflexivity. Qed.

Lemma count_status_pos status cs :
  0 < count_status status cs
  <-> Exists (fun c => compliance_status c = status) cs.
Proof.
  unfold count_status. induction cs as [| c cs IH]; simpl.
  - split; [lia | intros H; inversion H].
  - rewrite filter_cons. rewrite Exists_cons.
    destruct (decide (String.eqb (compliance_status c) status = true)) as [E | E].
    + apply String.eqb_eq in E. simpl. split; [by left | lia].
    + assert (compliance_status c <> status)
        by (intros Heq; apply E; rewrite Heq; apply String.eqb_refl).
      rewrite IH. tauto.
Qed.

Lemma count_status_all status cs :
  count_status status cs = length cs
  <-> Forall (fun c => compliance_status c = status) cs.
Proof.
  induction cs as [| c cs IH]; simpl.
  - split; [constructor | reflexivity].
  - unfold count_status in *. rewrite filter_cons. rewrite Forall_cons.
    destruct (decide (String.eqb (compliance_status c) status = true)) as [E | E].
    + apply String.eqb_eq in E. simpl. rewrite <- IH. split; [| lia].
      intros H. split; [done | lia].
    + assert (compliance_status c <> status)
        by (intros Heq; apply E; rewrite Heq; apply String.eqb_refl).
      pose proof (length_filter
        (fun c => String.eqb (compliance_status c) status = true) cs).
      split; [lia | tauto].
Qed.

Lemma ltb_count_status status cs :
  (0 <? count_status status cs)%nat
  = bool_decide (Exists (fun c => compliance_status c = status) cs).
Proof.
  destruct (0 <? count_status status cs)%nat eqn:E; symmetry.
  - apply bool_decide_eq_true, count_status_pos, Nat.ltb_lt, E.
  - apply bool_decide_eq_false. rewrite <- count_status_pos.
    apply Nat.ltb_ge in E. lia.
Qed.

Lemma eqb_count_status status cs :
  (count_status status cs =? length cs)%nat
  = bool_decide (Forall (fun c => compliance_status c = status) cs).
Proof.
  destruct (count_status status cs =? length cs)%nat eqn:E; symmetry.
  - apply bool_decide_eq_true, count_status_all, Nat.eqb_eq, E.
  - apply bool_decide_eq_false. rewrite <- count_status_all.
    by apply Nat.eqb_neq.
Qed.

(** On a comparison list that is not empty the stage returns its three
    keys, with the lessons and recommendations of [lessons_of] and
    [recommendations_of]. *)
Lemma generate_summary_node_nonempty (st : AnalysisState) :
  comparison_results st <> [] ->
  exists text,
    _generate_summary_node st
    = Ok [ set_summary text;
           set_lessons_learned (lessons_of (comparison_results st));
           set_recommendations (recommendations_of (comparison_results st)) ].
Proof.
  intros Hne. unfold _generate_summary_node.
  set (cs := comparison_results st) in *.
  assert (Hlen : 0 < length cs) by (destruct cs; [done | simpl; lia]).
  unfold summary_compliance_score, summary_text.
  rewrite (truediv_pos _ _ Hlen).
  apply Nat.ltb_lt in Hlen as Hlt. rewrite Hlt. simpl.
  eexists. f_equal. f_equal. f_equal; [| f_equal].
  - f_equal. unfold lessons_of, append_if.
    rewrite !ltb_count_status, eqb_count_status.
    rewrite !bool_decide_decide.
    repeat case_decide; reflexivity.
  - f_equal. unfold recommendations_of.
    rewrite !ltb_count_status, !bool_decide_decide.
    assert (Hor : Exists (fun c => compliance_status c = "non-compliant"
                            \/ compliance_status c = "partial") cs
             <-> Exists (fun c => compliance_status c = "non-compliant") cs
                 \/ Exists (fun c => compliance_status c = "partial") cs).
    { rewrite !Exists_exists. naive_solver. }
    repeat case_decide; simpl; try reflexivity; tauto.
Qed.

(** What the claim says about those two lists, for a comparison list that
    is not empty: a lesson for the non-compliant events exactly when there
    is one, a lesson for the partial events exactly when there is one, the
    single lesson of excellent adherence when all events are compliant, the
    two training recommendations exactly when an event is non-compliant or
    partial, and the debrief recommendation last in every case. *)
Lemma lessons_and_recommendations (cs : list ComparisonResult) :
  (Forall (fun c => compliance_status c = "compliant") cs ->
   lessons_of cs = [lesson_excellent])
  /\ (Exists (fun c => compliance_status c = "non-compliant") cs ->
      head (lessons_of cs)
      = Some (lesson_non_compliant (count_status "non-compliant" cs)))
  /\ (Exists (fun c => compliance_status c = "partial") cs ->
      lesson_partial (count_status "partial" cs) ∈ lessons_of cs)
  /\ (Exists (fun c => compliance_status c = "non-compliant"
                       \/ compliance_status c = "partial") cs ->
      recommendations_of cs = [rec_training; rec_checklist; rec_debriefs])
  /\ (Forall (fun c => compliance_status c <> "non-compliant"
                       /\ compliance_status c <> "partial") cs ->
      recommendations_of cs = [rec_debriefs])
  /\ last (recommendations_of cs) = Some rec_debriefs.
Proof.
  unfold lessons_of, recommendations_of. repeat split.
  - intros Hall.
    assert (~ Exists (fun c => compliance_status c = "non-compliant") cs).
    { rewrite Exists_exists. intros (c & Hin & Hc).
      rewrite Forall_forall in Hall. specialize (Hall c Hin). congruence. }
    assert (~ Exists (fun c => compliance_status c = "partial") cs).
    { rewrite Exists_exists. intros (c & Hin & Hc).
      rewrite Forall_forall in Hall. specialize (Hall c Hin). congruence. }
    repeat case_decide; first [reflexivity | tauto].
  - intros H. case_decide; [reflexivity | tauto].
  - intros H. repeat case_decide; first [tauto | set_solver].
  - intros H. case_decide; [reflexivity | tauto].
  - intros Hall. case_decide as E; [| reflexivity].
    apply Exists_exists in E as (c & Hin & Hc).
    rewrite Forall_forall in Hall. specialize (Hall c Hin). tauto.
  - case_decide; reflexivity.
Qed.

End Summary.

(** ** Stage 2: doctrine retrieval *)

Lemma fresh_docs_ext (E1 E2 : list string) docs :
  (forall s, s ∈ E1 <-> s ∈ E2) ->
  fresh_docs E1 docs = fresh_docs E2 docs.
Proof.
  revert E1 E2. induction docs as [| doc docs IH]; intros E1 E2 HE; simpl.
  - reflexivity.
  - destruct (decide (page_content doc ∈ E1)) as [H1 | H1];
      destruct (decide (page_content doc ∈ E2)) as [H2 | H2];
      try (exfalso; apply HE in H1 || apply HE in H2; tauto).
    + by apply IH.
    + f_equal. apply IH. intros s. rewrite !elem_of_cons, HE. tauto.
Qed.

Lemma unique_loop_fresh docs unique_docs (seen_content : gset string) :
  (forall s, s ∈ seen_content <-> s ∈ page_content <$> unique_docs) ->
  unique_loop docs unique_docs seen_content
  = unique_docs ++ fresh_docs (page_content <$> unique_docs) docs.
Proof.
  revert unique_docs seen_content.
  induction docs as [| doc docs IH]; intros unique_docs seen Hseen; simpl.
  - by rewrite app_nil_r.
  - destruct (decide (page_content doc ∉ seen)) as [Hout | Hin].
    + rewrite decide_False by (rewrite <- Hseen; exact Hout).
      rewrite IH.
      * rewrite <- app_assoc. simpl. f_equal. f_equal.
        apply fresh_docs_ext. intros s. rewrite fmap_app. set_solver.
      * intros s. rewrite fmap_app. set_solver.
    + rewrite decide_True; [by apply IH |].
      apply Hseen. by apply dec_stable.
Qed.

Lemma fresh_docs_sublist E docs : sublist (fresh_docs E docs) docs.
Proof.
  revert E. induction docs as [| doc docs IH]; intros E; simpl.
  - constructor.
  - case_decide.
    + apply sublist_cons, IH.
    + apply sublist_skip, IH.
Qed.

Lemma fresh_docs_not_earlier E docs doc :
  doc ∈ fresh_docs E docs -> page_content doc ∉ E.
Proof.
  revert E. induction docs as [| d docs IH]; intros E; simpl.
  - intros H. by apply elem_of_nil in H.
  - case_decide as Hd.
    + apply IH.
    + rewrite elem_of_cons. intros [-> | Hin]; [done |].
      apply IH in Hin. set_solver.
Qed.

Lemma fresh_docs_NoDup E docs : NoDup (page_content <$> fresh_docs E docs).
Proof.
  revert E. induction docs as [| d docs IH]; intros E; simpl.
  - constructor.
  - case_decide as Hd; [apply IH |].
    rewrite fmap_cons. constructor; [| apply IH].
    intros Hin. apply list_elem_of_fmap in Hin as (d' & Heq & Hin).
    apply fresh_docs_not_earlier in Hin. rewrite Heq in Hin. set_solver.
Qed.

Lemma fresh_docs_first_occurrence E docs doc :
  doc ∈ fresh_docs E docs
  <-> exists i, first_occurrence docs i doc /\ page_content doc ∉ E.
Proof.
  unfold first_occurrence.
  revert E. induction docs as [| d docs IH]; intros E; simpl.
  - split.
    + intros H. by apply elem_of_nil in H.
    + intros (i & [H _] & _). by rewrite lookup_nil in H.
  - case_decide as Hd.
    + rewrite IH. split.
      * intros (i & [Hi Hbefore] & HE). exists (S i). repeat split; try done.
        intros [| j] d' Hj Hd'; simpl in *.
        -- injection Hd' as <-. intros Heq. by rewrite Heq in Hd.
        -- apply (Hbefore j); [lia | done].
      * intros ([| i] & [Hi Hbefore] & HE); simpl in *.
        -- injection Hi as <-. done.
        -- exists i. repeat split; try done.
           intros j d' Hj Hd'. apply (Hbefore (S j)); [lia | done].
    + rewrite elem_of_cons, IH. split.
      * intros [-> | (i & [Hi Hbefore] & HE)].
        -- exists 0. repeat split; try done. intros j d' Hj. lia.
        -- exists (S i). repeat split; simpl; try done.
           ++ intros [| j] d' Hj Hd'; simpl in *.
              ** injection Hd' as <-. set_solver.
              ** apply (Hbefore j); [lia | done].
           ++ set_solver.
      * intros ([| i] & [Hi Hbefore] & HE); simpl in *.
        -- injection Hi as <-. by left.
        -- right. exists i. repeat split; try done.
           ++ intros j d' Hj Hd'. apply (Hbefore (S j)); [lia | done].
           ++ rewrite not_elem_of_cons. split; [| done].
              intros Heq. apply (Hbefore 0 d); [lia | done | done].
Qed.

Lemma fresh_docs_texts docs (s : string) :
  s ∈ page_content <$> docs <-> s ∈ page_content <$> fresh_docs [] docs.
Proof.
  split.
  - intros Hin.
    (* take the first document carrying [s] *)
    induction docs as [| d docs IH] using rev_ind.
    + by apply elem_of_nil in Hin.
    + rewrite fmap_app in Hin. apply elem_of_app in Hin.
      destruct (decide (s ∈ page_content <$> docs)) as [Hbefore | Hnot].
      * apply IH in Hbefore.
        apply list_elem_of_fmap in Hbefore as (d' & -> & Hd').
        apply list_elem_of_fmap. exists d'. split; [done |].
        apply fresh_docs_first_occurrence in Hd' as (i & [Hi Hb] & _).
        apply fresh_docs_first_occurrence. exists i. repeat split.
        -- by apply lookup_app_l_Some.
        -- intros j d'' Hj Hd''. apply (Hb j d''); [done |].
           apply lookup_lt_Some in Hi.
           by rewrite lookup_app_l in Hd'' by lia.
        -- apply not_elem_of_nil.
      * destruct Hin as [Hin | Hin]; [done |].
        simpl in Hin. apply list_elem_of_singleton in Hin as ->.
        apply list_elem_of_fmap. exists d. split; [done |].
        apply fresh_docs_first_occurrence. exists (length docs).
        repeat split.
        -- by rewrite lookup_app_r, Nat.sub_diag by lia.
        -- intros j d' Hj Hd'. rewrite lookup_app_l in Hd' by lia.
           intros Heq. apply Hnot. rewrite <- Heq.
           apply list_elem_of_fmap. exists d'. split; [done |].
           by eapply list_elem_of_lookup_2.
        -- apply not_elem_of_nil.
  - intros Hin. apply list_elem_of_fmap in Hin as (d & -> & Hd).
    apply list_elem_of_fmap. exists d. split; [done |].
    eapply elem_of_sublist; [exact Hd | apply fresh_docs_sublist].
Qed.

Lemma search_each_indexed self vs descs all_doctrine_docs (t : trace) :
  vector_store self = Some vs ->
  search_each self descs all_doctrine_docs t
  = (Ok (all_doctrine_docs
         ++ concat ((fun q => similarity_search vs q 3) <$> descs)),
     t ++ ((fun q => (q, 3)) <$> descs)).
Proof.
  intros Hvs. revert all_doctrine_docs t.
  induction descs as [| desc descs IH]; intros acc t; simpl.
  - by rewrite !app_nil_r.
  - unfold mbind, Eff_bind, search. rewrite Hvs.
    rewrite IH. by rewrite <- !app_assoc.
Qed.

Lemma index_doctrines_indexed env self force_reindex vs self' :
  index_doctrines env self force_reindex = (Ok vs, self') ->
  vector_store self' = Some vs.
Proof.
  unfold index_doctrines.
  assert (Hrebuild :
    match load_all_doctrines env with
    | Raise e => (Raise e, self)
    | Ok documents =>
        match create_vector_store env documents with
        | Raise e => (Raise e, self)
        | Ok vs =>
            let self' := mk_DoctrineIndexer (Some vs) in
            match (if truthy documents then save_local env vs else Ok tt) with
            | Raise e => (Raise e, self')
            | Ok _ => (Ok vs, self')
            end
        end
    end = (Ok vs, self') ->
    vector_store self' = Some vs).
  { destruct (load_all_doctrines env) as [documents |]; [| done].
    destruct (create_vector_store env documents) as [vs' |]; [| done].
    simpl.
    destruct (if truthy documents then save_local env vs' else Ok tt);
      [| done].
    by intros [= <- <-]. }
  destruct (index_path_exists env && negb force_reindex); [| exact Hrebuild].
  destruct (load_local env) as [vs' |]; [| exact Hrebuild].
  by intros [= <- <-].
Qed.

(** Whatever the call does, it never takes a store away. *)
Lemma index_doctrines_keeps_store env self force_reindex :
  is_Some (vector_store self) ->
  is_Some (vector_store (snd (index_doctrines env self force_reindex))).
Proof.
  intros Hsome. unfold index_doctrines.
  repeat match goal with
         | |- context [match ?x with _ => _ end] => destruct x
         | |- context [if ?b then _ else _] => destruct b
         end; simpl; first [exact Hsome | by eexists].
Qed.

Lemma MissionAnalysisRAG_init_indexed env self :
  MissionAnalysisRAG_init env = Ok self ->
  exists vs, vector_store (doctrine_indexer self) = Some vs.
Proof.
  unfold MissionAnalysisRAG_init.
  destruct (index_doctrines env DoctrineIndexer_init false)
    as [[vs | e] idx] eqn:E; [| done].
  intros [= <-]. simpl. exists vs. by eapply index_doctrines_indexed.
Qed.

Lemma once_in_NoDup (docs : list Document) (s : string) :
  NoDup (page_content <$> docs) ->
  s ∈ page_content <$> docs ->
  length (filter (fun doc => page_content doc = s) docs) = 1.
Proof.
  induction docs as [| d docs IH]; simpl.
  - intros _ H. by apply elem_of_nil in H.
  - rewrite NoDup_cons, elem_of_cons, filter_cons.
    intros [Hd Hnodup] Hin. case_decide as Heq.
    + simpl. f_equal. subst s.
      assert (Hnone : forall d', d' ∈ docs -> page_content d' <> page_content d).
      { intros d' Hd' Heq. apply Hd. rewrite <- Heq.
        by apply list_elem_of_fmap_2. }
      clear -Hnone. induction docs as [| d' docs IH]; [done |].
      rewrite filter_cons. rewrite decide_False by (apply Hnone; set_solver).
      apply IH. intros d'' Hin. apply Hnone. set_solver.
    + destruct Hin as [-> | Hin]; [done |]. by apply IH.
Qed.

Lemma retrieve_doctrine_node_indexed self vs (st : AnalysisState) (t : trace) :
  vector_store (doctrine_indexer self) = Some vs ->
  _retrieve_doctrine_node self st t
  = (Ok [ set_doctrine_context
            (fresh_docs []
               (concat ((fun e => similarity_search vs (event_query e) 3)
                          <$> take 5 (events (mission_log st))))) ],
     t ++ ((fun e => (event_query e, 3)) <$> take 5 (events (mission_log st)))).
Proof.
  intros Hvs. unfold _retrieve_doctrine_node, mbind, Eff_bind.
  rewrite (search_each_indexed _ vs) by exact Hvs. simpl.
  rewrite unique_loop_fresh by set_solver. simpl.
  by rewrite <- !fmap_take, <- !list_fmap_compose.
Qed.

(** The kept documents are those at the first-occurrence positions, taken
    in increasing position. *)
Lemma fresh_docs_positions E docs :
  exists positions,
    StronglySorted lt positions
    /\ Forall2 (fun i doc => first_occurrence docs i doc
                              /\ page_content doc ∉ E)
         positions (fresh_docs E docs)
    /\ forall i doc, first_occurrence docs i doc -> page_content doc ∉ E ->
                     i ∈ positions.
Proof.
  unfold first_occurrence.
  revert E. induction docs as [| d docs IH]; intros E; simpl.
  - exists []. split; [constructor |]. split; [constructor |].
    intros i doc [Hi _]. by rewrite lookup_nil in Hi.
  - case_decide as Hd.
    + destruct (IH E) as (positions & Hsorted & Hkept & Hall).
      exists (S <$> positions). split; [| split].
      * eapply StronglySorted_fmap; [| exact Hsorted]. intros x y. lia.
      * apply Forall2_fmap_l. eapply Forall2_impl; [exact Hkept |].
        intros i doc [[Hi Hbefore] HE]. simpl. repeat split; try done.
        intros [| j] d' Hj Hd'; simpl in Hd'.
        -- injection Hd' as <-. intros Heq. apply HE. by rewrite <- Heq.
        -- apply (Hbefore j); [lia | done].
      * intros [| i] doc [Hi Hbefore] HE; simpl in Hi.
        -- injection Hi as <-. done.
        -- apply list_elem_of_fmap. exists i. split; [done |].
           apply (Hall i doc); [| done]. split; [done |].
           intros j d' Hj Hd'. apply (Hbefore (S j)); [lia | done].
    + destruct (IH (page_content d :: E)) as (positions & Hsorted & Hkept & Hall).
      exists (0 :: (S <$> positions)). split; [| split].
      * constructor.
        -- eapply StronglySorted_fmap; [| exact Hsorted]. intros x y. lia.
        -- apply Forall_fmap, Forall_forall. intros x _. simpl. lia.
      * constructor.
        -- repeat split; try done. intros j d' Hj. lia.
        -- apply Forall2_fmap_l. eapply Forall2_impl; [exact Hkept |].
           intros i doc [[Hi Hbefore] HE]. simpl.
           apply not_elem_of_cons in HE as [Hne HE].
           repeat split; try done.
           intros [| j] d' Hj Hd'; simpl in Hd'.
           ++ injection Hd' as <-. by intros Heq.
           ++ apply (Hbefore j); [lia | done].
      * intros [| i] doc [Hi Hbefore] HE; simpl in Hi.
        -- left.
        -- right. apply list_elem_of_fmap. exists i. split; [done |].
           apply (Hall i doc).
           ++ split; [done |].
              intros j d' Hj Hd'. apply (Hbefore (S j)); [lia | done].
           ++ apply not_elem_of_cons. split; [| done].
              intros Heq. by apply (Hbefore 0 d); [lia | |].
Qed.

(** First-seen order determines the list: two lists in first-seen order
    of the same documents are equal, also when a document recurs. *)
Lemma first_seen_order_unique docs ctx1 ctx2 :
  first_seen_order docs ctx1 -> first_seen_order docs ctx2 -> ctx1 = ctx2.
Proof.
  intros (ps1 & Hs1 & Hk1 & Hall1) (ps2 & Hs2 & Hk2 & Hall2).
  assert (Hnodup : forall ps, StronglySorted lt ps -> NoDup ps).
  { induction 1 as [| p ps _ IH Hlt]; constructor; [| done].
    intros Hin. rewrite Forall_forall in Hlt. specialize (Hlt p Hin). lia. }
  assert (Hsome : forall ps ctx i,
            Forall2 (first_occurrence docs) ps ctx -> i ∈ ps ->
            exists doc, first_occurrence docs i doc).
  { intros ps ctx i Hk Hin. induction Hk as [| p doc ps ctx Hp _ IH].
    - by apply elem_of_nil in Hin.
    - apply elem_of_cons in Hin as [-> | Hin]; [by exists doc | by apply IH]. }
  assert (ps1 = ps2) as ->.
  { assert (Hanti : AntiSymm eq lt) by (intros x y Hxy Hyx; lia).
    apply (StronglySorted_unique lt); [done | done |].
    apply NoDup_Permutation; [by apply Hnodup | by apply Hnodup |].
    intros i. split; intros Hin.
    - destruct (Hsome _ _ _ Hk1 Hin) as [doc Hdoc]. by eapply Hall2.
    - destruct (Hsome _ _ _ Hk2 Hin) as [doc Hdoc]. by eapply Hall1. }
  clear -Hk1 Hk2. revert ctx2 Hk2.
  induction Hk1 as [| p doc ps ctx [Hp _] _ IH]; intros ctx2 Hk2;
    inversion Hk2 as [| ? doc' ? ctx' [Hp' _] Hrest]; subst; [done |].
  f_equal; [congruence | by apply IH].
Qed.

(** C4: on a pipeline object that its constructor returned, the retrieval
    stage queries the store once for each of the first five events at most,
    in log order, with the text "<event_type>: <description>" and k = 3,
    and nothing else; the doctrine context it returns is the concatenation
    of the answers with every chunk text kept exactly once, at its first
    occurrence, in the order of the concatenation: it lists, by increasing
    position, the documents that stand in the concatenation at a position
    where their text occurs for the first time, and no other. *)
Theorem retrieve_doctrine_node_spec env self (st : AnalysisState) (t : trace) :
  MissionAnalysisRAG_init env = Ok self ->
  exists vs ctx,
    vector_store (doctrine_indexer self) = Some vs
    /\ _retrieve_doctrine_node self st t
       = (Ok [ set_doctrine_context ctx ],
          t ++ ((fun e => (event_type e +:+ ": " +:+ description e, 3))
                  <$> take 5 (events (mission_log st))))
    /\ sublist ctx
         (concat ((fun e => similarity_search vs (event_query e) 3)
                    <$> take 5 (events (mission_log st))))
    /\ NoDup (page_content <$> ctx)
    /\ (forall doc, doc ∈ ctx <->
          exists i, first_occurrence
            (concat ((fun e => similarity_search vs (event_query e) 3)
                       <$> take 5 (events (mission_log st)))) i doc)
    /\ (forall s, s ∈ page_content <$> ctx <->
          s ∈ page_content <$>
            concat ((fun e => similarity_search vs (event_query e) 3)
                      <$> take 5 (events (mission_log st))))
    /\ (forall s,
          s ∈ page_content <$>
            concat ((fun e => similarity_search vs (event_query e) 3)
                      <$> take 5 (events (mission_log st))) ->
          length (filter (fun doc => page_content doc = s) ctx) = 1)
    /\ first_seen_order
         (concat ((fun e => similarity_search vs (event_query e) 3)
                    <$> take 5 (events (mission_log st))))
         ctx.
Proof.
  intros Hinit.
  destruct (MissionAnalysisRAG_init_indexed _ _ Hinit) as [vs Hvs].
  exists vs. eexists. split; [exact Hvs |].
  rewrite (retrieve_doctrine_node_indexed _ vs) by exact Hvs.
  split; [reflexivity |].
  split; [apply fresh_docs_sublist |].
  split; [apply fresh_docs_NoDup |].
  split.
  - intros doc. rewrite fresh_docs_first_occurrence.
    split; [intros (i & H & _); by exists i |].
    intros (i & H). exists i. split; [done | apply not_elem_of_nil].
  - split; [| split].
    + intros s. symmetry. apply fresh_docs_texts.
    + intros s Hin. apply once_in_NoDup; [apply fresh_docs_NoDup |].
      apply (proj1 (fresh_docs_texts _ s)). exact Hin.
    + unfold first_seen_order.
      match goal with
      | |- context [fresh_docs [] ?docs] =>
          destruct (fresh_docs_positions [] docs)
            as (positions & Hsorted & Hkept & Hall)
      end.
      exists positions. split; [exact Hsorted |]. split.
      * eapply Forall2_impl; [exact Hkept |]. by intros i doc [H _].
      * intros i doc H. apply (Hall i doc H), not_elem_of_nil.
Qed.

Lemma retrieve_doctrine_node_spec_witness :
  exists vs ctx,
    vector_store (doctrine_indexer Sample.rag) = Some vs
    /\ _retrieve_doctrine_node Sample.rag (initial_state Sample.mission_log) []
       = (Ok [ set_doctrine_context ctx ],
          [] ++ ((fun e => (event_type e +:+ ": " +:+ description e, 3))
                  <$> take 5 (events (mission_log
                                        (initial_state Sample.mission_log)))))
    /\ sublist ctx
         (concat ((fun e => similarity_search vs (event_query e) 3)
                    <$> take 5 (events (mission_log
                                         (initial_state Sample.mission_log)))))
    /\ NoDup (page_content <$> ctx)
    /\ (forall doc, doc ∈ ctx <->
          exists i, first_occurrence
            (concat ((fun e => similarity_search vs (event_query e) 3)
                       <$> take 5 (events (mission_log
                                            (initial_state Sample.mission_log)))))
            i doc)
    /\ (forall s, s ∈ page_content <$> ctx <->
          s ∈ page_content <$>
            concat ((fun e => similarity_search vs (event_query e) 3)
                      <$> take 5 (events (mission_log
                                           (initial_state Sample.mission_log)))))
    /\ (forall s,
          s ∈ page_content <$>
            concat ((fun e => similarity_search vs (event_query e) 3)
                      <$> take 5 (events (mission_log
                                           (initial_state Sample.mission_log)))) ->
          length (filter (fun doc => page_content doc = s) ctx) = 1)
    /\ first_seen_order
         (concat ((fun e => similarity_search vs (event_query e) 3)
                    <$> take 5 (events (mission_log
                                         (initial_state Sample.mission_log)))))
         ctx.
Proof.
  apply (retrieve_doctrine_node_spec Sample.env Sample.rag
           (initial_state Sample.mission_log) []).
  reflexivity.
Defined.

(** On the sample mission the five queries return fifteen chunks, four of
    them distinct; the context lists those four in first-seen order. *)
Example retrieve_doctrine_node_sample :
  _retrieve_doctrine_node Sample.rag (initial_state Sample.mission_log) []
  = (Ok [ set_doctrine_context
            [ Sample.contact_chunk; Sample.course_chunk; Sample.speed_chunk;
              Sample.debrief_chunk ] ],
     [ ("mission_start: Mission commenced", 3);
       ("speed_change: Increased speed to 15 knots", 3);
       ("contact_detection: Surface contact detected bearing 045", 3);
       ("course_change: Changed course to 120 degrees", 3);
       ("speed_change: Reduced speed to 5 knots for man overboard drill", 3) ]).
Proof. vm_compute. reflexivity. Qed.

(** A chunk that comes back a second time, as the same document, is kept
    where it was first seen: of A, B, A the context is A, B and not B, A. *)
Example first_seen_order_recurring :
  first_seen_order [Sample.speed_chunk; Sample.course_chunk; Sample.speed_chunk]
    [Sample.speed_chunk; Sample.course_chunk]
  /\ ~ first_seen_order
        [Sample.speed_chunk; Sample.course_chunk; Sample.speed_chunk]
        [Sample.course_chunk; Sample.speed_chunk].
Proof.
  assert (Hfirst : first_seen_order
            [Sample.speed_chunk; Sample.course_chunk; Sample.speed_chunk]
            [Sample.speed_chunk; Sample.course_chunk]).
  { destruct (fresh_docs_positions []
                [Sample.speed_chunk; Sample.course_chunk; Sample.speed_chunk])
      as (positions & Hsorted & Hkept & Hall).
    exists positions. split; [exact Hsorted |]. split.
    - eapply Forall2_impl; [exact Hkept |]. by intros i doc [H _].
    - intros i doc H. apply (Hall i doc H), not_elem_of_nil. }
  split; [exact Hfirst |].
  intros Hother.
  pose proof (first_seen_order_unique _ _ _ Hfirst Hother) as Heq.
  discriminate Heq.
Qed.

(** ** Stage 3: compliance evaluation *)

Section Evaluation.
Context {RT : PyRuntime}.

Lemma doctrine_ref_of_ok doc :
  doc_ok doc ->
  exists r, doctrine_ref_of doc = Ok r
    /\ context r = page_content doc
    /\ requirement r = substring 0 200 (page_content doc)
    /\ section r = "General".
Proof.
  unfold doc_ok, doctrine_ref_of, DoctrineReference_new.
  destruct (doc_metadata doc !! "source_file") as [v |]; simpl.
  - intros [s ->]. eexists. split; [reflexivity |]. done.
  - intros _. eexists. split; [reflexivity |]. done.
Qed.

Lemma doctrine_refs_of_ok docs :
  Forall doc_ok docs ->
  exists refs, doctrine_refs_of docs = Ok refs
    /\ Forall2 (fun doc r =>
                  context r = page_content doc
                  /\ requirement r = substring 0 200 (page_content doc)
                  /\ section r = "General") docs refs.
Proof.
  induction 1 as [| doc docs Hdoc _ IH]; simpl.
  - exists []. split; [reflexivity | constructor].
  - destruct (doctrine_ref_of_ok doc Hdoc) as (r & -> & Hr).
    destruct IH as (refs & -> & Hrefs).
    exists (r :: refs). split; [reflexivity | by constructor].
Qed.

Lemma analyze_event_against_doctrine_ok event doctrine_text docs refs :
  event_ok event ->
  doctrine_refs_of (take 2 docs) = Ok refs ->
  exists c,
    _analyze_event_against_doctrine event doctrine_text docs = Ok (Some c)
    /\ matches doctrine_text refs event c.
Proof.
  intros [ts Hts] Hrefs. unfold _analyze_event_against_doctrine.
  rewrite Hrefs. simpl. rewrite Hts. simpl.
  eexists. split; [reflexivity |]. by repeat split.
Qed.

Lemma compare_loop_ok evs doctrine_text docs refs acc :
  Forall event_ok evs ->
  doctrine_refs_of (take 2 docs) = Ok refs ->
  exists cs,
    compare_loop evs doctrine_text docs acc = Ok (acc ++ cs)
    /\ Forall2 (matches doctrine_text refs) evs cs.
Proof.
  intros Hevs Hrefs. revert acc.
  induction Hevs as [| event evs Hev _ IH]; intros acc; simpl.
  - exists []. split; [by rewrite app_nil_r | constructor].
  - destruct (analyze_event_against_doctrine_ok event doctrine_text docs refs
                Hev Hrefs) as (c & -> & Hc).
    simpl. destruct (IH (acc ++ [c])) as (cs & -> & Hcs).
    exists (c :: cs). split; [by rewrite <- app_assoc | by constructor].
Qed.

(** C5: for a mission log of constructed events and a doctrine context
    whose first two documents pass validation, the evaluation stage returns
    one comparison per event of the log, all of them and in log order, each
    built from its event and each carrying the same references: those of
    the first two documents of the context, in the context's order. *)
Theorem compare_actions_node_spec (st : AnalysisState) :
  Forall event_ok (events (mission_log st)) ->
  Forall doc_ok (take 2 (doctrine_context st)) ->
  exists cs refs doctrine_text,
    _compare_actions_node st = Ok [ set_comparison_results cs ]
    /\ length cs = length (events (mission_log st))
    /\ Forall2 (matches doctrine_text refs) (events (mission_log st)) cs
    /\ length refs <= 2
    /\ Forall2 (fun doc r =>
                  context r = page_content doc
                  /\ requirement r = substring 0 200 (page_content doc)
                  /\ section r = "General")
         (take 2 (doctrine_context st)) refs.
Proof.
  intros Hevs Hdocs.
  destruct (doctrine_refs_of_ok _ Hdocs) as (refs & Hrefs & Hshape).
  unfold _compare_actions_node.
  set (doctrine_text := join _ _).
  destruct (compare_loop_ok _ doctrine_text _ refs [] Hevs Hrefs)
    as (cs & -> & Hcs).
  exists cs, refs, doctrine_text. simpl.
  split; [reflexivity |].
  split; [symmetry; by eapply Forall2_length |].
  split; [exact Hcs |].
  split; [| exact Hshape].
  apply Forall2_length in Hshape. rewrite <- Hshape, length_take. lia.
Qed.

End Evaluation.

(** ** The pipeline *)

Section PipelineProperties.
Context {RT : PyRuntime}.

Lemma compare_actions_node_returns (st : AnalysisState) :
  Forall event_ok (events (mission_log st)) ->
  Forall doc_ok (take 2 (doctrine_context st)) ->
  exists cs,
    _compare_actions_node st = Ok [ set_comparison_results cs ]
    /\ length cs = length (events (mission_log st)).
Proof.
  intros Hevs Hdocs.
  destruct (doctrine_refs_of_ok _ Hdocs) as (refs & Hrefs & _).
  unfold _compare_actions_node.
  set (doctrine_text := join _ _).
  destruct (compare_loop_ok _ doctrine_text _ refs [] Hevs Hrefs)
    as (cs & -> & Hcs).
  exists cs. split; [reflexivity |].
  symmetry. by eapply Forall2_length.
Qed.

Lemma overall_score_percentage cs :
  overall_score cs = Ok (compliance_percentage cs).
Proof. destruct cs; reflexivity. Qed.

Lemma summary_compliance_score_percentage cs :
  cs <> [] ->
  summary_compliance_score (count_status "compliant" cs) (length cs)
  = Ok (NFloat (compliance_percentage cs)).
Proof. destruct cs; [done | reflexivity]. Qed.

Lemma retrieve_doctrine_node_shape self st t us t' :
  _retrieve_doctrine_node self st t = (Ok us, t') ->
  exists ctx, us = [ set_doctrine_context ctx ].
Proof.
  unfold _retrieve_doctrine_node, mbind, Eff_bind.
  destruct (search_each _ _ _ t) as [[docs | e] t1]; [| done].
  intros [= <- _]. by eexists.
Qed.

Lemma compare_actions_node_shape st us :
  _compare_actions_node st = Ok us ->
  exists cs,
    us = [ set_comparison_results cs ]
    /\ (events (mission_log st) <> [] -> cs <> []).
Proof.
  unfold _compare_actions_node.
  set (text := join _ _).
  destruct (compare_loop _ _ _ _) as [cs |] eqn:E; [| done].
  simpl. intros [= <-]. exists cs. split; [done |].
  intros Hne.
  assert (Hgrow : forall evs acc cs',
            compare_loop evs text (doctrine_context st) acc = Ok cs' ->
            length acc + length evs = length cs').
  { clear. induction evs as [| ev evs IH]; intros acc cs' H; simpl in *.
    - injection H as <-. lia.
    - unfold _analyze_event_against_doctrine in H.
      destruct (doctrine_refs_of _) as [refs |]; [| done]. simpl in H.
      destruct (ComparisonResult_new _ _ _ _ _ _ _ _) as [c |]; [| done].
      simpl in H. apply IH in H. rewrite length_app in H. simpl in H. lia. }
  apply Hgrow in E. simpl in E.
  destruct (events (mission_log st)); [done |]. destruct cs; [| done].
  simpl in E. lia.
Qed.

Lemma generate_summary_node_shape st us :
  _generate_summary_node st = Ok us ->
  exists sc text ls rs,
    us = [ set_summary text; set_lessons_learned ls; set_recommendations rs ]
    /\ comparison_results st <> []
    /\ summary_compliance_score
         (count_status "compliant" (comparison_results st))
         (length (comparison_results st)) = Ok sc
    /\ summary_text (mission_log st) (length (comparison_results st))
         (count_status "compliant" (comparison_results st))
         (count_status "partial" (comparison_results st))
         (count_status "non-compliant" (comparison_results st)) sc = Ok text.
Proof.
  destruct (comparison_results st) as [| c cs] eqn:Hcs.
  - destruct st. simpl in Hcs. subst. intros H. discriminate H.
  - unfold _generate_summary_node. rewrite Hcs. cbv zeta.
    destruct (summary_compliance_score _ _) as [sc |] eqn:Esc; [| done].
    unfold mbind at 1, result_bind at 1.
    match goal with
    | |- context [summary_text ?a ?b ?c ?d ?e ?f] =>
        destruct (summary_text a b c d e f) as [text |] eqn:Etext; [| done]
    end.
    unfold mbind, result_bind.
    intros [= <-]. exists sc, text. eexists _, _.
    split; [reflexivity |]. split; [done |]. split; [reflexivity |].
    exact Etext.
Qed.

(** The walk visits the four stages once each, in the order
    analyze_events, retrieve_doctrine, compare_actions, generate_summary,
    and stops there with steps to spare. *)
Lemma graph_invoke_sequence self (st0 : AnalysisState) :
  graph_invoke self st0
  = (st1 ← run_node (fun st => lift (_analyze_events_node st)) st0;
     st2 ← run_node (_retrieve_doctrine_node self) st1;
     st3 ← run_node (fun st => lift (_compare_actions_node st)) st2;
     st4 ← run_node (fun st => lift (_generate_summary_node st)) st3;
     mret st4).
Proof. reflexivity. Qed.

(** What a completed run of the graph went through. *)
Lemma graph_invoke_inv self ml t st t' :
  graph_invoke self (initial_state ml) t = (Ok st, t') ->
  exists ctx cs sc,
    _retrieve_doctrine_node self
      (mk_AnalysisState ml (head (events ml)) [] [] "" [] []) t
    = (Ok [ set_doctrine_context ctx ], t')
    /\ _compare_actions_node
         (mk_AnalysisState ml (head (events ml)) ctx [] "" [] [])
       = Ok [ set_comparison_results cs ]
    /\ cs <> []
    /\ summary_compliance_score (count_status "compliant" cs) (length cs)
       = Ok sc
    /\ summary_text ml (length cs) (count_status "compliant" cs)
         (count_status "partial" cs) (count_status "non-compliant" cs) sc
       = Ok (summary st)
    /\ mission_log st = ml
    /\ doctrine_context st = ctx
    /\ comparison_results st = cs.
Proof.
  rewrite graph_invoke_sequence.
  unfold run_node, mbind, Eff_bind, lift, mret, Eff_ret.
  simpl.
  destruct (_retrieve_doctrine_node _ _ t) as [[us2 | e] t2] eqn:E2; [| done].
  destruct (retrieve_doctrine_node_shape _ _ _ _ _ E2) as [ctx ->]. simpl.
  destruct (_compare_actions_node _) as [us3 |] eqn:E3; [| done].
  destruct (compare_actions_node_shape _ _ E3) as (cs & -> & _). simpl.
  destruct (_generate_summary_node _) as [us4 |] eqn:E4; [| done].
  destruct (generate_summary_node_shape _ _ E4)
    as (sc & text & ls & rs & -> & Hne & Hsc & Htext).
  simpl in *. intros [= <- <-].
  exists ctx, cs, sc. simpl. by repeat split.
Qed.

Lemma count_status_spec status cs :
  count_status status cs = status_count status cs.
Proof.
  unfold count_status, status_count.
  induction cs as [| c cs IH]; [done |].
  rewrite !filter_cons.
  destruct (decide (String.eqb (compliance_status c) status = true)) as [E | E];
    destruct (decide (compliance_status c = status)) as [E' | E'];
    simpl; try (by rewrite IH).
  - by apply String.eqb_eq in E.
  - exfalso. apply E. rewrite E'. apply String.eqb_refl.
Qed.

Lemma status_count_le status cs : status_count status cs <= length cs.
Proof. unfold status_count. apply length_filter. Qed.

(** The conversion of a count to a float is the IEEE one. *)
Lemma float_of_nat_spec (n : nat) :
  (Z.of_nat n < 2 ^ 63)%Z ->
  Prim2SF (float_of_nat n) = binary64_of_nat n.
Proof.
  intros Hn. unfold float_of_nat, binary64_of_nat.
  rewrite of_uint63_spec, Uint63.of_Z_spec, Z.mod_small; [done |].
  split; [lia | exact Hn].
Qed.

Lemma compliance_percentage_law cs :
  (Z.of_nat (length cs) < 2 ^ 63)%Z ->
  Prim2SF (compliance_percentage cs) = score_law cs.
Proof.
  intros Hlen. destruct cs as [| c cs]; [reflexivity |].
  unfold compliance_percentage, score_law.
  rewrite FloatAxioms.mul_spec, FloatAxioms.div_spec.
  pose proof (status_count_le "compliant" (c :: cs)) as Hle.
  rewrite !float_of_nat_spec, count_status_spec;
    [reflexivity | exact Hlen | rewrite count_status_spec; lia].
Qed.

(** C2: the score of an analysis is the number of its compliant
    comparisons divided by the number of its comparisons, times 100, in
    binary64 arithmetic as Python's floats have it.  analyze_mission
    computes it from the final comparison list, and the summary stage
    computed the same value from the same list and put it into the
    summary text; on an empty list both computations give zero.  The
    bound on the length is the one below which the model's conversion of a
    count to a float is Python's. *)
Theorem overall_compliance_score_law :
  (forall cs,
     (Z.of_nat (length cs) < 2 ^ 63)%Z ->
     exists score,
       overall_score cs = Ok score /\ Prim2SF score = score_law cs)
  /\ (forall cs,
        cs <> [] ->
        (Z.of_nat (length cs) < 2 ^ 63)%Z ->
        exists score,
          summary_compliance_score (count_status "compliant" cs) (length cs)
          = Ok (NFloat score)
          /\ Prim2SF score = score_law cs)
  /\ overall_score [] = Ok 0%float
  /\ summary_compliance_score (count_status "compliant" [])
       (length ([] : list ComparisonResult))
     = Ok (NInt 0)
  /\ (forall self ml t analysis t',
        analyze_mission self ml t = (Ok analysis, t') ->
        (Z.of_nat (length (comparisons analysis)) < 2 ^ 63)%Z ->
        exists score,
          overall_compliance_score analysis = Some score
          /\ Prim2SF score = score_law (comparisons analysis)
          /\ summary_text ml (length (comparisons analysis))
               (status_count "compliant" (comparisons analysis))
               (status_count "partial" (comparisons analysis))
               (status_count "non-compliant" (comparisons analysis))
               (NFloat score)
             = Ok (ma_summary analysis)).
Proof.
  split.
  { intros cs Hlen. exists (compliance_percentage cs).
    split; [apply overall_score_percentage |].
    by apply compliance_percentage_law. }
  split.
  { intros cs Hne Hlen. exists (compliance_percentage cs).
    split; [by apply summary_compliance_score_percentage |].
    by apply compliance_percentage_law. }
  split; [reflexivity |]. split; [reflexivity |].
  intros self ml t analysis t'.
  unfold analyze_mission, mbind, Eff_bind.
  destruct (graph_invoke _ _ t) as [[st | e] t1] eqn:E; [| done].
  destruct (graph_invoke_inv _ _ _ _ _ E)
    as (ctx & cs & sc & _ & _ & Hne & Hsc & Htext & _ & _ & Hcs).
  unfold lift. rewrite overall_score_percentage.
  unfold mret, Eff_ret. intros [= <- _]. simpl.
  rewrite Hcs. intros Hlen.
  exists (compliance_percentage cs).
  split; [reflexivity |].
  split; [by apply compliance_percentage_law |].
  rewrite summary_compliance_score_percentage in Hsc by exact Hne.
  injection Hsc as <-. rewrite <- !count_status_spec. exact Htext.
Qed.

End PipelineProperties.

Lemma compare_actions_node_spec_witness :
  exists cs refs doctrine_text,
    _compare_actions_node (RT := Reference.runtime) Sample.retrieved_state
    = Ok [ set_comparison_results cs ]
    /\ length cs = length (events (mission_log Sample.retrieved_state))
    /\ Forall2 (matches doctrine_text refs)
         (events (mission_log Sample.retrieved_state)) cs
    /\ length refs <= 2
    /\ Forall2 (fun doc r =>
                  context r = page_content doc
                  /\ requirement r = substring 0 200 (page_content doc)
                  /\ section r = "General")
         (take 2 (doctrine_context Sample.retrieved_state)) refs.
Proof.
  apply (compare_actions_node_spec (RT := Reference.runtime)
           Sample.retrieved_state).
  - repeat constructor; by eexists.
  - repeat constructor; vm_compute; by eexists.
Defined.

(** The sample mission has six events and gets six comparisons; each
    carries the first two chunks of the context. *)
Example compare_actions_node_sample :
  match _compare_actions_node (RT := Reference.runtime)
          Sample.retrieved_state with
  | Ok [ set_comparison_results cs ] =>
      compliance_status <$> cs
      = ["unclear"; "compliant"; "compliant"; "unclear"; "compliant";
         "unclear"]
      /\ Forall (fun c => context <$> doctrine_references c
                          = [ page_content Sample.contact_chunk;
                              page_content Sample.course_chunk ]) cs
  | _ => False
  end.
Proof. vm_compute. split; [reflexivity | repeat constructor]. Qed.

Section Runs.
Context {RT : PyRuntime}.

(** A pipeline with an index, a mission log of constructed events that is
    not empty, and a store whose documents pass validation: the analysis
    returns, with one comparison per event. *)
Lemma analyze_mission_returns self vs ml (t : trace) :
  vector_store (doctrine_indexer self) = Some vs ->
  events ml <> [] ->
  Forall event_ok (events ml) ->
  (forall query k doc, doc ∈ similarity_search vs query k -> doc_ok doc) ->
  exists analysis,
    analyze_mission self ml t
    = (Ok analysis,
       t ++ ((fun e => (event_query e, 3)) <$> take 5 (events ml)))
    /\ length (comparisons analysis) = length (events ml).
Proof.
  intros Hvs Hne Hevs Hdocs.
  unfold analyze_mission. rewrite graph_invoke_sequence.
  unfold run_node, mbind, Eff_bind, lift, mret, Eff_ret. simpl.
  rewrite (retrieve_doctrine_node_indexed _ vs) by exact Hvs. simpl.
  set (ctx := fresh_docs [] _).
  set (st2 := mk_AnalysisState ml (head (events ml)) ctx [] "" [] []).
  assert (Hctx : Forall doc_ok (take 2 (doctrine_context st2))).
  { simpl. apply Forall_forall. intros doc Hin.
    apply elem_of_take in Hin as (i & Hi & _).
    apply list_elem_of_lookup_2 in Hi.
    eapply elem_of_sublist in Hi; [| apply fresh_docs_sublist].
    apply list_elem_of_In, in_concat in Hi as (docs & Hin & Hdoc).
    apply list_elem_of_In, list_elem_of_fmap in Hin as (e & -> & _).
    apply list_elem_of_In in Hdoc. by eapply Hdocs. }
  destruct (compare_actions_node_returns st2 Hevs Hctx)
    as (cs & -> & Hlen). simpl.
  set (st3 := mk_AnalysisState ml (head (events ml)) ctx cs "" [] []).
  assert (Hcs : comparison_results st3 <> []).
  { simpl. intros ->. simpl in Hlen. symmetry in Hlen.
    by apply nil_length_inv in Hlen. }
  destruct (generate_summary_node_nonempty st3 Hcs) as (summary & ->).
  simpl. rewrite overall_score_percentage.
  eexists. split; [reflexivity |]. exact Hlen.
Qed.

(** A mission log without events: the first three stages pass (nothing is
    searched, nothing is compared) and the summary stage divides by zero. *)
Lemma analyze_mission_empty_log self ml (t : trace) :
  events ml = [] ->
  analyze_mission self ml t = (Raise ZeroDivisionError, t).
Proof.
  intros Hnil. destruct ml. simpl in Hnil. subst. reflexivity.
Qed.

End Runs.

(** A JSON mission log without an "events" key parses to a log without
    events, and its analysis ends in the division by zero. *)
Example analyze_mission_no_events_sample :
  match parse_json_data (RT := Reference.runtime) no_events_json with
  | Ok log =>
      events log = []
      /\ analyze_mission (RT := Reference.runtime) Sample.rag log []
         = (Raise ZeroDivisionError, [])
  | Raise _ => False
  end.
Proof. vm_compute. split; reflexivity. Qed.

Lemma overall_compliance_score_law_witness :
  exists score,
    overall_compliance_score Sample.analysis = Some score
    /\ Prim2SF score = score_law (comparisons Sample.analysis)
    /\ summary_text (RT := Reference.runtime) Sample.mission_log
         (length (comparisons Sample.analysis))
         (status_count "compliant" (comparisons Sample.analysis))
         (status_count "partial" (comparisons Sample.analysis))
         (status_count "non-compliant" (comparisons Sample.analysis))
         (NFloat score)
       = Ok (ma_summary Sample.analysis).
Proof.
  apply (proj2 (proj2 (proj2 (proj2
           (overall_compliance_score_law (RT := Reference.runtime)))))
           Sample.rag Sample.mission_log [] Sample.analysis Sample.queries).
  - vm_compute. reflexivity.
  - vm_compute. reflexivity.
Defined.

(** The score law at work: three of six, one of three and two of three
    compliant comparisons, all and none. *)
Example score_law_samples :
  SF2Prim (score_law (comparisons Sample.analysis)) = 50%float
  /\ SF2Prim (score_law (with_statuses ["compliant"; "partial"; "unclear"]))
     = 33.33333333333333%float
  /\ SF2Prim (score_law (with_statuses ["compliant"; "partial"; "compliant"]))
     = 66.66666666666666%float
  /\ SF2Prim (score_law (with_statuses ["compliant"; "compliant"]))
     = 100%float
  /\ SF2Prim (score_law (with_statuses ["partial"; "non-compliant"]))
     = 0%float
  /\ overall_score (with_statuses ["compliant"; "partial"; "unclear"])
     = Ok 33.33333333333333%float.
Proof. vm_compute. repeat split. Qed.

(** The sample mission: six comparisons, three of them compliant, and a
    score of 50. *)
Example overall_compliance_score_sample :
  compliance_status <$> comparisons Sample.analysis
  = ["unclear"; "compliant"; "compliant"; "unclear"; "compliant"; "unclear"]
  /\ overall_compliance_score Sample.analysis = Some 50%float
  /\ ma_lessons_learned Sample.analysis = []
  /\ ma_recommendations Sample.analysis = [rec_debriefs].
Proof. repeat split. Qed.

(** ** The mission-log parser *)

Section ParserProperties.
Context {RT : PyRuntime}.

Lemma try_formats_ok s fmts d :
  try_formats s fmts = Ok d
  <-> exists i fmt,
        fmts !! i = Some fmt
        /\ strptime s fmt = Some d
        /\ forall j fmt', j < i -> fmts !! j = Some fmt' ->
             strptime s fmt' = None.
Proof.
  induction fmts as [| fmt fmts IH]; simpl.
  - split; [done |]. intros (i & fmt & H & _). by rewrite lookup_nil in H.
  - destruct (strptime s fmt) as [d' |] eqn:E.
    + split.
      * intros [= ->]. exists 0, fmt. repeat split; [done |].
        intros j fmt' Hj. lia.
      * intros ([| i] & fmt' & Hi & Hd & Hbefore); simpl in Hi.
        -- injection Hi as <-. congruence.
        -- specialize (Hbefore 0 fmt ltac:(lia) eq_refl). congruence.
    + rewrite IH. split.
      * intros (i & fmt' & Hi & Hd & Hbefore). exists (S i), fmt'.
        repeat split; [done | done |].
        intros [| j] fmt'' Hj Hfmt; simpl in Hfmt.
        -- by injection Hfmt as <-.
        -- apply (Hbefore j); [lia | done].
      * intros ([| i] & fmt' & Hi & Hd & Hbefore); simpl in Hi.
        -- injection Hi as <-. congruence.
        -- exists i, fmt'. repeat split; [done | done |].
           intros j fmt'' Hj Hfmt. apply (Hbefore (S j)); [lia | done].
Qed.

Lemma try_formats_none s fmts :
  (forall fmt, fmt ∈ fmts -> strptime s fmt = None) ->
  try_formats s fmts = Raise (ValueError ("Could not parse timestamp: " +:+ s)).
Proof.
  induction fmts as [| fmt fmts IH]; simpl; intros Hnone; [done |].
  rewrite Hnone by set_solver. apply IH. intros fmt' Hin. apply Hnone.
  set_solver.
Qed.

(** A failure in the list of events is the failure of the comprehension. *)
Lemma parse_events_raises xs i x :
  xs !! i = Some x ->
  raises (parse_event x) ->
  raises (parse_events xs).
Proof.
  revert i. induction xs as [| x' xs IH]; intros i Hi Hx.
  - by rewrite lookup_nil in Hi.
  - simpl. destruct i as [| i]; simpl in Hi.
    + injection Hi as ->. destruct Hx as [e ->]. by exists e.
    + destruct (parse_event x') as [ev | e]; [| by exists e]. simpl.
      destruct (IH i Hi Hx) as [e ->]. by exists e.
Qed.

(** C8, amended: parse_timestamp returns a datetime value as it is, parses
    a string with the first of the five formats that fits, and converts a
    number (an int, a float or, as Python counts it among the ints, a bool)
    with datetime.fromtimestamp; these are all the values it accepts.  A
    string that fits none of the formats, and a value that is None, a list
    or a dict, raise ValueError.  An event whose timestamp does not parse
    makes parse_json_data raise, so no mission log is returned. *)
Theorem parse_timestamp_accepts :
  (forall v d,
     parse_timestamp v = Ok d
     <-> v = PDatetime d
         \/ (exists s, v = PStr s /\ first_match s d)
         \/ (exists n, as_number v = Some n /\ fromtimestamp n = Ok d))
  /\ (forall s,
        (forall fmt, fmt ∈ formats -> strptime s fmt = None) ->
        parse_timestamp (PStr s)
        = Raise (ValueError ("Could not parse timestamp: " +:+ s)))
  /\ (forall v,
        v = PNone \/ (exists l, v = PList l) \/ (exists m, v = PDict m) ->
        parse_timestamp v
        = Raise (ValueError ("Unknown timestamp format: " +:+ str_value v)))
  /\ (forall data xs i event_data v,
        iterate (dict_get data "events" (PList [])) = Ok xs ->
        xs !! i = Some (PDict event_data) ->
        dict_lookup event_data "timestamp" = Some v ->
        raises (parse_timestamp v) ->
        raises (parse_json_data (PDict data))).
Proof.
  split; [| split; [| split]].
  - intros v d. unfold parse_timestamp. destruct v; cbn [as_number].
    all: try (split; [done | intros [H | [(s & H & _) | (n & H & _)]]; done]).
    + split; [intros H; right; right; by eexists |].
      intros [H | [(s & H & _) | (n & [= <-] & H)]]; done.
    + split; [intros H; right; right; by eexists |].
      intros [H | [(s & H & _) | (n & [= <-] & H)]]; done.
    + split; [intros H; right; right; by eexists |].
      intros [H | [(s & H & _) | (n & [= <-] & H)]]; done.
    + rewrite try_formats_ok. unfold first_match. split.
      * intros H. right. left. by exists s.
      * intros [H | [(s' & [= <-] & H) | (n & H & _)]]; done.
    + split; [intros [= ->]; by left |].
      intros [[= ->] | [(s & H & _) | (n & H & _)]]; done.
  - intros s Hnone. unfold parse_timestamp. by apply try_formats_none.
  - intros v [-> | [[l ->] | [m ->]]]; reflexivity.
  - intros data xs i event_data v Hxs Hi Hv [e He].
    simpl. rewrite Hxs. simpl.
    assert (Hev : raises (parse_event (PDict event_data))).
    { simpl. unfold dict_getitem. rewrite Hv. simpl. rewrite He.
      by exists e. }
    destruct (parse_events_raises xs i _ Hi Hev) as [e' ->]. by exists e'.
Qed.

End ParserProperties.

(** C8, as worded, fails: a datetime object is none of the values the
    specification lists, and it is accepted; so is the JSON value true,
    which is read as the epoch 1. *)
Lemma parse_timestamp_accepts_unlisted :
  (parse_timestamp (RT := Reference.runtime)
     (PDatetime (mk_datetime 2024 11 14 8 0 0 0))
   = Ok (mk_datetime 2024 11 14 8 0 0 0)
   /\ ~ listed_timestamp (RT := Reference.runtime)
          (PDatetime (mk_datetime 2024 11 14 8 0 0 0)))
  /\ (parse_timestamp (RT := Reference.runtime) (PBool true)
      = Ok (mk_datetime 1970 1 1 0 0 1 0)
      /\ ~ listed_timestamp (RT := Reference.runtime) (PBool true)).
Proof. repeat split; simpl; tauto. Qed.

Lemma parse_timestamp_accepts_witness :
  raises (parse_json_data (RT := Reference.runtime) (PDict undated_log)).
Proof.
  apply (proj2 (proj2 (proj2
           (parse_timestamp_accepts (RT := Reference.runtime))))
           undated_log
           [ Sample.event "2024-11-14T08:00:00Z" "mission_start"
               "Mission commenced" [];
             undated_event ]
           1
           [("timestamp", PStr "yesterday");
            ("event_type", PStr "speed_change")]
           (PStr "yesterday")).
  - reflexivity.
  - reflexivity.
  - reflexivity.
  - eexists. reflexivity.
Defined.

(** The layouts at work under the reference runtime: the first four are
    accepted, ISO-8601 without the "Z" and a date alone are not. *)
Example parse_timestamp_samples :
  parse_timestamp (RT := Reference.runtime) (PStr "2024-11-14T08:15:00.250Z")
  = Ok (mk_datetime 2024 11 14 8 15 0 250000)
  /\ parse_timestamp (RT := Reference.runtime) (PStr "2024-11-14T08:15:00Z")
     = Ok (mk_datetime 2024 11 14 8 15 0 0)
  /\ parse_timestamp (RT := Reference.runtime) (PStr "2024-11-14 08:15:00")
     = Ok (mk_datetime 2024 11 14 8 15 0 0)
  /\ parse_timestamp (RT := Reference.runtime) (PStr "11/14/2024 08:15:00")
     = Ok (mk_datetime 2024 11 14 8 15 0 0)
  /\ parse_timestamp (RT := Reference.runtime) (PInt 3600)
     = Ok (mk_datetime 1970 1 1 1 0 0 0)
  /\ parse_timestamp (RT := Reference.runtime) (PStr "2024-11-14T08:15:00")
     = Raise (ValueError "Could not parse timestamp: 2024-11-14T08:15:00")
  /\ parse_timestamp (RT := Reference.runtime) (PStr "2024-11-14")
     = Raise (ValueError "Could not parse timestamp: 2024-11-14")
  /\ parse_timestamp (RT := Reference.runtime) PNone
     = Raise (ValueError "Unknown timestamp format: None").
Proof. repeat split. Qed.

Section EventParsing.
Context {RT : PyRuntime}.

Lemma MissionEvent_new_raises ts ty desc tn sp co la lo md :
  raises (MissionEvent_new ts ty desc tn sp co la lo md)
  <-> validate_datetime ts = None
      \/ validate_str ty = None
      \/ validate_str desc = None
      \/ validate_optional validate_str tn = None
      \/ validate_optional validate_float sp = None
      \/ validate_optional validate_float co = None
      \/ validate_optional validate_float la = None
      \/ validate_optional validate_float lo = None
      \/ validate_dict md = None.
Proof.
  unfold MissionEvent_new, raises.
  destruct (validate_datetime ts); [| split; [by left | by eexists]].
  destruct (validate_str ty); [| split; [tauto | by eexists]].
  destruct (validate_str desc); [| split; [tauto | by eexists]].
  destruct (validate_optional validate_str tn);
    [| split; [tauto | by eexists]].
  destruct (validate_optional validate_float sp);
    [| split; [tauto | by eexists]].
  destruct (validate_optional validate_float co);
    [| split; [tauto | by eexists]].
  destruct (validate_optional validate_float la);
    [| split; [tauto | by eexists]].
  destruct (validate_optional validate_float lo);
    [| split; [tauto | by eexists]].
  destruct (validate_dict md); [| split; [tauto | by eexists]].
  split; [intros [e H]; done | naive_solver].
Qed.

Lemma MissionEvent_new_fields ts ty desc tn sp co la lo md event :
  MissionEvent_new ts ty desc tn sp co la lo md = Ok event ->
  validate_datetime ts = timestamp event
  /\ validate_str ty = Some (event_type event)
  /\ validate_str desc = Some (description event)
  /\ validate_optional validate_str tn = Some (tracking_number event)
  /\ validate_optional validate_float sp = Some (speed event)
  /\ validate_optional validate_float co = Some (course event)
  /\ validate_optional validate_float la = Some (latitude event)
  /\ validate_optional validate_float lo = Some (longitude event)
  /\ validate_dict md = Some (metadata event).
Proof.
  unfold MissionEvent_new. intros H.
  repeat match type of H with
         | match ?x with _ => _ end = _ => destruct x; try discriminate
         end.
  injection H as <-. by repeat split.
Qed.

Lemma dict_get_rejected {T} (validate : pyval -> option T) d k default :
  is_Some (validate default) ->
  validate (dict_get d k default) = None
  <-> exists v, dict_lookup d k = Some v /\ validate v = None.
Proof.
  intros [x Hx]. unfold dict_get.
  destruct (dict_lookup d k) as [v |].
  - split; [by exists v | by intros (v' & [= <-] & H)].
  - split; [congruence | by intros (v' & H & _)].
Qed.

Lemma not_accepted {T} (o : option T) :
  bool_decide (is_Some o) = false <-> o = None.
Proof.
  rewrite bool_decide_eq_false. destruct o; split; try done.
  intros H. exfalso. apply H. by eexists.
Qed.

(** C10, amended: parse_event raises exactly when the timestamp key is
    missing, or its value does not parse, or a supplied field is rejected
    by the annotation MissionEvent declares for it (a null event_type, for
    one).  A field that is missing is never the cause: event_type then is
    "unknown", description the empty string, metadata the empty dict and
    every other field None. *)
Theorem parse_event_raises_iff (event_data : pydict) :
  (raises (parse_event (PDict event_data))
   <-> dict_lookup event_data "timestamp" = None
       \/ (exists v, dict_lookup event_data "timestamp" = Some v
                     /\ raises (parse_timestamp v))
       \/ rejected_field event_data)
  /\ (forall v ts,
        dict_lookup event_data "timestamp" = Some v ->
        parse_timestamp v = Ok ts ->
        (forall k accepts, (k, accepts) ∈ field_accepts ->
                           dict_lookup event_data k = None) ->
        parse_event (PDict event_data)
        = Ok (mk_MissionEvent (Some ts) "unknown" "" None None None None
                None []))
  /\ (forall event,
        parse_event (PDict event_data) = Ok event ->
        (dict_lookup event_data "event_type" = None ->
         event_type event = "unknown")
        /\ (dict_lookup event_data "description" = None ->
            description event = "")
        /\ (dict_lookup event_data "metadata" = None ->
            metadata event = [])
        /\ (dict_lookup event_data "tracking_number" = None ->
            tracking_number event = None)
        /\ (dict_lookup event_data "speed" = None -> speed event = None)).
Proof.
  split; [| split].
  - unfold parse_event, dict_getitem.
    destruct (dict_lookup event_data "timestamp") as [v |] eqn:Hts;
      [| split; [by left | intros _; by eexists]].
    simpl. destruct (parse_timestamp v) as [ts | e] eqn:Hparse; simpl.
    2: { split; [| intros _; by eexists].
         intros _. right. left. exists v. split; [done | by exists e]. }
    rewrite MissionEvent_new_raises. simpl.
    rewrite !dict_get_rejected by (simpl; by eexists).
    unfold rejected_field, field_accepts. split.
    + intros [H | [H | [H | [H | [H | [H | [H | [H | H]]]]]]]];
        [done | right; right ..];
        destruct H as (v' & Hv' & Hrej);
        match type of Hv' with
        | dict_lookup _ ?k = _ => exists k
        end;
        eexists _, v';
        (split;
         [ repeat first [apply list_elem_of_here | apply list_elem_of_further]
         | split; [exact Hv' | by apply not_accepted] ]).
    + intros [H | [(v' & [= <-] & [e He]) | (k & accepts & v' & Hin & Hk & Hrej)]];
        [done | congruence |].
      repeat (apply elem_of_cons in Hin as [[= -> ->] | Hin];
              [apply not_accepted in Hrej; eauto 12 |]).
      by apply elem_of_nil in Hin.
  - intros v ts Hv Hts Hmissing.
    unfold parse_event, dict_getitem. rewrite Hv. simpl. rewrite Hts. simpl.
    assert (Hk : forall k, k ∈ fst <$> field_accepts ->
                           dict_lookup event_data k = None).
    { intros k [[k' accepts] [-> Hin]]%list_elem_of_fmap.
      by eapply Hmissing. }
    unfold dict_get.
    rewrite !Hk by (unfold field_accepts; simpl; set_solver).
    reflexivity.
  - intros event. unfold parse_event, dict_getitem.
    destruct (dict_lookup event_data "timestamp") as [v |]; [| done].
    simpl. destruct (parse_timestamp v) as [ts |]; [| done]. simpl.
    intros Hnew. apply MissionEvent_new_fields in Hnew
      as (_ & Hty & Hdesc & Htn & Hsp & _ & _ & _ & Hmd).
    unfold dict_get in *.
    repeat split; intros Hk; rewrite Hk in *; simpl in *; congruence.
Qed.

End EventParsing.

(** C10, as worded, fails: the timestamp of this event is present and
    parses, and the event does not. *)
Lemma parse_event_rejects_null_type :
  dict_lookup null_typed_event "timestamp" = Some (PStr "2024-11-14T08:15:00Z")
  /\ parse_timestamp (RT := Reference.runtime) (PStr "2024-11-14T08:15:00Z")
     = Ok (mk_datetime 2024 11 14 8 15 0 0)
  /\ parse_event (RT := Reference.runtime) (PDict null_typed_event)
     = Raise (ValidationError "MissionEvent").
Proof. repeat split. Qed.

(** The same holds under every runtime when the timestamp is already a
    datetime: None is not a [str] for any version of the validator. *)
Lemma parse_event_rejects_null_type_any {RT : PyRuntime} d :
  parse_event (PDict [("timestamp", PDatetime d); ("event_type", PNone)])
  = Raise (ValidationError "MissionEvent").
Proof. reflexivity. Qed.

Lemma parse_event_raises_iff_witness :
  parse_event (RT := Reference.runtime)
    (PDict [("timestamp", PStr "2024-11-14T08:15:00Z")])
  = Ok (mk_MissionEvent (Some (mk_datetime 2024 11 14 8 15 0 0)) "unknown" ""
          None None None None None []).
Proof.
  apply (proj1 (proj2 (parse_event_raises_iff (RT := Reference.runtime)
                         [("timestamp", PStr "2024-11-14T08:15:00Z")]))
           (PStr "2024-11-14T08:15:00Z")).
  - reflexivity.
  - reflexivity.
  - intros k accepts Hin. unfold field_accepts in Hin.
    repeat (apply elem_of_cons in Hin as [[= -> _] | Hin];
            [reflexivity |]).
    by apply elem_of_nil in Hin.
Defined.

(** Supplied values at work under the reference runtime: an integer speed
    is taken as a float, a string is not, and a missing tracking number is
    None. *)
Example parse_event_samples :
  parse_event (RT := Reference.runtime)
    (PDict [("timestamp", PStr "2024-11-14T08:15:00Z");
            ("event_type", PStr "speed_change"); ("speed", PInt 15)])
  = Ok (mk_MissionEvent (Some (mk_datetime 2024 11 14 8 15 0 0))
          "speed_change" "" None (Some 15%float) None None None [])
  /\ parse_event (RT := Reference.runtime)
       (PDict [("timestamp", PStr "2024-11-14T08:15:00Z");
               ("event_type", PStr "speed_change"); ("speed", PStr "fast")])
     = Raise (ValidationError "MissionEvent")
  /\ parse_event (RT := Reference.runtime)
       (PDict [("event_type", PStr "speed_change")])
     = Raise (KeyError "timestamp").
Proof. repeat split. Qed.

(** The repository's sample mission log parses to a log of six events. *)
Example parse_json_data_sample :
  parse_json_data (RT := Reference.runtime) Sample.mission_json
  = Ok Sample.mission_log
  /\ length (events Sample.mission_log) = 6
  /\ event_type <$> events Sample.mission_log
     = ["mission_start"; "speed_change"; "contact_detection"; "course_change";
        "speed_change"; "mission_end"].
Proof. vm_compute. repeat split. Qed.

(** * Further properties *)

(** ** The rule engine *)

Lemma severity_map_unknown (status : string) :
  status ∉ statuses -> severity_map !! status = None.
Proof.
  intros Hout. unfold severity_map.
  apply not_elem_of_list_to_map_1. exact Hout.
Qed.

(** X1: the severity of a classified event follows its status: "info"
    exactly for a compliant event, "major" exactly for a non-compliant
    one, "minor" exactly for a partial or unclear one, and never
    "critical"; a status that is none of the four also gets "minor". *)
Theorem severity_follows_status (event : MissionEvent) (expected : string) :
  (_determine_severity (_determine_compliance event expected) = "info"
   <-> _determine_compliance event expected = "compliant")
  /\ (_determine_severity (_determine_compliance event expected) = "major"
      <-> _determine_compliance event expected = "non-compliant")
  /\ (_determine_severity (_determine_compliance event expected) = "minor"
      <-> _determine_compliance event expected = "partial"
          \/ _determine_compliance event expected = "unclear")
  /\ _determine_severity (_determine_compliance event expected) <> "critical"
  /\ (forall status, status ∉ statuses -> _determine_severity status = "minor").
Proof.
  pose proof (determine_compliance_range event expected) as Hrange.
  assert (Hfallback : forall status,
            status ∉ statuses -> _determine_severity status = "minor").
  { intros status Hout. unfold _determine_severity.
    by rewrite severity_map_unknown. }
  repeat (apply elem_of_cons in Hrange as [-> | Hrange]);
    [.. | by apply elem_of_nil in Hrange];
    (repeat split; [.. | exact Hfallback]);
    vm_compute; intuition congruence.
Qed.

(** X2: the expectation the rule engine states for an event depends on the
    event type alone, never on the doctrine text.  A type that is not one
    of the six known ones gets the fallback; a known type gets a text of
    its own, different from the fallback and from that of every other
    type. *)
Theorem expected_action_by_type (event : MissionEvent) (doctrine_text : string) :
  (event_type event ∉ known_event_types ->
   _get_expected_action_for_event event doctrine_text = fallback_expectation)
  /\ (event_type event ∈ known_event_types ->
      _get_expected_action_for_event event doctrine_text
      <> fallback_expectation)
  /\ (forall other text,
        event_type other = event_type event ->
        _get_expected_action_for_event other text
        = _get_expected_action_for_event event doctrine_text)
  /\ (forall other text,
        event_type event ∈ known_event_types ->
        _get_expected_action_for_event other text
        = _get_expected_action_for_event event doctrine_text ->
        event_type other = event_type event).
Proof.
  assert (Hunknown : forall e text,
            event_type e ∉ known_event_types ->
            _get_expected_action_for_event e text = fallback_expectation).
  { intros e text Hout. unfold _get_expected_action_for_event.
    unfold event_type_expectations.
    by rewrite not_elem_of_list_to_map_1. }
  assert (Hknown : forall e text,
            event_type e ∈ known_event_types ->
            _get_expected_action_for_event e text <> fallback_expectation).
  { intros e text Hin. unfold _get_expected_action_for_event.
    repeat (apply elem_of_cons in Hin as [-> | Hin]);
      [.. | by apply elem_of_nil in Hin]; vm_compute; congruence. }
  split; [apply Hunknown |]. split; [apply Hknown |]. split.
  - intros other text Hty. unfold _get_expected_action_for_event.
    by rewrite Hty.
  - intros other text Hin Heq.
    destruct (decide (event_type other ∈ known_event_types)) as [Hother | Hother].
    + unfold _get_expected_action_for_event in Heq.
      repeat (apply elem_of_cons in Hin as [Hty | Hin]);
        [.. | by apply elem_of_nil in Hin];
        rewrite Hty in Heq |- *;
        repeat (apply elem_of_cons in Hother as [Hty' | Hother]);
        try (by apply elem_of_nil in Hother);
        rewrite Hty' in Heq |- *; first [reflexivity | vm_compute in Heq; congruence].
    + rewrite (Hunknown other text Hother) in Heq.
      symmetry in Heq. by apply Hknown in Heq.
Qed.

Lemma append_inv_head (p a b : string) : p +:+ a = p +:+ b -> a = b.
Proof.
  induction p as [| c p IH]; simpl; [done |]. intros [= H]. by apply IH.
Qed.

(** X3: the analysis text of an event tells its status apart: for one
    event, two different statuses among the four never get the same text,
    whatever expected and actual action are passed along (the text uses
    neither). *)
Theorem event_analysis_identifies_status
    (event : MissionEvent) (expected1 actual1 expected2 actual2 : string)
    (status1 status2 : string) :
  status1 ∈ statuses ->
  status2 ∈ statuses ->
  status1 <> status2 ->
  _generate_event_analysis event expected1 actual1 status1
  <> _generate_event_analysis event expected2 actual2 status2.
Proof.
  intros H1 H2 Hne.
  repeat (apply elem_of_cons in H1 as [-> | H1]);
    [.. | by apply elem_of_nil in H1];
    repeat (apply elem_of_cons in H2 as [-> | H2]);
    try (by apply elem_of_nil in H2);
    try done;
    unfold _generate_event_analysis; simpl;
    intros Heq; try discriminate;
    do 2 apply append_inv_head in Heq; discriminate.
Qed.

Lemma event_analysis_identifies_status_witness :
  _generate_event_analysis speed_change_without_tracking "" "" "compliant"
  <> _generate_event_analysis speed_change_without_tracking
       "Log timestamp" "Increased speed to 15 knots" "partial".
Proof.
  apply (event_analysis_identifies_status speed_change_without_tracking
           "" "" "Log timestamp" "Increased speed to 15 knots"
           "compliant" "partial").
  - unfold statuses. set_solver.
  - unfold statuses. set_solver.
  - discriminate.
Defined.

(** ** The verdicts and the doctrine corpus *)

Section Verdicts.
Context {RT : PyRuntime}.

Lemma analyze_event_against_doctrine_inv event doctrine_text docs oc :
  _analyze_event_against_doctrine event doctrine_text docs = Ok oc ->
  exists ts refs,
    timestamp event = Some ts
    /\ doctrine_refs_of (take 2 docs) = Ok refs
    /\ oc = Some (comparison_for event ts refs).
Proof.
  unfold _analyze_event_against_doctrine.
  destruct (doctrine_refs_of (take 2 docs)) as [refs |]; [| done]. simpl.
  destruct (timestamp event) as [ts |]; [| done]. simpl.
  intros [= <-]. by exists ts, refs.
Qed.

Lemma compare_loop_inv evs doctrine_text docs acc cs :
  compare_loop evs doctrine_text docs acc = Ok cs ->
  exists new, cs = acc ++ new /\ Forall2 (built_for docs) evs new.
Proof.
  revert acc. induction evs as [| event evs IH]; intros acc; simpl.
  - intros [= <-]. exists []. split; [by rewrite app_nil_r | constructor].
  - destruct (_analyze_event_against_doctrine event doctrine_text docs)
      as [oc |] eqn:E; [| done]. simpl.
    apply analyze_event_against_doctrine_inv in E
      as (ts & refs & Hts & Hrefs & ->).
    intros H. apply IH in H as (new & -> & Hnew).
    exists (comparison_for event ts refs :: new).
    split; [by rewrite <- app_assoc |].
    constructor; [by exists ts, refs | done].
Qed.

(** Two comparison lists built for the same events differ in their
    references at most. *)
Lemma same_verdicts docs1 docs2 evs cs1 cs2 :
  Forall2 (built_for docs1) evs cs1 ->
  Forall2 (built_for docs2) evs cs2 ->
  without_references <$> cs1 = without_references <$> cs2.
Proof.
  intros H1. revert cs2. induction H1 as [| e c1 evs cs1 Hc1 _ IH];
    intros cs2 H2; inversion H2 as [| ? c2 ? cs2' Hc2 Hrest]; subst.
  - reflexivity.
  - rewrite !fmap_cons, (IH _ Hrest). f_equal.
    destruct Hc1 as (ts1 & refs1 & Hts1 & _ & ->).
    destruct Hc2 as (ts2 & refs2 & Hts2 & _ & ->).
    rewrite Hts1 in Hts2. by injection Hts2 as <-.
Qed.

Lemma count_status_statuses status cs :
  count_status status cs
  = length (filter (fun s => String.eqb s status = true)
              (compliance_status <$> cs)).
Proof.
  unfold count_status. induction cs as [| c cs IH]; [done |].
  rewrite fmap_cons, !filter_cons.
  destruct (decide (String.eqb (compliance_status c) status = true));
    simpl; by rewrite IH.
Qed.

Lemma statuses_without_references (cs : list ComparisonResult) :
  compliance_status <$> (without_references <$> cs) = compliance_status <$> cs.
Proof. rewrite <- list_fmap_compose. by apply list_fmap_ext. Qed.

(** The summary stage reads the mission log, the number of comparisons
    and their statuses, and nothing else. *)
Lemma generate_summary_node_ext st1 st2 :
  mission_log st1 = mission_log st2 ->
  compliance_status <$> comparison_results st1
  = compliance_status <$> comparison_results st2 ->
  _generate_summary_node st1 = _generate_summary_node st2.
Proof.
  intros Hlog Hst.
  assert (Hlen : length (comparison_results st1)
                 = length (comparison_results st2)).
  { by rewrite <- (length_fmap compliance_status (comparison_results st1)),
      Hst, length_fmap. }
  unfold _generate_summary_node.
  rewrite !count_status_statuses, Hlog, Hst, Hlen. reflexivity.
Qed.

Lemma overall_score_ext cs1 cs2 :
  compliance_status <$> cs1 = compliance_status <$> cs2 ->
  overall_score cs1 = overall_score cs2.
Proof.
  intros Hst. rewrite !overall_score_percentage. f_equal.
  assert (Hlen : length cs1 = length cs2).
  { by rewrite <- (length_fmap compliance_status cs1), Hst, length_fmap. }
  unfold compliance_percentage.
  rewrite !count_status_statuses, Hst, Hlen.
  destruct cs1, cs2; try done.
Qed.

(** A returned analysis, read backwards through the four stages. *)
Lemma analyze_mission_inv self ml (t : trace) a t' :
  analyze_mission self ml t = (Ok a, t') ->
  exists ctx doctrine_text cs us score,
    _retrieve_doctrine_node self
      (mk_AnalysisState ml (head (events ml)) [] [] "" [] []) t
    = (Ok [ set_doctrine_context ctx ], t')
    /\ compare_loop (events ml) doctrine_text ctx [] = Ok cs
    /\ _generate_summary_node
         (mk_AnalysisState ml (head (events ml)) ctx cs "" [] []) = Ok us
    /\ overall_score cs = Ok score
    /\ a = mk_MissionAnalysis (mission_id ml) (mission_name ml) now cs
             (summary (apply_updates
                (mk_AnalysisState ml (head (events ml)) ctx cs "" [] []) us))
             (lessons_learned (apply_updates
                (mk_AnalysisState ml (head (events ml)) ctx cs "" [] []) us))
             (recommendations (apply_updates
                (mk_AnalysisState ml (head (events ml)) ctx cs "" [] []) us))
             (Some score).
Proof.
  unfold analyze_mission. rewrite graph_invoke_sequence.
  unfold run_node, mbind, Eff_bind, lift, mret, Eff_ret. simpl.
  destruct (_retrieve_doctrine_node _ _ t) as [[us2 | e] t2] eqn:E2; [| done].
  destruct (retrieve_doctrine_node_shape _ _ _ _ _ E2) as [ctx ->]. simpl.
  unfold _compare_actions_node at 1. simpl.
  set (doctrine_text := join _ _).
  destruct (compare_loop (events ml) doctrine_text ctx []) as [cs |] eqn:E3;
    [| done]. simpl.
  destruct (_generate_summary_node _) as [us |] eqn:E4; [| done].
  destruct (overall_score _) as [score |] eqn:E5; [| done].
  intros [= <- <-].
  exists ctx, doctrine_text, cs, us, score.
  destruct (generate_summary_node_shape _ _ E4)
    as (sc & text & ls & rs & -> & _). simpl in *.
  repeat split; try done.
Qed.

(** A returned analysis carries the reading of the clock; nothing else
    of it depends on the clock. *)
Lemma analyze_mission_clock self ml (t : trace) d a t' :
  analyze_mission (RT := with_now RT d) self ml t = (Ok a, t') ->
  ma_timestamp a = d
  /\ exists a0,
       analyze_mission self ml t = (Ok a0, t') /\ verdicts a0 = verdicts a.
Proof.
  unfold analyze_mission.
  change (graph_invoke (RT := with_now RT d) self (initial_state ml) t)
    with (graph_invoke self (initial_state ml) t).
  unfold mbind, Eff_bind.
  destruct (graph_invoke self (initial_state ml) t) as [[st |] t0]; [| done].
  unfold lift, mret, Eff_ret.
  destruct (overall_score (comparison_results st)) as [score |]; [| done].
  intros [= <- <-]. split; [reflexivity |].
  eexists. split; reflexivity.
Qed.

Lemma verdicts_same_clock self1 self2 ml (t1 t2 : trace) a1 a2 t1' t2' :
  analyze_mission self1 ml t1 = (Ok a1, t1') ->
  analyze_mission self2 ml t2 = (Ok a2, t2') ->
  verdicts a1 = verdicts a2.
Proof.
  intros H1 H2.
  apply analyze_mission_inv in H1
    as (ctx1 & text1 & cs1 & us1 & score1 & _ & Hcs1 & Hus1 & Hsc1 & ->).
  apply analyze_mission_inv in H2
    as (ctx2 & text2 & cs2 & us2 & score2 & _ & Hcs2 & Hus2 & Hsc2 & ->).
  apply compare_loop_inv in Hcs1 as (new1 & -> & Hnew1).
  apply compare_loop_inv in Hcs2 as (new2 & -> & Hnew2).
  simpl in *.
  pose proof (same_verdicts _ _ _ _ _ Hnew1 Hnew2) as Hsame.
  assert (Hst : compliance_status <$> new1 = compliance_status <$> new2).
  { by rewrite <- (statuses_without_references new1), Hsame,
      statuses_without_references. }
  rewrite (overall_score_ext _ _ Hst) in Hsc1.
  assert (score1 = score2) as -> by congruence.
  rewrite (generate_summary_node_ext
             (mk_AnalysisState ml (head (events ml)) ctx1 new1 "" [] [])
             (mk_AnalysisState ml (head (events ml)) ctx2 new2 "" [] [])
             eq_refl Hst) in Hus1.
  assert (us1 = us2) as -> by congruence.
  destruct (generate_summary_node_shape _ _ Hus2)
    as (sc & text & ls & rs & -> & _).
  unfold verdicts. simpl. by rewrite Hsame.
Qed.

(** X4: the doctrine corpus never changes a verdict.  Two pipelines,
    whatever their stores hold, that both return an analysis of one
    mission log, each at a reading of the clock of its own, return the
    same analysis up to the time stamp and the doctrine references of the
    comparisons: the same mission id and name, the same statuses,
    severities, expected actions and analysis texts, the same summary,
    lessons, recommendations and score.  The time stamp of each is the
    reading of the clock when it was built. *)
Theorem verdicts_ignore_corpus self1 self2 ml (t1 t2 : trace) d1 d2
    a1 a2 t1' t2' :
  analyze_mission (RT := with_now RT d1) self1 ml t1 = (Ok a1, t1') ->
  analyze_mission (RT := with_now RT d2) self2 ml t2 = (Ok a2, t2') ->
  verdicts a1 = verdicts a2
  /\ ma_timestamp a1 = d1
  /\ ma_timestamp a2 = d2.
Proof.
  intros H1 H2.
  apply analyze_mission_clock in H1 as (Hd1 & a1' & H1 & <-).
  apply analyze_mission_clock in H2 as (Hd2 & a2' & H2 & <-).
  split; [| by split].
  by eapply verdicts_same_clock.
Qed.

End Verdicts.

Lemma verdicts_ignore_corpus_witness :
  verdicts Sample.analysis = verdicts later_analysis
  /\ ma_timestamp Sample.analysis = mk_datetime 2024 11 15 0 0 0 0
  /\ ma_timestamp later_analysis = mk_datetime 2024 11 15 0 5 0 0.
Proof.
  apply (verdicts_ignore_corpus (RT := Reference.runtime)
           Sample.rag bare_rag Sample.mission_log [] []
           (mk_datetime 2024 11 15 0 0 0 0) (mk_datetime 2024 11 15 0 5 0 0)
           Sample.analysis later_analysis Sample.queries bare_queries).
  - vm_compute. reflexivity.
  - vm_compute. reflexivity.
Defined.

(** ** The parser *)

Section ParsedLogs.
Context {RT : PyRuntime}.

Lemma parse_events_Forall2 xs evs :
  parse_events xs = Ok evs
  <-> Forall2 (fun x event => parse_event x = Ok event) xs evs.
Proof.
  revert evs. induction xs as [| x xs IH]; intros evs; simpl.
  - split; [intros [= <-]; constructor | by inversion 1].
  - destruct (parse_event x) as [e | err] eqn:He; simpl.
    + destruct (parse_events xs) as [es | err]; simpl.
      * split.
        -- intros [= <-]. constructor; [done | by apply IH].
        -- inversion 1 as [| ? e' ? es' He' Hes]; subst.
           apply IH in Hes as [= <-]. congruence.
      * split; [done |].
        inversion 1 as [| ? e' ? es' He' Hes]; subst.
        by apply IH in Hes.
    + split; [done |]. inversion 1; congruence.
Qed.

(** The first event that fails decides how the comprehension fails. *)
Lemma parse_events_first_error xs i x e :
  xs !! i = Some x ->
  parse_event x = Raise e ->
  (forall j y, j < i -> xs !! j = Some y -> exists event, parse_event y = Ok event) ->
  parse_events xs = Raise e.
Proof.
  revert i. induction xs as [| x' xs IH]; intros i Hi He Hbefore.
  - by rewrite lookup_nil in Hi.
  - destruct i as [| i]; simpl in *.
    + injection Hi as ->. by rewrite He.
    + destruct (Hbefore 0 x' ltac:(lia) eq_refl) as [event ->]. simpl.
      rewrite (IH i Hi He); [done |].
      intros j y Hj Hy. apply (Hbefore (S j) y); [lia | done].
Qed.

(** What a returned log tells about the data it was parsed from. *)
Lemma parse_json_data_inv (data : pyval) (log : MissionLog) :
  parse_json_data data = Ok log ->
  exists d xs v,
    data = PDict d
    /\ iterate (dict_get d "events" (PList [])) = Ok xs
    /\ Forall2 (fun x event => parse_event x = Ok event) xs (events log)
    /\ dict_lookup d "start_time" = Some v
    /\ parse_timestamp v = Ok (start_time log)
    /\ match dict_lookup d "end_time" with
       | None => end_time log = None
       | Some v' =>
           exists ts, parse_timestamp v' = Ok ts /\ end_time log = Some ts
       end
    /\ validate_str (dict_get d "mission_id" (PStr "unknown"))
       = Some (mission_id log)
    /\ validate_str (dict_get d "mission_name" (PStr "Unnamed Mission"))
       = Some (mission_name log)
    /\ validate_str (dict_get d "vessel_name" (PStr "Unknown Vessel"))
       = Some (vessel_name log)
    /\ raw_data log = Some d.
Proof.
  destruct data as [| | | | | | | d]; try done. simpl.
  destruct (iterate _) as [xs |] eqn:Hxs; [| done]. simpl.
  destruct (parse_events xs) as [evs |] eqn:Hevs; [| done]. simpl.
  unfold dict_getitem, dict_contains.
  destruct (dict_lookup d "start_time") as [sv |] eqn:Hsv; [| done]. simpl.
  destruct (parse_timestamp sv) as [st |] eqn:Hst; [| done]. simpl.
  destruct (dict_lookup d "end_time") as [ev |] eqn:Hev; simpl.
  - destruct (parse_timestamp ev) as [en |] eqn:Hen; [| done]. simpl.
    destruct (validate_str (dict_get d "mission_id" _)) eqn:Hid; [| done].
    destruct (validate_str (dict_get d "mission_name" _)) eqn:Hname;
      [| done].
    destruct (validate_str (dict_get d "vessel_name" _)) eqn:Hvessel;
      [| done].
    intros [= <-]. exists d, xs, sv. rewrite Hev. simpl.
    split; [done |]. split; [done |].
    split; [by apply parse_events_Forall2 |].
    split; [done |]. split; [done |]. split; [by exists en |]. done.
  - destruct (validate_str (dict_get d "mission_id" _)) eqn:Hid; [| done].
    destruct (validate_str (dict_get d "mission_name" _)) eqn:Hname;
      [| done].
    destruct (validate_str (dict_get d "vessel_name" _)) eqn:Hvessel;
      [| done].
    intros [= <-]. exists d, xs, sv. rewrite Hev. simpl.
    split; [done |]. split; [done |].
    split; [by apply parse_events_Forall2 |]. done.
Qed.

(** X5: parse_json_data returns a log exactly when the data is a dict
    whose "events" value (an empty list when the key is missing) can be
    iterated, every item of it parses as an event, "start_time" is there
    and parses, "end_time" parses when the key is there, and the
    mission_id, mission_name and vessel_name (or their defaults) pass as
    strings.  The log then holds one event per item, in the order of the
    items, the two times as parsed, and the whole input dict as raw_data. *)
Theorem parse_json_data_returns (data : pyval) (log : MissionLog) :
  parse_json_data data = Ok log
  <-> exists d xs v,
        data = PDict d
        /\ iterate (dict_get d "events" (PList [])) = Ok xs
        /\ Forall2 (fun x event => parse_event x = Ok event) xs (events log)
        /\ dict_lookup d "start_time" = Some v
        /\ parse_timestamp v = Ok (start_time log)
        /\ match dict_lookup d "end_time" with
           | None => end_time log = None
           | Some v' =>
               exists ts, parse_timestamp v' = Ok ts /\ end_time log = Some ts
           end
        /\ validate_str (dict_get d "mission_id" (PStr "unknown"))
           = Some (mission_id log)
        /\ validate_str (dict_get d "mission_name" (PStr "Unnamed Mission"))
           = Some (mission_name log)
        /\ validate_str (dict_get d "vessel_name" (PStr "Unknown Vessel"))
           = Some (vessel_name log)
        /\ raw_data log = Some d.
Proof.
  split; [apply parse_json_data_inv |].
  intros (d & xs & v & -> & Hxs & Hevs & Hv & Hst & Hen & Hid & Hname
          & Hvessel & Hraw).
  apply parse_events_Forall2 in Hevs.
  simpl. rewrite Hxs. simpl. rewrite Hevs. simpl.
  unfold dict_getitem, dict_contains. rewrite Hv. simpl. rewrite Hst. simpl.
  destruct (dict_lookup d "end_time") as [ev |]; simpl.
  - destruct Hen as (ts & -> & Hen). simpl.
    rewrite Hid, Hname, Hvessel. destruct log; simpl in *. by subst.
  - rewrite Hid, Hname, Hvessel. destruct log; simpl in *. by subst.
Qed.

(** X6: what a returned log holds for the keys that need not be there.  A
    missing mission_id reads "unknown", a missing mission_name "Unnamed
    Mission", a missing vessel_name "Unknown Vessel"; without an "events"
    key the log has no event and without an "end_time" key no end time;
    an identifier, name or vessel given as a string is taken as it is. *)
Theorem parse_json_data_defaults (d : pydict) (log : MissionLog) :
  parse_json_data (PDict d) = Ok log ->
  (dict_lookup d "mission_id" = None -> mission_id log = "unknown")
  /\ (dict_lookup d "mission_name" = None ->
      mission_name log = "Unnamed Mission")
  /\ (dict_lookup d "vessel_name" = None -> vessel_name log = "Unknown Vessel")
  /\ (dict_lookup d "events" = None -> events log = [])
  /\ (dict_lookup d "end_time" = None -> end_time log = None)
  /\ (forall s, dict_lookup d "mission_id" = Some (PStr s) ->
                mission_id log = s)
  /\ (forall s, dict_lookup d "mission_name" = Some (PStr s) ->
                mission_name log = s)
  /\ (forall s, dict_lookup d "vessel_name" = Some (PStr s) ->
                vessel_name log = s).
Proof.
  intros H. apply parse_json_data_inv in H
    as (d' & xs & v & [= <-] & Hxs & Hevs & _ & _ & Hen & Hid & Hname
        & Hvessel & _).
  unfold dict_get in *.
  repeat split.
  - intros Hk. rewrite Hk in Hid. simpl in Hid. congruence.
  - intros Hk. rewrite Hk in Hname. simpl in Hname. congruence.
  - intros Hk. rewrite Hk in Hvessel. simpl in Hvessel. congruence.
  - intros Hk. rewrite Hk in Hxs. simpl in Hxs. injection Hxs as <-.
    by inversion Hevs.
  - intros Hk. by rewrite Hk in Hen.
  - intros s Hk. rewrite Hk in Hid. simpl in Hid. congruence.
  - intros s Hk. rewrite Hk in Hname. simpl in Hname. congruence.
  - intros s Hk. rewrite Hk in Hvessel. simpl in Hvessel. congruence.
Qed.

(** X7: the order in which parse_json_data fails.  The events are parsed
    before anything else is read, so the error of the first event that
    does not parse is the error of the call, whatever else is wrong with
    the log.  When all events parse, a missing "start_time" is KeyError, a
    "start_time" that does not parse fails with the error of
    parse_timestamp, and so does an "end_time" that is there and does not
    parse: a null end_time is ValueError, not a log without end time. *)
Theorem parse_json_data_error_order (d : pydict) (xs : list pyval) :
  iterate (dict_get d "events" (PList [])) = Ok xs ->
  (forall i x e,
     xs !! i = Some x ->
     parse_event x = Raise e ->
     (forall j y, j < i -> xs !! j = Some y ->
                  exists event, parse_event y = Ok event) ->
     parse_json_data (PDict d) = Raise e)
  /\ (forall evs,
        parse_events xs = Ok evs ->
        (dict_lookup d "start_time" = None ->
         parse_json_data (PDict d) = Raise (KeyError "start_time"))
        /\ (forall v e,
              dict_lookup d "start_time" = Some v ->
              parse_timestamp v = Raise e ->
              parse_json_data (PDict d) = Raise e)
        /\ (forall v st v' e,
              dict_lookup d "start_time" = Some v ->
              parse_timestamp v = Ok st ->
              dict_lookup d "end_time" = Some v' ->
              parse_timestamp v' = Raise e ->
              parse_json_data (PDict d) = Raise e)
        /\ (forall v st,
              dict_lookup d "start_time" = Some v ->
              parse_timestamp v = Ok st ->
              dict_lookup d "end_time" = Some PNone ->
              parse_json_data (PDict d)
              = Raise (ValueError
                         ("Unknown timestamp format: " +:+ str_value PNone)))).
Proof.
  intros Hxs. split.
  - intros i x e Hi He Hbefore. simpl. rewrite Hxs. simpl.
    by rewrite (parse_events_first_error xs i x e).
  - intros evs Hevs.
    assert (Hend : forall v st v' e,
              dict_lookup d "start_time" = Some v ->
              parse_timestamp v = Ok st ->
              dict_lookup d "end_time" = Some v' ->
              parse_timestamp v' = Raise e ->
              parse_json_data (PDict d) = Raise e).
    { intros v st v' e Hv Hst Hv' He. simpl. rewrite Hxs. simpl.
      rewrite Hevs. simpl. unfold dict_getitem, dict_contains.
      rewrite Hv. simpl. rewrite Hst. simpl. rewrite Hv'. simpl.
      by rewrite He. }
    repeat split.
    + intros Hk. simpl. rewrite Hxs. simpl. rewrite Hevs. simpl.
      unfold dict_getitem. by rewrite Hk.
    + intros v e Hv He. simpl. rewrite Hxs. simpl. rewrite Hevs. simpl.
      unfold dict_getitem. rewrite Hv. simpl. by rewrite He.
    + exact Hend.
    + intros v st Hv Hst Hnull. by apply (Hend v st PNone).
Qed.

(** X8: parse_event reads nine keys of the event and nothing else: two
    dicts that agree on those keys, whatever else they hold and in
    whatever order, give the same event or the same error. *)
Theorem parse_event_reads_nine_keys (d1 d2 : pydict) :
  (forall k, k ∈ event_keys -> dict_lookup d1 k = dict_lookup d2 k) ->
  parse_event (PDict d1) = parse_event (PDict d2).
Proof.
  intros Hagree. unfold parse_event, dict_getitem, dict_get.
  rewrite !Hagree by (unfold event_keys; set_solver). reflexivity.
Qed.

(** X9: a returned event holds what the dict supplied.  Its timestamp is
    the parse of the value under "timestamp"; a string under event_type,
    description or tracking_number, a float under speed, course, latitude
    or longitude and a dict under metadata are copied as they are; and an
    explicit null under one of the five optional keys is None. *)
Theorem parse_event_copies_fields (d : pydict) (event : MissionEvent) :
  parse_event (PDict d) = Ok event ->
  (exists v ts, dict_lookup d "timestamp" = Some v
                /\ parse_timestamp v = Ok ts
                /\ timestamp event = Some ts)
  /\ (forall s, dict_lookup d "event_type" = Some (PStr s) ->
                event_type event = s)
  /\ (forall s, dict_lookup d "description" = Some (PStr s) ->
                description event = s)
  /\ (forall s, dict_lookup d "tracking_number" = Some (PStr s) ->
                tracking_number event = Some s)
  /\ (forall f, dict_lookup d "speed" = Some (PFloat f) ->
                speed event = Some f)
  /\ (forall f, dict_lookup d "course" = Some (PFloat f) ->
                course event = Some f)
  /\ (forall f, dict_lookup d "latitude" = Some (PFloat f) ->
                latitude event = Some f)
  /\ (forall f, dict_lookup d "longitude" = Some (PFloat f) ->
                longitude event = Some f)
  /\ (forall m, dict_lookup d "metadata" = Some (PDict m) ->
                metadata event = m)
  /\ (dict_lookup d "tracking_number" = Some PNone ->
      tracking_number event = None)
  /\ (dict_lookup d "speed" = Some PNone -> speed event = None)
  /\ (dict_lookup d "course" = Some PNone -> course event = None)
  /\ (dict_lookup d "latitude" = Some PNone -> latitude event = None)
  /\ (dict_lookup d "longitude" = Some PNone -> longitude event = None).
Proof.
  unfold parse_event, dict_getitem.
  destruct (dict_lookup d "timestamp") as [v |] eqn:Hv; [| done]. simpl.
  destruct (parse_timestamp v) as [ts |] eqn:Hts; [| done]. simpl.
  intros Hnew. apply MissionEvent_new_fields in Hnew
    as (Hts' & Hty & Hdesc & Htn & Hsp & Hco & Hla & Hlo & Hmd).
  unfold dict_get in *. simpl in Hts'.
  split; [by exists v, ts |].
  repeat split; intros; 
    repeat match goal with
           | Hk : dict_lookup d _ = Some _ |- _ => rewrite Hk in *; clear Hk
           end; simpl in *; congruence.
Qed.

End ParsedLogs.

Lemma parse_json_data_defaults_witness :
  mission_id (mk_MissionLog "MISSION-2024-000" "Unnamed Mission"
                (mk_datetime 2024 11 14 8 0 0 0) None "Unknown Vessel" []
                (Some [ ("mission_id", PStr "MISSION-2024-000");
                        ("start_time", PStr "2024-11-14T08:00:00Z") ]))
  = "MISSION-2024-000".
Proof.
  apply (proj1 (proj2 (proj2 (proj2 (proj2 (proj2
           (parse_json_data_defaults (RT := Reference.runtime)
              [ ("mission_id", PStr "MISSION-2024-000");
                ("start_time", PStr "2024-11-14T08:00:00Z") ]
              (mk_MissionLog "MISSION-2024-000" "Unnamed Mission"
                 (mk_datetime 2024 11 14 8 0 0 0) None "Unknown Vessel" []
                 (Some [ ("mission_id", PStr "MISSION-2024-000");
                         ("start_time", PStr "2024-11-14T08:00:00Z") ]))
              eq_refl))))))).
  reflexivity.
Defined.

Lemma parse_json_data_error_order_witness :
  parse_json_data (RT := Reference.runtime)
    (PDict [ ("events", PList [ Sample.event "2024-11-14T08:00:00Z"
                                  "mission_start" "Mission commenced" [];
                                undated_event;
                                PDict [("event_type", PStr "speed_change")] ]) ])
  = Raise (ValueError "Could not parse timestamp: yesterday").
Proof.
  apply (proj1
           (parse_json_data_error_order (RT := Reference.runtime)
              [ ("events", PList [ Sample.event "2024-11-14T08:00:00Z"
                                     "mission_start" "Mission commenced" [];
                                   undated_event;
                                   PDict [("event_type", PStr "speed_change")] ]) ]
              [ Sample.event "2024-11-14T08:00:00Z"
                  "mission_start" "Mission commenced" [];
                undated_event;
                PDict [("event_type", PStr "speed_change")] ]
              eq_refl)
           1 undated_event).
  - reflexivity.
  - reflexivity.
  - intros [| [| j]] y Hj Hy; [| lia | lia].
    injection Hy as <-. eexists. reflexivity.
Defined.

Lemma parse_event_reads_nine_keys_witness :
  parse_event (RT := Reference.runtime)
    (PDict [ ("timestamp", PStr "2024-11-14T08:15:00Z");
             ("event_type", PStr "speed_change"); ("speed", PFloat 15) ])
  = parse_event (RT := Reference.runtime)
      (PDict [ ("remarks", PStr "heavy swell"); ("speed", PFloat 15);
               ("event_type", PStr "speed_change");
               ("timestamp", PStr "2024-11-14T08:15:00Z");
               ("officer", PStr "OOD") ]).
Proof.
  apply (parse_event_reads_nine_keys (RT := Reference.runtime)).
  intros k Hk. unfold event_keys in Hk.
  repeat (apply elem_of_cons in Hk as [-> | Hk]; [reflexivity |]).
  by apply elem_of_nil in Hk.
Defined.

Lemma parse_event_copies_fields_witness :
  speed (mk_MissionEvent (Some (mk_datetime 2024 11 14 8 15 0 0))
           "speed_change" "" None (Some 15%float) None None None [])
  = Some 15%float.
Proof.
  apply (proj1 (proj2 (proj2 (proj2 (proj2
           (parse_event_copies_fields (RT := Reference.runtime)
              [ ("timestamp", PStr "2024-11-14T08:15:00Z");
                ("event_type", PStr "speed_change"); ("speed", PFloat 15);
                ("course", PNone) ]
              (mk_MissionEvent (Some (mk_datetime 2024 11 14 8 15 0 0))
                 "speed_change" "" None (Some 15%float) None None None [])
              eq_refl)))))).
  reflexivity.
Defined.

(** ** From the parsed log to the analysis *)

Section Analyses.
Context {RT : PyRuntime}.

Lemma doctrine_refs_of_length docs refs :
  doctrine_refs_of docs = Ok refs -> length refs = length docs.
Proof.
  revert refs. induction docs as [| doc docs IH]; intros refs; simpl.
  - by intros [= <-].
  - destruct (doctrine_ref_of doc); [| done]. simpl.
    destruct (doctrine_refs_of docs) as [rs |]; [| done]. simpl.
    intros [= <-]. simpl. by rewrite (IH rs).
Qed.

Lemma built_for_event_ok docs evs cs :
  Forall2 (built_for docs) evs cs -> Forall event_ok evs.
Proof.
  induction 1 as [| e c evs cs (ts & refs & Hts & _) _ IH]; constructor;
    [by exists ts | done].
Qed.

(** X10: parsing and analysis compose.  A mission log that
    parse_json_data returned and that has an event is analysed without
    error by a pipeline whose store holds chunks with a string source
    file.  The store is asked once for each of the first five events and
    for nothing else; the analysis carries the log's identifier and name
    and the time of the clock; it has one comparison per event, in the
    order of the log, each built from its event by the rule engine and
    each with the references of the first two chunks of the doctrine
    context, two at most; and it has a score. *)
Theorem analyze_parsed_log self vs data log (t : trace) :
  parse_json_data data = Ok log ->
  events log <> [] ->
  vector_store (doctrine_indexer self) = Some vs ->
  (forall query k doc, doc ∈ similarity_search vs query k -> doc_ok doc) ->
  exists a,
    analyze_mission self log t
    = (Ok a, t ++ ((fun e => (event_query e, 3)) <$> take 5 (events log)))
    /\ ma_mission_id a = mission_id log
    /\ ma_mission_name a = mission_name log
    /\ ma_timestamp a = now
    /\ Forall2
         (built_for
            (fresh_docs []
               (concat ((fun e => similarity_search vs (event_query e) 3)
                          <$> take 5 (events log)))))
         (events log) (comparisons a)
    /\ Forall (fun c => length (doctrine_references c) <= 2) (comparisons a)
    /\ is_Some (overall_compliance_score a).
Proof.
  intros Hparse Hne Hvs Hdocs.
  pose proof (parse_json_data_events_ok _ _ Hparse) as Hevs.
  destruct (analyze_mission_returns self vs log t Hvs Hne Hevs Hdocs)
    as (a & Ha & _).
  exists a. split; [exact Ha |].
  apply analyze_mission_inv in Ha
    as (ctx & text & cs & us & score & Hctx & Hcs & _ & _ & ->).
  rewrite (retrieve_doctrine_node_indexed _ vs) in Hctx by exact Hvs.
  simpl in Hctx. injection Hctx as <-.
  apply compare_loop_inv in Hcs as (new & -> & Hnew). simpl.
  repeat split; [exact Hnew | | by eexists].
  clear -Hnew. induction Hnew as [| e c evs cs (ts & refs & _ & Hrefs & ->) _ IH];
    constructor; [| exact IH].
  simpl. apply doctrine_refs_of_length in Hrefs. rewrite Hrefs.
  rewrite length_take. lia.
Qed.

(** X11: how analyze_mission fails, and what a returned analysis tells
    about the call.  On a log without events it raises ZeroDivisionError
    and asks the store nothing, indexed or not; on a log with an event and
    a pipeline whose indexer has no store it raises the ValueError of
    search, again with no query.  So an analysis is returned only for a
    log with at least one event, all of them with a timestamp, by a
    pipeline with a store, and it has as many comparisons as the log has
    events. *)
Theorem analyze_mission_failures self ml (t : trace) :
  (events ml = [] -> analyze_mission self ml t = (Raise ZeroDivisionError, t))
  /\ (events ml <> [] ->
      vector_store (doctrine_indexer self) = None ->
      analyze_mission self ml t
      = (Raise (ValueError
                  "Vector store not initialized. Call index_doctrines() first."),
         t))
  /\ (forall a t',
        analyze_mission self ml t = (Ok a, t') ->
        events ml <> []
        /\ is_Some (vector_store (doctrine_indexer self))
        /\ Forall event_ok (events ml)
        /\ length (comparisons a) = length (events ml)).
Proof.
  assert (Hempty : events ml = [] ->
                   analyze_mission self ml t = (Raise ZeroDivisionError, t)).
  { intros Hnil. destruct ml. simpl in Hnil. subst. reflexivity. }
  assert (Hnone : events ml <> [] ->
            vector_store (doctrine_indexer self) = None ->
            analyze_mission self ml t
            = (Raise (ValueError
                 "Vector store not initialized. Call index_doctrines() first."),
               t)).
  { intros Hne Hvs. unfold analyze_mission. rewrite graph_invoke_sequence.
    unfold run_node, mbind, Eff_bind, lift, mret, Eff_ret. simpl.
    unfold _retrieve_doctrine_node, mbind, Eff_bind. simpl.
    destruct (events ml) as [| e evs]; [done |]. simpl.
    unfold mbind, Eff_bind, search. by rewrite Hvs. }
  split; [exact Hempty |]. split; [exact Hnone |].
  intros a t' Ha.
  assert (Hne : events ml <> []).
  { intros Hnil. rewrite (Hempty Hnil) in Ha. discriminate. }
  assert (Hvs : is_Some (vector_store (doctrine_indexer self))).
  { destruct (decide (vector_store (doctrine_indexer self) = None))
      as [E | E].
    - rewrite (Hnone Hne E) in Ha. discriminate.
    - destruct (vector_store (doctrine_indexer self)); [by eexists | done]. }
  apply analyze_mission_inv in Ha
    as (ctx & text & cs & us & score & _ & Hcs & _ & _ & ->).
  apply compare_loop_inv in Hcs as (new & -> & Hnew). simpl.
  repeat split; try done.
  - by eapply built_for_event_ok.
  - symmetry. by eapply Forall2_length.
Qed.

(** X12: the retrieval stage reads the first five events of the log and
    nothing else of the state: two states whose logs agree on their first
    five events get the same doctrine context, with the same queries, or
    the same error. *)
Theorem retrieve_doctrine_node_first_five self st1 st2 (t : trace) :
  take 5 (events (mission_log st1)) = take 5 (events (mission_log st2)) ->
  _retrieve_doctrine_node self st1 t = _retrieve_doctrine_node self st2 t.
Proof.
  intros Hfive. unfold _retrieve_doctrine_node.
  by rewrite <- !fmap_take, Hfive.
Qed.

Lemma fresh_docs_length earlier docs :
  length (fresh_docs earlier docs) <= length docs.
Proof.
  revert earlier. induction docs as [| d docs IH]; intros earlier; simpl;
    [lia |].
  case_decide; simpl.
  - specialize (IH earlier). lia.
  - specialize (IH (page_content d :: earlier)). lia.
Qed.

Lemma concat_answers_length {A} (f : A -> list Document) (k : nat) xs :
  (forall x, length (f x) <= k) ->
  length (concat (f <$> xs)) <= k * length xs.
Proof.
  intros Hk. induction xs as [| x xs IH]; [simpl; lia |].
  rewrite fmap_cons. cbn [concat length]. rewrite length_app.
  specialize (Hk x). lia.
Qed.

(** X13: with a store that gives back k chunks at most when asked for k,
    the retrieval stage succeeds with a doctrine context of fifteen chunks
    at most, and of three at most for each of the first five events; it
    puts one query per such event. *)
Theorem retrieve_doctrine_node_bounds self vs (st : AnalysisState) (t : trace) :
  vector_store (doctrine_indexer self) = Some vs ->
  (forall query k, length (similarity_search vs query k) <= k) ->
  exists ctx t',
    _retrieve_doctrine_node self st t = (Ok [ set_doctrine_context ctx ], t')
    /\ length ctx <= 3 * length (take 5 (events (mission_log st)))
    /\ length ctx <= 15
    /\ length t' = length t + Nat.min 5 (length (events (mission_log st))).
Proof.
  intros Hvs Hk. rewrite (retrieve_doctrine_node_indexed _ vs) by exact Hvs.
  eexists _, _. split; [reflexivity |].
  set (evs := take 5 (events (mission_log st))).
  assert (Hlen : length evs = Nat.min 5 (length (events (mission_log st))))
    by apply length_take.
  assert (Hctx : length (fresh_docs []
                   (concat ((fun e => similarity_search vs (event_query e) 3)
                              <$> evs))) <= 3 * length evs).
  { etransitivity; [apply fresh_docs_length |].
    apply concat_answers_length. intros e. apply Hk. }
  repeat split; [exact Hctx | lia |].
  rewrite length_app, length_fmap. lia.
Qed.

Lemma substring_prefix n s : String.prefix (substring 0 n s) s = true.
Proof.
  revert s. induction n as [| n IH]; intros s; destruct s as [| c s];
    simpl; try reflexivity.
  destruct (ascii_dec c c); [apply IH | done].
Qed.

Lemma substring_length n s :
  String.length (substring 0 n s) = Nat.min n (String.length s).
Proof.
  revert s. induction n as [| n IH]; intros s; destruct s as [| c s];
    simpl; try reflexivity.
  by rewrite IH.
Qed.

(** X14: the doctrine reference built for a chunk.  Its context is the
    text of the chunk, its section is "General", and its requirement is
    the beginning of the text, 200 characters at most.  Identifier and
    name are both the chunk's source file when the metadata has one as a
    string, and "unknown" and "Naval Doctrine" when it has none. *)
Theorem doctrine_ref_of_fields (doc : Document) (r : DoctrineReference) :
  doctrine_ref_of doc = Ok r ->
  context r = page_content doc
  /\ section r = "General"
  /\ String.prefix (requirement r) (context r) = true
  /\ String.length (requirement r)
     = Nat.min 200 (String.length (page_content doc))
  /\ (forall s, doc_metadata doc !! "source_file" = Some (PStr s) ->
                doctrine_id r = s /\ doctrine_name r = s)
  /\ (doc_metadata doc !! "source_file" = None ->
      doctrine_id r = "unknown" /\ doctrine_name r = "Naval Doctrine").
Proof.
  unfold doctrine_ref_of, DoctrineReference_new.
  destruct (validate_str (default (PStr "unknown") _)) as [id |] eqn:Hid;
    [| done].
  destruct (validate_str (default (PStr "Naval Doctrine") _)) as [name |]
    eqn:Hname; [| done].
  intros [= <-]. cbn [context section requirement doctrine_id doctrine_name].
  split; [done |]. split; [done |].
  split; [apply substring_prefix |]. split; [apply substring_length |].
  split.
  - intros s Hs. rewrite Hs in Hid, Hname. simpl in *. split; congruence.
  - intros Hs. rewrite Hs in Hid, Hname. simpl in *. split; congruence.
Qed.

Lemma list_ascii_of_append (a b : string) :
  list_ascii_of_string (a +:+ b)
  = list_ascii_of_string a ++ list_ascii_of_string b.
Proof. induction a as [| c a IH]; simpl; [done | by rewrite IH]. Qed.

(** The two counted lessons do not end as the praise does. *)
Lemma lesson_not_excellent :
  (forall n, lesson_non_compliant n <> lesson_excellent)
  /\ (forall n, lesson_partial n <> lesson_excellent).
Proof.
  split; intros n Heq;
    apply (f_equal (fun s => last (list_ascii_of_string s))) in Heq;
    unfold lesson_non_compliant, lesson_partial, lesson_excellent in Heq;
    rewrite list_ascii_of_append, last_app in Heq; vm_compute in Heq;
    discriminate.
Qed.

(** X15: the lessons and recommendations of a returned analysis.  They
    are those of its comparison list.  There are two lessons at most; the
    only lesson is the praise exactly when every comparison is compliant,
    and there is no lesson at all exactly when no comparison is
    non-compliant or partial and some comparison is not compliant (an
    unclear one, for instance).  The recommendations are the debrief
    alone, exactly when no comparison is non-compliant or partial, or the
    two training entries followed by the debrief. *)
Theorem returned_lessons self ml (t : trace) a t' :
  analyze_mission self ml t = (Ok a, t') ->
  ma_lessons_learned a = lessons_of (comparisons a)
  /\ ma_recommendations a = recommendations_of (comparisons a)
  /\ length (ma_lessons_learned a) <= 2
  /\ (ma_lessons_learned a = [lesson_excellent]
      <-> Forall (fun c => compliance_status c = "compliant") (comparisons a))
  /\ (ma_lessons_learned a = []
      <-> Forall (fun c => compliance_status c <> "non-compliant"
                           /\ compliance_status c <> "partial") (comparisons a)
          /\ Exists (fun c => compliance_status c <> "compliant")
               (comparisons a))
  /\ (ma_recommendations a = [rec_debriefs]
      \/ ma_recommendations a = [rec_training; rec_checklist; rec_debriefs])
  /\ (ma_recommendations a = [rec_debriefs]
      <-> Forall (fun c => compliance_status c <> "non-compliant"
                           /\ compliance_status c <> "partial")
            (comparisons a)).
Proof.
  intros Ha. apply analyze_mission_inv in Ha
    as (ctx & text & cs & us & score & _ & _ & Hus & _ & ->).
  assert (Hne : cs <> []).
  { intros ->. vm_compute in Hus. discriminate. }
  destruct (generate_summary_node_nonempty
              (mk_AnalysisState ml (head (events ml)) ctx cs "" [] []) Hne)
    as (text' & Heq).
  rewrite Heq in Hus. injection Hus as <-. simpl.
  clear Heq Hne.
  assert (Hno : Forall (fun c => compliance_status c <> "non-compliant"
                                 /\ compliance_status c <> "partial") cs
                <-> ~ Exists (fun c => compliance_status c = "non-compliant"
                                       \/ compliance_status c = "partial") cs).
  { rewrite Forall_forall, Exists_exists. split.
    - intros Hall (c & Hin & Hc). specialize (Hall c Hin). tauto.
    - intros Hnone c Hin. split; intros Hc; apply Hnone; exists c; tauto. }
  assert (Hor : Exists (fun c => compliance_status c = "non-compliant"
                                 \/ compliance_status c = "partial") cs
                <-> Exists (fun c => compliance_status c = "non-compliant") cs
                    \/ Exists (fun c => compliance_status c = "partial") cs).
  { rewrite !Exists_exists. split.
    - intros (c & Hin & [Hc | Hc]); [left | right]; by exists c.
    - intros [(c & Hin & Hc) | (c & Hin & Hc)]; exists c; tauto. }
  assert (Hall : Forall (fun c => compliance_status c = "compliant") cs ->
                 ~ Exists (fun c => compliance_status c = "non-compliant") cs
                 /\ ~ Exists (fun c => compliance_status c = "partial") cs).
  { rewrite Forall_forall, !Exists_exists. intros Hall.
    split; intros (c & Hin & Hc); specialize (Hall c Hin); congruence. }
  assert (Hex : Exists (fun c => compliance_status c <> "compliant") cs
                <-> ~ Forall (fun c => compliance_status c = "compliant") cs).
  { split.
    - intros Hex. apply Exists_not_Forall.
      eapply Exists_impl; [exact Hex |]. intros c Hc. exact Hc.
    - intros Hn. apply not_Forall_Exists in Hn; [| intros c; apply _].
      eapply Exists_impl; [exact Hn |]. intros c Hc. exact Hc. }
  pose proof lesson_not_excellent as [Hnc Hpa].
  unfold lessons_of, recommendations_of.
  repeat case_decide; simpl; repeat split; try done; try tauto; try lia;
    try (intros; exfalso; tauto);
    try (intros [= Heq]; exfalso; first [tauto | by eapply Hnc | by eapply Hpa]).
Qed.

End Analyses.

(** The sample store answers with chunks of the sample doctrine file, and
    with [k] of them at most. *)
Lemma sample_store_doc_ok query k doc :
  doc ∈ similarity_search Sample.store query k ->
  doc_ok (RT := Reference.runtime) doc.
Proof.
  unfold Sample.store. simpl. intros Hin.
  apply elem_of_take in Hin as (i & Hi & _).
  apply list_elem_of_lookup_2 in Hi.
  destruct (String.prefix "speed_change" query);
    repeat (apply elem_of_cons in Hi as [-> | Hi];
            [vm_compute; by eexists |]);
    by apply elem_of_nil in Hi.
Qed.

Lemma sample_store_length query k :
  length (similarity_search Sample.store query k) <= k.
Proof. unfold Sample.store. simpl. rewrite length_take. lia. Qed.

Lemma analyze_parsed_log_witness :
  exists a,
    analyze_mission (RT := Reference.runtime) Sample.rag Sample.mission_log []
    = (Ok a, Sample.queries)
    /\ ma_mission_id a = "MISSION-2024-001"
    /\ length (comparisons a) = 6.
Proof.
  destruct (analyze_parsed_log (RT := Reference.runtime) Sample.rag
              Sample.store Sample.mission_json Sample.mission_log [])
    as (a & Ha & Hid & _ & _ & Hcs & _).
  - vm_compute. reflexivity.
  - discriminate.
  - reflexivity.
  - apply sample_store_doc_ok.
  - exists a. split; [exact Ha |]. split; [exact Hid |].
    apply Forall2_length in Hcs. rewrite <- Hcs. reflexivity.
Defined.

Lemma retrieve_doctrine_node_first_five_witness :
  _retrieve_doctrine_node Sample.rag (initial_state Sample.mission_log) []
  = _retrieve_doctrine_node Sample.rag
      (initial_state
         (mk_MissionLog "MISSION-2024-001" "Training Exercise Alpha"
            (mk_datetime 2024 11 14 8 0 0 0) None "USS Example"
            (take 5 (events Sample.mission_log)) None)) [].
Proof.
  apply (retrieve_doctrine_node_first_five Sample.rag
           (initial_state Sample.mission_log)).
  reflexivity.
Defined.

Lemma retrieve_doctrine_node_bounds_witness :
  exists ctx t',
    _retrieve_doctrine_node Sample.rag (initial_state Sample.mission_log) []
    = (Ok [ set_doctrine_context ctx ], t')
    /\ length ctx <= 15.
Proof.
  destruct (retrieve_doctrine_node_bounds Sample.rag Sample.store
              (initial_state Sample.mission_log) [])
    as (ctx & t' & Hrun & _ & Hlen & _).
  - reflexivity.
  - apply sample_store_length.
  - by exists ctx, t'.
Defined.

Lemma doctrine_ref_of_fields_witness :
  doctrine_id
    (mk_DoctrineReference "sample_naval_doctrine.txt"
       "sample_naval_doctrine.txt" "General"
       (page_content Sample.speed_chunk) (page_content Sample.speed_chunk))
  = "sample_naval_doctrine.txt".
Proof.
  apply (proj1 (proj2 (proj2 (proj2 (proj2
           (doctrine_ref_of_fields (RT := Reference.runtime)
              Sample.speed_chunk
              (mk_DoctrineReference "sample_naval_doctrine.txt"
                 "sample_naval_doctrine.txt" "General"
                 (page_content Sample.speed_chunk)
                 (page_content Sample.speed_chunk))
              eq_refl)))))).
  reflexivity.
Defined.

Lemma returned_lessons_witness :
  ma_lessons_learned Sample.analysis = lessons_of (comparisons Sample.analysis).
Proof.
  refine (proj1 (returned_lessons (RT := Reference.runtime) Sample.rag
                   Sample.mission_log [] Sample.analysis Sample.queries _)).
  vm_compute. reflexivity.
Defined.

(** ** The indexer *)

Section IndexerProperties.
Context {RT : PyRuntime}.

(** X16: the indexer object after index_doctrines.  When the call returns
    a store, the object holds that store.  When it raises, the object is
    as it was before the call, with one exception: the corpus was loaded
    and is not empty, the store was built, and saving it failed; the
    object then holds the new, unsaved store and the error is the one of
    the save.  In no case does a call leave an object that had a store
    without one. *)
Theorem index_doctrines_object env self force_reindex :
  (forall vs self',
     index_doctrines env self force_reindex = (Ok vs, self') ->
     self' = mk_DoctrineIndexer (Some vs))
  /\ (forall e self',
        index_doctrines env self force_reindex = (Raise e, self') ->
        self' = self
        \/ exists documents vs,
             load_all_doctrines env = Ok documents
             /\ documents <> []
             /\ create_vector_store env documents = Ok vs
             /\ save_local env vs = Raise e
             /\ self' = mk_DoctrineIndexer (Some vs))
  /\ (is_Some (vector_store self) ->
      is_Some (vector_store (snd (index_doctrines env self force_reindex)))).
Proof.
  split; [| split].
  - intros vs self'. unfold index_doctrines.
    destruct (index_path_exists env && negb force_reindex);
      [destruct (load_local env) as [vs0 |]; [by intros [= <- <-] |] |];
      (destruct (load_all_doctrines env) as [documents |]; [| done];
       destruct (create_vector_store env documents) as [vs1 |]; [| done];
       cbn zeta;
       destruct (if truthy documents then save_local env vs1 else Ok tt);
       [by intros [= <- <-] | done]).
  - intros e self'. unfold index_doctrines.
    destruct (index_path_exists env && negb force_reindex);
      [destruct (load_local env) as [vs0 |]; [done |] |];
      (destruct (load_all_doctrines env) as [documents |];
         [| intros [= _ <-]; by left];
       destruct (create_vector_store env documents) as [vs1 |] eqn:Hvs;
         [| intros [= _ <-]; by left];
       cbn zeta;
       destruct documents as [| doc documents]; simpl; [done |];
       destruct (save_local env vs1) eqn:Hsave; [done |];
       intros [= <- <-]; right; by exists (doc :: documents), vs1).
  - apply index_doctrines_keeps_store.
Qed.

(** X17: which way index_doctrines goes.  A persisted index that loads is
    returned as it is when no re-indexing is forced: the doctrine files are
    not read and nothing is saved.  In every other case (no persisted
    index, a forced re-index, or a persisted index that fails to load) the
    call does what a forced re-index does, and the error of the failed load
    is never the error of the call. *)
Theorem index_doctrines_paths env self force_reindex :
  (forall vs,
     index_path_exists env = true -> force_reindex = false ->
     load_local env = Ok vs ->
     index_doctrines env self force_reindex
     = (Ok vs, mk_DoctrineIndexer (Some vs)))
  /\ (index_path_exists env = false \/ force_reindex = true
      \/ raises (load_local env) ->
      index_doctrines env self force_reindex = index_doctrines env self true).
Proof.
  split.
  - intros vs Hex -> Hload. unfold index_doctrines.
    by rewrite Hex, Hload.
  - intros [Hex | [-> | [e He]]]; unfold index_doctrines.
    + by rewrite Hex.
    + by rewrite !andb_false_r.
    + rewrite He, andb_false_r.
      by destruct (index_path_exists env && negb force_reindex).
Qed.

End IndexerProperties.

Section Loading.
Import Indexer.
Context {RT : PyRuntime}.
Variable L : Library.

Lemma load_each_ok load files acc docs :
  load_each load files acc = Ok docs
  <-> exists chunks,
        Forall2 (fun file chunk => load file = Ok chunk) files chunks
        /\ docs = acc ++ concat chunks.
Proof.
  revert acc. induction files as [| file files IH]; intros acc; simpl.
  - split.
    + intros [= <-]. exists []. split; [constructor | by rewrite app_nil_r].
    + intros (chunks & Hch & ->). inversion Hch. simpl. by rewrite app_nil_r.
  - destruct (load file) as [chunk |] eqn:Hload; simpl.
    + rewrite IH. split.
      * intros (chunks & Hch & ->). exists (chunk :: chunks).
        split; [by constructor | simpl; by rewrite app_assoc].
      * intros (chunks & Hch & ->).
        inversion Hch as [| ? chunk' ? chunks' Hc Hcs]; subst.
        exists chunks'. split; [done |].
        simpl. rewrite app_assoc. congruence.
    + split; [done |]. intros (chunks & Hch & _). inversion Hch; congruence.
Qed.

Lemma load_each_first_error load files acc i file e :
  files !! i = Some file ->
  load file = Raise e ->
  (forall j file', j < i -> files !! j = Some file' ->
     exists chunk, load file' = Ok chunk) ->
  load_each load files acc = Raise e.
Proof.
  revert acc i. induction files as [| file' files IH]; intros acc i Hi He Hb.
  - by rewrite lookup_nil in Hi.
  - destruct i as [| i]; simpl in *.
    + injection Hi as ->. by rewrite He.
    + destruct (Hb 0 file' ltac:(lia) eq_refl) as [chunk ->]. simpl.
      apply (IH _ i); [done | done |].
      intros j f Hj Hf. apply (Hb (S j) f); [lia | done].
Qed.

Lemma load_all_doctrines_inv (pdf_files txt_files : list Path) docs :
  load_all_doctrines L pdf_files txt_files = Ok docs
  <-> exists pdf_chunks txt_chunks,
        Forall2 (fun file chunk => load_pdf L file = Ok chunk)
          pdf_files pdf_chunks
        /\ Forall2 (fun file chunk => load_text L file = Ok chunk)
             txt_files txt_chunks
        /\ docs = concat pdf_chunks ++ concat txt_chunks.
Proof.
  unfold load_all_doctrines.
  destruct (load_each (load_pdf L) pdf_files []) as [all_docs |] eqn:Hpdf;
    simpl.
  - apply load_each_ok in Hpdf as (pdf_chunks & Hpdf & ->). simpl.
    rewrite load_each_ok. split.
    + intros (txt_chunks & Htxt & ->). by exists pdf_chunks, txt_chunks.
    + intros (pdf_chunks' & txt_chunks & Hpdf' & Htxt & ->).
      exists txt_chunks. split; [done |]. f_equal. f_equal.
      clear -Hpdf Hpdf'. revert pdf_chunks' Hpdf'.
      induction Hpdf as [| f c fs cs Hc _ IH]; intros cs' Hcs';
        inversion Hcs'; subst; [done |].
      f_equal; [congruence | by apply IH].
  - split; [done |].
    intros (pdf_chunks & txt_chunks & Hpdf' & _ & _).
    assert (load_each (load_pdf L) pdf_files [] = Ok ([] ++ concat pdf_chunks))
      by (apply load_each_ok; by exists pdf_chunks).
    congruence.
Qed.

(** X18: load_all_doctrines returns exactly when every file loads, and
    then gives the chunks of the PDF files, file by file in the order of
    the glob, followed by those of the text files in theirs.  When a file
    does not load, the error of the first such file is the error of the
    call, and no chunk is returned. *)
Theorem load_all_doctrines_order (pdf_files txt_files : list Path) :
  (forall docs,
     load_all_doctrines L pdf_files txt_files = Ok docs
     <-> exists pdf_chunks txt_chunks,
           Forall2 (fun file chunk => load_pdf L file = Ok chunk)
             pdf_files pdf_chunks
           /\ Forall2 (fun file chunk => load_text L file = Ok chunk)
                txt_files txt_chunks
           /\ docs = concat pdf_chunks ++ concat txt_chunks)
  /\ (forall i file e,
        pdf_files !! i = Some file ->
        load_pdf L file = Raise e ->
        (forall j file', j < i -> pdf_files !! j = Some file' ->
           exists chunk, load_pdf L file' = Ok chunk) ->
        load_all_doctrines L pdf_files txt_files = Raise e)
  /\ (forall pdf_chunks i file e,
        Forall2 (fun file chunk => load_pdf L file = Ok chunk)
          pdf_files pdf_chunks ->
        txt_files !! i = Some file ->
        load_text L file = Raise e ->
        (forall j file', j < i -> txt_files !! j = Some file' ->
           exists chunk, load_text L file' = Ok chunk) ->
        load_all_doctrines L pdf_files txt_files = Raise e).
Proof.
  split; [| split].
  - intros docs. apply load_all_doctrines_inv.
  - intros i file e Hi He Hb. unfold load_all_doctrines.
    by rewrite (load_each_first_error _ _ _ i file e).
  - intros pdf_chunks i file e Hpdf Hi He Hb. unfold load_all_doctrines.
    assert (Hall : load_each (load_pdf L) pdf_files []
                   = Ok ([] ++ concat pdf_chunks))
      by (apply load_each_ok; by exists pdf_chunks).
    rewrite Hall. simpl.
    by apply (load_each_first_error _ _ _ i file e).
Qed.

Lemma tag_metadata file doc :
  doc_metadata (tag file doc) !! "source_file" = Some (PStr (path_name file))
  /\ doc_metadata (tag file doc) !! "doctrine_type"
     = Some (PStr "naval_doctrine")
  /\ page_content (tag file doc) = page_content doc.
Proof.
  unfold tag. simpl. repeat split.
  - rewrite lookup_insert_ne by done. by rewrite lookup_insert_eq.
  - by rewrite lookup_insert_eq.
Qed.

(** X19: every chunk of the loaded corpus names its file.  With a
    splitter that hands the metadata of a document on to its chunks, each
    chunk load_all_doctrines returns carries the name of one of the files
    under "source_file" and "naval_doctrine" under "doctrine_type",
    whatever the loader had put there; so it passes where the pipeline
    builds a doctrine reference from it, and the reference is named after
    the file. *)
Theorem loaded_chunks_name_their_file (pdf_files txt_files : list Path)
    (docs : list Document) :
  (forall pages chunks,
     split_documents L pages = Ok chunks ->
     Forall (fun chunk => exists page,
                 page ∈ pages /\ doc_metadata page ⊆ doc_metadata chunk)
       chunks) ->
  load_all_doctrines L pdf_files txt_files = Ok docs ->
  Forall (fun chunk =>
            exists file,
              file ∈ pdf_files ++ txt_files
              /\ doc_metadata chunk !! "source_file"
                 = Some (PStr (path_name file))
              /\ doc_metadata chunk !! "doctrine_type"
                 = Some (PStr "naval_doctrine")
              /\ doc_ok chunk
              /\ exists r, doctrine_ref_of chunk = Ok r
                           /\ doctrine_id r = path_name file
                           /\ doctrine_name r = path_name file)
    docs.
Proof.
  intros Hsplit Hload.
  apply load_all_doctrines_inv in Hload
    as (pdf_chunks & txt_chunks & Hpdf & Htxt & ->).
  assert (Htagged : forall file pages chunks chunk,
            split_documents L (tag file <$> pages) = Ok chunks ->
            chunk ∈ chunks ->
            doc_metadata chunk !! "source_file" = Some (PStr (path_name file))
            /\ doc_metadata chunk !! "doctrine_type"
               = Some (PStr "naval_doctrine")).
  { intros file pages chunks chunk Hs Hin.
    apply Hsplit in Hs. rewrite Forall_forall in Hs.
    destruct (Hs chunk Hin) as (page & Hpage & Hsub).
    apply list_elem_of_fmap in Hpage as (page0 & -> & _).
    destruct (tag_metadata file page0) as (Hsrc & Hty & _).
    split; eapply lookup_weaken; eauto. }
  assert (Hone : forall (load : Path -> result (list Document)) files chunks,
            (forall file chunk, load file = Ok chunk ->
               exists pages, split_documents L (tag file <$> pages) = Ok chunk) ->
            Forall2 (fun file chunk => load file = Ok chunk) files chunks ->
            forall chunk, chunk ∈ concat chunks ->
              exists file, file ∈ files
                /\ doc_metadata chunk !! "source_file"
                   = Some (PStr (path_name file))
                /\ doc_metadata chunk !! "doctrine_type"
                   = Some (PStr "naval_doctrine")).
  { intros load files chunks Hshape Hall.
    induction Hall as [| file ch files chunks Hch _ IH]; intros chunk Hin;
      simpl in Hin; [by apply elem_of_nil in Hin |].
    apply elem_of_app in Hin as [Hin | Hin].
    - destruct (Hshape file ch Hch) as (pages & Hs).
      destruct (Htagged file pages ch chunk Hs Hin) as [Hsrc Hty].
      exists file. split; [by left | done].
    - destruct (IH chunk Hin) as (file' & Hf & Hrest).
      exists file'. split; [by right | done]. }
  apply Forall_forall. intros chunk Hin.
  assert (Hfile : exists file, file ∈ pdf_files ++ txt_files
                    /\ doc_metadata chunk !! "source_file"
                       = Some (PStr (path_name file))
                    /\ doc_metadata chunk !! "doctrine_type"
                       = Some (PStr "naval_doctrine")).
  { apply elem_of_app in Hin as [Hin | Hin].
    - destruct (Hone (load_pdf L) pdf_files pdf_chunks) with (chunk := chunk)
        as (file & Hf & Hrest); try done.
      + intros file ch. unfold load_pdf.
        destruct (pdf_load L file) as [pages |]; [| done]. simpl.
        intros Hs. by exists pages.
      + exists file. split; [apply elem_of_app; by left | done].
    - destruct (Hone (load_text L) txt_files txt_chunks) with (chunk := chunk)
        as (file & Hf & Hrest); try done.
      + intros file ch. unfold load_text.
        destruct (text_load L file) as [pages |]; [| done]. simpl.
        intros Hs. by exists pages.
      + exists file. split; [apply elem_of_app; by right | done]. }
  destruct Hfile as (file & Hf & Hsrc & Hty).
  exists file. repeat split; try done.
  - unfold doc_ok. rewrite Hsrc. simpl. by eexists.
  - unfold doctrine_ref_of, DoctrineReference_new. rewrite Hsrc. simpl.
    eexists. split; [reflexivity | done].
Qed.

Lemma docstore_from_pretty i documents (d : gmap string Document) j :
  docstore_from i documents d !! pretty j
  = if decide (i <= j < i + length documents)
    then documents !! (j - i)
    else d !! pretty j.
Proof.
  revert i d. induction documents as [| doc documents IH]; intros i d; simpl.
  - case_decide; [lia | done].
  - rewrite IH. repeat case_decide; try lia.
    + replace (j - i) with (S (j - S i)) by lia. done.
    + assert (j = i) as -> by lia.
      rewrite lookup_insert_eq. by rewrite Nat.sub_diag.
    + rewrite lookup_insert_ne; [done |].
      intros Heq. apply (inj pretty) in Heq. lia.
Qed.

Lemma ids_from_lookup i n (d : gmap nat string) j :
  ids_from i n d !! j
  = if decide (i <= j < i + n) then Some (pretty j) else d !! j.
Proof.
  revert i d. induction n as [| n IH]; intros i d; simpl.
  - case_decide; [lia | done].
  - rewrite IH. repeat case_decide; try lia; try done.
    + assert (j = i) as -> by lia. by rewrite lookup_insert_eq.
    + rewrite lookup_insert_ne by lia. done.
Qed.

(** X20: what create_vector_store hands to the store it builds.  Without
    documents it is an empty index of the embedder's dimension, and the
    embedder is not asked.  With documents, the index holds the vectors
    the embedder gave, its dimension is the length of the first of them,
    and position j of the index leads, through its docstore id, to
    document j: every document can be found from its position, and a
    position beyond the documents leads nowhere. *)
Theorem create_vector_store_docstore (documents : list Document) :
  (documents = [] ->
   create_vector_store L documents = Ok (mk_FAISS_args (dimension L) [] ∅ ∅))
  /\ (forall args,
        documents <> [] ->
        create_vector_store L documents = Ok args ->
        embed_documents L (page_content <$> documents)
        = Ok (index_vectors args)
        /\ head (length <$> index_vectors args) = Some (index_dimension args)
        /\ (forall j,
              index_to_docstore_id args !! j
              = if decide (j < length documents) then Some (pretty j)
                else None)
        /\ (forall j,
              index_to_docstore_id args !! j ≫= (fun id => docstore args !! id)
              = documents !! j)).
Proof.
  split; [by intros -> |].
  intros args Hne. unfold create_vector_store.
  destruct documents as [| doc documents]; [done |]. simpl.
  destruct (embed_documents L _) as [embeddings |]; [| done]. simpl.
  destruct embeddings as [| first embeddings]; [done |].
  destruct (index_add L _ _); [| done]. simpl.
  intros [= <-]. simpl.
  assert (Hid : forall j,
            ids_from 1 (length documents) (<[0 := pretty 0]> ∅) !! j
            = if decide (j < S (length documents)) then Some (pretty j)
              else None).
  { intros j. rewrite ids_from_lookup.
    repeat case_decide; try lia; try done.
    - assert (j = 0) as -> by lia. by rewrite lookup_insert_eq.
    - rewrite lookup_insert_ne by lia. done. }
  repeat split; [exact Hid |].
  intros j. rewrite Hid. case_decide as Hj; simpl.
  - rewrite docstore_from_pretty. case_decide.
    + destruct j as [| j]; [lia |]. simpl. by rewrite Nat.sub_0_r.
    + assert (j = 0) as -> by lia. by rewrite lookup_insert_eq.
  - symmetry. apply lookup_ge_None. simpl. lia.
Qed.

(** X21: indexing a directory.  Without any doctrine file, and without a
    usable persisted index, index_doctrines gives the empty store: nothing
    is embedded and nothing is saved, so neither can fail.  When a file
    does not load, a re-index raises and leaves the object as it was. *)
Theorem index_directory (persisted : option (result FAISS))
    (pdf_files txt_files : list Path) (faiss : FAISS_args -> FAISS)
    (save : FAISS -> result unit) (self : DoctrineIndexer) :
  (pdf_files = [] -> txt_files = [] ->
   index_doctrines (env_of L persisted pdf_files txt_files faiss save) self true
   = (Ok (faiss (mk_FAISS_args (dimension L) [] ∅ ∅)),
      mk_DoctrineIndexer (Some (faiss (mk_FAISS_args (dimension L) [] ∅ ∅)))))
  /\ (forall e,
        load_all_doctrines L pdf_files txt_files = Raise e ->
        index_doctrines (env_of L persisted pdf_files txt_files faiss save)
          self true
        = (Raise e, self))
  /\ (forall vs,
        persisted = Some (Ok vs) ->
        index_doctrines (env_of L persisted pdf_files txt_files faiss save)
          self false
        = (Ok vs, mk_DoctrineIndexer (Some vs))).
Proof.
  split; [| split].
  - intros -> ->. unfold index_doctrines, env_of. simpl.
    by rewrite andb_false_r.
  - intros e He. unfold index_doctrines, env_of. simpl.
    by rewrite andb_false_r, He.
  - intros vs ->. reflexivity.
Qed.

End Loading.

Lemma loaded_chunks_name_their_file_witness :
  doc_ok (RT := Reference.runtime)
    (Indexer.tag doctrine_file
       (mk_Document "Text of sample_naval_doctrine.txt" ∅)).
Proof.
  pose proof (loaded_chunks_name_their_file (RT := Reference.runtime)
                plain_library [] [doctrine_file]
                [ Indexer.tag doctrine_file
                    (mk_Document "Text of sample_naval_doctrine.txt" ∅) ])
    as Hall.
  apply Forall_inv in Hall as (file & _ & _ & _ & Hok & _).
  - exact Hok.
  - intros pages chunks [= <-]. apply Forall_forall. intros page Hin.
    by exists page.
  - reflexivity.
Defined.

(** ** The server *)

Section ApiProperties.
Context {RT : PyRuntime}.
Variable str_exn : exn -> string.
Variable list_of_set : list pyval -> result (list pyval).
Variable isoformat : datetime -> string.

Lemma api_analyze_mission_inv (mission_data : pydict) g (t : trace) a g' t' :
  Api.analyze_mission str_exn mission_data g t = ((Api.Returned a, g'), t') ->
  exists rag log,
    Api.rag_pipeline g = Some rag
    /\ parse_json_data (PDict mission_data) = Ok log
    /\ analyze_mission rag log t = (Ok a, t')
    /\ ma_mission_id a = mission_id log
    /\ g' = Api.mk_Globals (Api.rag_pipeline g) (Api.indexer g)
              (<[ mission_id log := a ]> (Api.stored_analyses g)).
Proof.
  unfold Api.analyze_mission.
  destruct (Api.rag_pipeline g) as [rag |] eqn:Hrag; [| done].
  destruct (parse_json_data (PDict mission_data)) as [log |] eqn:Hparse;
    [| done].
  destruct (analyze_mission rag log t) as [[a0 |] t0] eqn:Hrun; [| done].
  intros [= <- <- <-]. exists rag, log. repeat split; try done.
  apply analyze_mission_inv in Hrun
    as (ctx & text & cs & us & score & _ & _ & _ & _ & ->). done.
Qed.

(** X22: a returned analysis is stored and can be fetched.  When POST
    /api/missions/analyze returns an analysis, the mission data parsed to
    a log, the analysis carries the log's mission_id, and the globals
    differ from the earlier ones in one entry only: the analysis is stored
    under that id, replacing what was there.  GET for that id then returns
    the same analysis; a log without a mission_id is stored under
    "unknown". *)
Theorem analyze_then_get (mission_data : pydict) g (t : trace) a g' t' :
  Api.analyze_mission str_exn mission_data g t = ((Api.Returned a, g'), t') ->
  exists log,
    parse_json_data (PDict mission_data) = Ok log
    /\ ma_mission_id a = mission_id log
    /\ Api.rag_pipeline g' = Api.rag_pipeline g
    /\ Api.indexer g' = Api.indexer g
    /\ Api.stored_analyses g'
       = <[ mission_id log := a ]> (Api.stored_analyses g)
    /\ Api.get_mission_analysis (mission_id log) g' t'
       = ((Api.Returned a, g'), t')
    /\ (dict_lookup mission_data "mission_id" = None ->
        Api.get_mission_analysis "unknown" g' t' = ((Api.Returned a, g'), t')).
Proof.
  intros Hpost. apply api_analyze_mission_inv in Hpost
    as (rag & log & Hrag & Hparse & _ & Hid & ->).
  exists log. simpl.
  assert (Hget : forall k,
            k = mission_id log ->
            Api.get_mission_analysis k
              (Api.mk_Globals (Api.rag_pipeline g) (Api.indexer g)
                 (<[ mission_id log := a ]> (Api.stored_analyses g))) t'
            = ((Api.Returned a,
                Api.mk_Globals (Api.rag_pipeline g) (Api.indexer g)
                  (<[ mission_id log := a ]> (Api.stored_analyses g))),
               t')).
  { intros k ->. unfold Api.get_mission_analysis. simpl.
    by rewrite lookup_insert_eq. }
  repeat split; try done; [by apply Hget |].
  intros Hmissing. apply Hget.
  apply parse_json_data_inv in Hparse
    as (d & _ & _ & [= <-] & _ & _ & _ & _ & _ & Hmid & _).
  unfold dict_get in Hmid. rewrite Hmissing in Hmid. simpl in Hmid.
  congruence.
Qed.

(** X23: a failed POST /api/missions/analyze changes nothing.  The
    globals are as before, so no analysis is stored or replaced.  The
    status is 503, with no query put to the store, exactly when there is
    no pipeline; otherwise it is 500 and the detail is "Error analyzing
    mission: " followed by the text of the exception that the parser or
    the pipeline raised. *)
Theorem analyze_failure (mission_data : pydict) g (t : trace)
    code detail g' t' :
  Api.analyze_mission str_exn mission_data g t
  = ((Api.HTTPException code detail, g'), t') ->
  g' = g
  /\ (code = 503 <-> Api.rag_pipeline g = None)
  /\ (code = 503 \/ code = 500)
  /\ (code = 503 -> detail = "RAG pipeline not initialized" /\ t' = t)
  /\ (code = 500 ->
      exists e,
        detail = "Error analyzing mission: " +:+ str_exn e
        /\ (parse_json_data (PDict mission_data) = Raise e /\ t' = t
            \/ exists rag log,
                 Api.rag_pipeline g = Some rag
                 /\ parse_json_data (PDict mission_data) = Ok log
                 /\ analyze_mission rag log t = (Raise e, t'))).
Proof.
  unfold Api.analyze_mission.
  destruct (Api.rag_pipeline g) as [rag |] eqn:Hrag.
  - destruct (parse_json_data (PDict mission_data)) as [log | e] eqn:Hparse.
    + destruct (analyze_mission rag log t) as [[a0 | e] t0] eqn:Hrun; [done |].
      intros [= <- <- <- <-].
      repeat split; try done; try (by right); try lia.
      intros _. exists e. split; [done |]. right. by exists rag, log.
    + intros [= <- <- <- <-].
      repeat split; try done; try (by right); try lia.
      intros _. exists e. split; [done |]. by left.
  - intros [= <- <- <- <-].
    repeat split; try done; try (by left); try lia.
Qed.

(** X24: a mission log without events cannot be analysed through the
    server.  With a pipeline in place, POST /api/missions/analyze answers
    a log that parses to no event with status 500 and the text of the
    ZeroDivisionError; it asks the store nothing and stores nothing. *)
Theorem analyze_rejects_log_without_events
    (mission_data : pydict) g (t : trace) log :
  is_Some (Api.rag_pipeline g) ->
  parse_json_data (PDict mission_data) = Ok log ->
  events log = [] ->
  Api.analyze_mission str_exn mission_data g t
  = ((Api.HTTPException 500
        ("Error analyzing mission: " +:+ str_exn ZeroDivisionError), g), t).
Proof.
  intros [rag Hrag] Hparse Hnil. unfold Api.analyze_mission.
  rewrite Hrag, Hparse.
  by rewrite (analyze_mission_empty_log rag log t Hnil).
Qed.

(** X25: POST /api/chat and the store.  Without an indexer the answer is
    503, and with an indexer that has no store it is 500 with the text of
    the ValueError of search; neither asks the store anything.  With a
    store, the handler puts exactly one query, the question with k = 5,
    whatever the query's mission_id and context_type are; if it fails, it
    fails with 500.  It never changes the globals. *)
Theorem chat_queries_once (query : Api.ChatQuery) g (t : trace) :
  snd (fst (Api.chat str_exn list_of_set query g t)) = g
  /\ (Api.indexer g = None ->
      Api.chat str_exn list_of_set query g t
      = ((Api.HTTPException 503 "Doctrine indexer not initialized", g), t))
  /\ (forall idx,
        Api.indexer g = Some idx -> vector_store idx = None ->
        Api.chat str_exn list_of_set query g t
        = ((Api.HTTPException 500
              ("Error processing query: "
               +:+ str_exn (ValueError
                     "Vector store not initialized. Call index_doctrines() first.")),
            g), t))
  /\ (forall idx vs,
        Api.indexer g = Some idx -> vector_store idx = Some vs ->
        snd (Api.chat str_exn list_of_set query g t)
        = t ++ [(Api.question query, 5)]
        /\ (forall code detail,
              fst (fst (Api.chat str_exn list_of_set query g t))
              = Api.HTTPException code detail ->
              code = 500)).
Proof.
  assert (Hnone :
    Api.indexer g = None ->
    Api.chat str_exn list_of_set query g t
    = ((Api.HTTPException 503 "Doctrine indexer not initialized", g), t)).
  { intros Hi. unfold Api.chat. by rewrite Hi. }
  assert (Hunindexed : forall idx,
    Api.indexer g = Some idx -> vector_store idx = None ->
    Api.chat str_exn list_of_set query g t
    = ((Api.HTTPException 500
          ("Error processing query: "
           +:+ str_exn (ValueError
                 "Vector store not initialized. Call index_doctrines() first.")),
        g), t)).
  { intros idx Hi Hv. unfold Api.chat, search. by rewrite Hi, Hv. }
  assert (Hstore : forall idx vs,
    Api.indexer g = Some idx -> vector_store idx = Some vs ->
    exists resp,
      Api.chat str_exn list_of_set query g t
      = ((resp, g), t ++ [(Api.question query, 5)])
      /\ forall code detail,
           resp = Api.HTTPException code detail -> code = 500).
  { intros idx vs Hi Hv. unfold Api.chat, search. rewrite Hi, Hv.
    destruct (list_of_set _) as [distinct |];
      [destruct (Api.validate_strs distinct) |];
      eexists; (split; [reflexivity |]);
      intros code detail Heq; by simplify_eq. }
  split.
  - destruct (Api.indexer g) as [idx |] eqn:Hi.
    + destruct (vector_store idx) as [vs |] eqn:Hv.
      * by destruct (Hstore idx vs eq_refl Hv) as (resp & -> & _).
      * by rewrite (Hunindexed idx eq_refl Hv).
    + by rewrite (Hnone eq_refl).
  - split; [exact Hnone |]. split; [exact Hunindexed |].
    intros idx vs Hi Hv.
    destruct (Hstore idx vs Hi Hv) as (resp & -> & H500).
    split; [done | exact H500].
Qed.

(** X26: the answer of POST /api/chat is made of the first three
    passages.  Two calls with the same question, on stores whose answers
    agree on their first three chunks, give the same answer text when both
    return, whatever the fourth and fifth chunk and the other fields of
    the queries are; and no related events are returned. *)
Theorem chat_answer_first_three (query1 query2 : Api.ChatQuery)
    g1 g2 idx1 idx2 vs1 vs2 (t1 t2 : trace) r1 r2 g1' g2' t1' t2' :
  Api.indexer g1 = Some idx1 -> vector_store idx1 = Some vs1 ->
  Api.indexer g2 = Some idx2 -> vector_store idx2 = Some vs2 ->
  Api.question query1 = Api.question query2 ->
  take 3 (similarity_search vs1 (Api.question query1) 5)
  = take 3 (similarity_search vs2 (Api.question query2) 5) ->
  Api.chat str_exn list_of_set query1 g1 t1 = ((Api.Returned r1, g1'), t1') ->
  Api.chat str_exn list_of_set query2 g2 t2 = ((Api.Returned r2, g2'), t2') ->
  Api.answer r1 = Api.answer r2
  /\ Api.related_events r1 = None
  /\ Api.related_events r2 = None.
Proof.
  intros Hidx1 Hvs1 Hidx2 Hvs2 Hq Hthree.
  unfold Api.chat, search. rewrite Hidx1, Hidx2, Hvs1, Hvs2.
  destruct (list_of_set _) as [d1 |]; [| done].
  destruct (Api.validate_strs d1); [| done].
  intros [= <- _ _].
  destruct (list_of_set _) as [d2 |]; [| done].
  destruct (Api.validate_strs d2); [| done].
  intros [= <- _ _]. simpl. by rewrite Hthree.
Qed.


Lemma list_missions_loop_marks files stored missions :
  Forall (fun row => Api.has_analysis row = true
                     <-> is_Some (stored !! Api.row_mission_id row)) missions ->
  Forall (fun row => Api.has_analysis row = true
                     <-> is_Some (stored !! Api.row_mission_id row))
    (Api.list_missions_loop isoformat files stored missions).
Proof.
  revert missions. induction files as [| file files IH]; intros missions Hm;
    simpl; [done |].
  destruct (file ≫= parse_json_data) as [mission |]; [| by apply IH].
  apply IH. apply Forall_app. split; [done |].
  constructor; [| constructor]. simpl. apply bool_decide_eq_true.
Qed.



(** X28: an analysed mission shows as analysed.  After POST
    /api/missions/analyze returned an analysis for a mission, a listing
    that contains a file of that mission marks its row as analysed. *)
Theorem analysed_mission_is_marked (mission_data : pydict)
    (files : list (result pyval)) g (t : trace) a g' t' rows g'' t'' :
  Api.analyze_mission str_exn mission_data g t = ((Api.Returned a, g'), t') ->
  Api.list_missions isoformat files g' t' = ((Api.Returned rows, g''), t'') ->
  Forall (fun row => Api.row_mission_id row = ma_mission_id a ->
                     Api.has_analysis row = true) rows.
Proof.
  intros Hpost Hlist.
  apply api_analyze_mission_inv in Hpost
    as (rag & log & _ & _ & _ & Hid & ->).
  unfold Api.list_missions in Hlist. injection Hlist as <- _ _.
  eapply Forall_impl;
    [apply list_missions_loop_marks; constructor |].
  intros row Hrow Heq. apply Hrow. rewrite Heq, Hid. simpl.
  rewrite lookup_insert_eq. by eexists.
Qed.

End ApiProperties.

Lemma analyze_then_get_witness :
  exists log,
    parse_json_data (RT := Reference.runtime) (PDict sample_mission_data)
    = Ok log
    /\ Api.get_mission_analysis (mission_id log) analysed Sample.queries
       = ((Api.Returned Sample.analysis, analysed), Sample.queries).
Proof.
  destruct (analyze_then_get (RT := Reference.runtime) sample_str_exn
              sample_mission_data started [] Sample.analysis analysed
              Sample.queries)
    as (log & Hparse & _ & _ & _ & _ & Hget & _).
  - vm_compute. reflexivity.
  - by exists log.
Defined.

Lemma analyze_failure_witness :
  exists e,
    "Error analyzing mission: division by zero"
    = "Error analyzing mission: " +:+ sample_str_exn e.
Proof.
  destruct (analyze_failure (RT := Reference.runtime) sample_str_exn
              [ ("mission_id", PStr "MISSION-2024-000");
                ("start_time", PStr "2024-11-14T08:00:00Z") ] started []
              500 "Error analyzing mission: division by zero" started [])
    as (_ & _ & _ & _ & H500).
  - reflexivity.
  - destruct (H500 eq_refl) as (e & He & _). by exists e.
Defined.

Lemma analyze_rejects_log_without_events_witness :
  Api.analyze_mission (RT := Reference.runtime) sample_str_exn
    [ ("mission_id", PStr "MISSION-2024-000");
      ("start_time", PStr "2024-11-14T08:00:00Z") ] started []
  = ((Api.HTTPException 500 "Error analyzing mission: division by zero",
      started), []).
Proof.
  apply (analyze_rejects_log_without_events (RT := Reference.runtime)
           sample_str_exn
           [ ("mission_id", PStr "MISSION-2024-000");
             ("start_time", PStr "2024-11-14T08:00:00Z") ] started []
           (mk_MissionLog "MISSION-2024-000" "Unnamed Mission"
              (mk_datetime 2024 11 14 8 0 0 0) None "Unknown Vessel" []
              (Some [ ("mission_id", PStr "MISSION-2024-000");
                      ("start_time", PStr "2024-11-14T08:00:00Z") ]))).
  - by eexists.
  - reflexivity.
  - reflexivity.
Defined.

Lemma chat_answer_first_three_witness :
  match Api.chat (RT := Reference.runtime) sample_str_exn sample_list_of_set
          (Api.mk_ChatQuery "speed_change logging" None None) started [],
        Api.chat (RT := Reference.runtime) sample_str_exn sample_list_of_set
          (Api.mk_ChatQuery "speed_change logging" (Some "MISSION-2024-001")
             (Some "doctrine")) started_short [] with
  | ((Api.Returned r1, _), _), ((Api.Returned r2, _), _) =>
      Api.answer r1 = Api.answer r2
  | _, _ => False
  end.
Proof.
  destruct (Api.chat (RT := Reference.runtime) sample_str_exn
              sample_list_of_set
              (Api.mk_ChatQuery "speed_change logging" None None) started [])
    as [[[r1 | code1 detail1] g1'] t1'] eqn:H1;
    [| vm_compute in H1; discriminate].
  destruct (Api.chat (RT := Reference.runtime) sample_str_exn
              sample_list_of_set
              (Api.mk_ChatQuery "speed_change logging"
                 (Some "MISSION-2024-001") (Some "doctrine")) started_short [])
    as [[[r2 | code2 detail2] g2'] t2'] eqn:H2;
    [| vm_compute in H2; discriminate].
  refine (proj1 (chat_answer_first_three (RT := Reference.runtime)
                   sample_str_exn sample_list_of_set _ _ started started_short
                   _ _ Sample.store _ [] [] r1 r2 g1' g2' t1' t2'
                   eq_refl eq_refl eq_refl eq_refl eq_refl _ H1 H2)).
  reflexivity.
Defined.

Lemma analysed_mission_is_marked_witness :
  match Api.list_missions (RT := Reference.runtime) sample_isoformat
          [ Ok Sample.mission_json;
            Raise (LibraryError "Expecting value: line 1 column 1 (char 0)");
            Ok (PDict [ ("mission_id", PStr "MISSION-2024-000");
                        ("start_time", PStr "2024-11-14T08:00:00Z") ]) ]
          analysed Sample.queries with
  | ((Api.Returned rows, _), _) =>
      Forall (fun row => Api.row_mission_id row = ma_mission_id Sample.analysis ->
                         Api.has_analysis row = true) rows
  | _ => False
  end.
Proof.
  destruct (Api.list_missions (RT := Reference.runtime) sample_isoformat _
              analysed Sample.queries)
    as [[[rows | code detail] g''] t''] eqn:Hlist;
    [| vm_compute in Hlist; discriminate].
  refine (analysed_mission_is_marked (RT := Reference.runtime) sample_str_exn
            sample_isoformat sample_mission_data _ started []
            Sample.analysis analysed Sample.queries rows g'' t'' _ Hlist).
  vm_compute. reflexivity.
Defined.

Section Startup.
Context {RT : PyRuntime}.
Variable str_exn : exn -> string.
Variable list_of_set : list pyval -> result (list pyval).

Lemma new_pipeline_indexed new_embeddings env rag :
  Api.new_pipeline new_embeddings env = Ok rag ->
  is_Some (vector_store (doctrine_indexer rag)).
Proof.
  unfold Api.new_pipeline. destruct new_embeddings; [| done]. simpl.
  intros Hinit. apply MissionAnalysisRAG_init_indexed in Hinit as [vs Hvs].
  by exists vs.
Qed.

(** X29: a server that started serves.  After startup_event returned,
    both globals are set and each has a store, and the stored analyses are
    as before.  So POST /api/chat puts its query and does not answer 503,
    and POST /api/missions/analyze answers a mission log that parses, has
    an event and meets a store of chunks with string source files with its
    analysis, not with an error. *)
Theorem started_server_serves new_embeddings sample env1 new_embeddings' env2
    g g' :
  Api.startup_event new_embeddings sample env1 new_embeddings' env2 g
  = (Ok tt, g') ->
  (exists rag idx vs vs',
     Api.rag_pipeline g' = Some rag
     /\ vector_store (doctrine_indexer rag) = Some vs
     /\ Api.indexer g' = Some idx
     /\ vector_store idx = Some vs'
     /\ Api.stored_analyses g' = Api.stored_analyses g)
  /\ (forall query (t : trace),
        snd (Api.chat str_exn list_of_set query g' t)
        = t ++ [(Api.question query, 5)])
  /\ (forall mission_data log (t : trace),
        parse_json_data (PDict mission_data) = Ok log ->
        events log <> [] ->
        (forall rag vs query k doc,
           Api.rag_pipeline g' = Some rag ->
           vector_store (doctrine_indexer rag) = Some vs ->
           doc ∈ similarity_search vs query k -> doc_ok doc) ->
        exists a g'' t',
          Api.analyze_mission str_exn mission_data g' t
          = ((Api.Returned a, g''), t')
          /\ Api.stored_analyses g'' !! mission_id log = Some a).
Proof.
  unfold Api.startup_event.
  destruct new_embeddings as [u |]; [| done].
  destruct (default (Ok tt) sample) as [u' |]; [| done].
  destruct (index_doctrines env1 DoctrineIndexer_init false)
    as [[vs1 |] idx'] eqn:Hindex; [| done].
  destruct (Api.new_pipeline new_embeddings' env2) as [rag |] eqn:Hrag;
    [| done].
  intros [= <-].
  apply index_doctrines_indexed in Hindex.
  apply new_pipeline_indexed in Hrag as [vs Hvs].
  split; [by exists rag, idx', vs, vs1 |]. split.
  - intros query t. unfold Api.chat, search. simpl. rewrite Hindex.
    destruct (list_of_set _) as [distinct |]; [| done].
    by destruct (Api.validate_strs distinct).
  - intros mission_data log t Hparse Hne Hdocs.
    destruct (analyze_mission_returns rag vs log t Hvs Hne
                (parse_json_data_events_ok _ _ Hparse)
                (fun query k doc => Hdocs rag vs query k doc eq_refl Hvs))
      as (a & Hrun & _).
    unfold Api.analyze_mission. cbn [Api.rag_pipeline].
    rewrite Hparse, Hrun.
    eexists _, _, _. split; [reflexivity |]. simpl.
    by rewrite lookup_insert_eq.
Qed.

(** X30: what POST /api/doctrines/reindex leaves behind.  It never
    touches the stored analyses and asks the store nothing.  When it
    returns, pipeline and indexer are set and each has a store.  When it
    fails, the status is 500 and the pipeline is the one from before the
    call; the indexer, though, may already hold the store of the new
    index: it does whenever index_doctrines succeeded and only the
    construction of the new pipeline failed, so that chat and analysis
    then work on different stores. *)
Theorem reindex_doctrines_leaves new_embeddings env1 new_embeddings' env2
    g (t : trace) :
  snd (Api.reindex_doctrines str_exn new_embeddings env1 new_embeddings' env2
         g t) = t
  /\ Api.stored_analyses
       (snd (fst (Api.reindex_doctrines str_exn new_embeddings env1
                    new_embeddings' env2 g t)))
     = Api.stored_analyses g
  /\ (forall message g' t',
        Api.reindex_doctrines str_exn new_embeddings env1 new_embeddings' env2
          g t = ((Api.Returned message, g'), t') ->
        exists rag idx vs vs',
          Api.rag_pipeline g' = Some rag
          /\ vector_store (doctrine_indexer rag) = Some vs
          /\ Api.indexer g' = Some idx
          /\ vector_store idx = Some vs')
  /\ (forall code detail g' t',
        Api.reindex_doctrines str_exn new_embeddings env1 new_embeddings' env2
          g t = ((Api.HTTPException code detail, g'), t') ->
        code = 500 /\ Api.rag_pipeline g' = Api.rag_pipeline g)
  /\ (forall idx vs idx' e,
        Api.indexer g = Some idx ->
        index_doctrines env1 idx true = (Ok vs, idx') ->
        Api.new_pipeline new_embeddings' env2 = Raise e ->
        Api.reindex_doctrines str_exn new_embeddings env1 new_embeddings' env2
          g t
        = ((Api.HTTPException 500 ("Error reindexing: " +:+ str_exn e),
            Api.mk_Globals (Api.rag_pipeline g)
              (Some (mk_DoctrineIndexer (Some vs))) (Api.stored_analyses g)),
           t)).
Proof.
  unfold Api.reindex_doctrines.
  split; [| split; [| split; [| split]]].
  - destruct (Api.indexer g) as [idx0 |];
      [| destruct new_embeddings as [u |]; cbn; [| done]];
      (destruct (index_doctrines env1 _ true) as [[vs |] idx']; [| done];
       by destruct (Api.new_pipeline new_embeddings' env2)).
  - destruct (Api.indexer g) as [idx0 |];
      [| destruct new_embeddings as [u |]; cbn; [| done]];
      (destruct (index_doctrines env1 _ true) as [[vs |] idx']; [| done];
       by destruct (Api.new_pipeline new_embeddings' env2)).
  - intros message g' t'.
    destruct (Api.indexer g) as [idx0 |];
      [| destruct new_embeddings as [u |]; cbn; [| done]];
      (destruct (index_doctrines env1 _ true) as [[vs1 |] idx'] eqn:Hindex;
         [| done];
       destruct (Api.new_pipeline new_embeddings' env2) as [rag |] eqn:Hrag;
         [| done];
       intros [= <- <- <-];
       apply index_doctrines_indexed in Hindex;
       apply new_pipeline_indexed in Hrag as [vs Hvs];
       by exists rag, idx', vs, vs1).
  - intros code detail g' t'.
    destruct (Api.indexer g) as [idx0 |];
      [| destruct new_embeddings as [u |]; cbn;
         [| by intros [= <- <- <- <-]]];
      (destruct (index_doctrines env1 _ true) as [[vs1 |] idx'];
         [| by intros [= <- <- <- <-]];
       destruct (Api.new_pipeline new_embeddings' env2) as [rag |]; [done |];
       by intros [= <- <- <- <-]).
  - intros idx vs idx' e Hidx Hindex Hrag.
    rewrite Hidx. cbv beta iota. rewrite Hindex, Hrag.
    apply index_doctrines_indexed in Hindex.
    destruct idx' as [store]. simpl in Hindex. by subst.
Qed.

End Startup.

Lemma started_server_serves_witness :
  exists rag idx vs vs',
    Api.rag_pipeline started = Some rag
    /\ vector_store (doctrine_indexer rag) = Some vs
    /\ Api.indexer started = Some idx
    /\ vector_store idx = Some vs'
    /\ Api.stored_analyses started = ∅.
Proof.
  refine (proj1 (started_server_serves (RT := Reference.runtime)
                   sample_str_exn sample_list_of_set
                   (Ok tt) None Sample.env (Ok tt) Sample.env
                   (Api.mk_Globals None None ∅) started _)).
  reflexivity.
Defined.

(** ** The doctrine store *)

Lemma nearer_total distance q vectors : Total (nearer distance q vectors).
Proof. intros i j. unfold nearer. lia. Qed.

Lemma nearer_transitive distance q vectors :
  Transitive (nearer distance q vectors).
Proof. intros i j k. unfold nearer. lia. Qed.

(** In the arguments create_vector_store hands to the store, position j
    leads to document j. *)
Lemma create_vector_store_lookup L documents args j :
  Indexer.create_vector_store L documents = Ok args ->
  Indexer.index_to_docstore_id args !! j
    ≫= (fun id => Indexer.docstore args !! id)
  = documents !! j.
Proof.
  unfold Indexer.create_vector_store.
  destruct documents as [| doc documents]; simpl.
  { intros [= <-]. simpl. by rewrite lookup_empty. }
  destruct (Indexer.embed_documents L _) as [embeddings |]; [| done]. simpl.
  destruct embeddings as [| first embeddings]; [done |].
  destruct (Indexer.index_add L _ _); [| done]. simpl.
  intros [= <-]. simpl.
  rewrite ids_from_lookup.
  destruct (decide (1 <= j < 1 + length documents)) as [Hj | Hj]; simpl.
  - rewrite docstore_from_pretty. rewrite decide_True by done.
    destruct j as [| j]; [lia |]. simpl. by rewrite Nat.sub_0_r.
  - destruct j as [| j].
    + rewrite lookup_insert_eq. simpl. rewrite docstore_from_pretty.
      rewrite decide_False by lia. by rewrite lookup_insert_eq.
    + rewrite lookup_insert_ne by lia. rewrite lookup_empty. simpl.
      symmetry. apply lookup_ge_None. simpl. lia.
Qed.

Lemma create_vector_store_vectors L documents args :
  documents <> [] ->
  Indexer.create_vector_store L documents = Ok args ->
  Indexer.embed_documents L (page_content <$> documents)
  = Ok (Indexer.index_vectors args).
Proof.
  intros Hne. unfold Indexer.create_vector_store.
  destruct documents as [| doc documents]; [done |]. simpl.
  destruct (Indexer.embed_documents L _) as [embeddings |]; [| done]. simpl.
  destruct embeddings as [| first embeddings]; [done |].
  destruct (Indexer.index_add L _ _); [| done]. simpl.
  by intros [= <-].
Qed.

Lemma lookup_each (f : nat -> option Document) documents positions :
  (forall j, f j = documents !! j) ->
  Forall (fun j => j < length documents) positions ->
  Forall2 (fun j doc => documents !! j = Some doc) positions (omap f positions).
Proof.
  intros Hf. induction 1 as [| j positions Hj _ IH]; [constructor |].
  cbn [omap list_omap]. rewrite Hf.
  destruct (lookup_lt_is_Some_2 documents j Hj) as [doc Hdoc].
  rewrite Hdoc. by constructor.
Qed.

(** The store of the specification returns the nearest. *)
Lemma flat_index_search_nearest embed_query distance L documents args
    (query : string) (k : nat) :
  Indexer.create_vector_store L documents = Ok args ->
  length (Indexer.index_vectors args) = length documents ->
  exists positions,
    length positions = Nat.min k (length documents)
    /\ NoDup positions
    /\ Forall2 (fun j doc => documents !! j = Some doc) positions
         (similarity_search (flat_index embed_query distance args) query k)
    /\ StronglySorted
         (nearer distance (embed_query query) (Indexer.index_vectors args))
         positions
    /\ (forall j j',
          j ∈ positions -> j' < length documents -> j' ∉ positions ->
          nearer distance (embed_query query) (Indexer.index_vectors args)
            j j').
Proof.
  intros Hargs Hlen. simpl. unfold flat_index_search. rewrite Hlen.
  set (R := nearer distance (embed_query query) (Indexer.index_vectors args)).
  set (ranked := merge_sort R (seq 0 (length documents))).
  assert (Hperm : ranked ≡ₚ seq 0 (length documents))
    by apply merge_sort_Permutation.
  assert (Hsorted : StronglySorted R ranked).
  { apply StronglySorted_merge_sort;
      [apply nearer_transitive | apply nearer_total]. }
  rewrite <- (take_drop k ranked) in Hsorted.
  exists (take k ranked). split; [| split; [| split; [| split]]].
  - rewrite length_take, Hperm, length_seq. done.
  - apply (sublist_NoDup _ ranked); [| apply sublist_take].
    rewrite Hperm. apply NoDup_seq.
  - apply lookup_each.
    + intros j. by apply create_vector_store_lookup with (L := L).
    + apply Forall_forall. intros j Hj.
      eapply elem_of_sublist in Hj; [| apply sublist_take].
      rewrite Hperm in Hj. apply elem_of_seq in Hj. lia.
  - by eapply StronglySorted_app_1_l.
  - intros j j' Hj Hj' Hout.
    eapply StronglySorted_app_1_elem_of; [exact Hsorted | exact Hj |].
    assert (Hin : j' ∈ ranked).
    { rewrite Hperm. apply elem_of_seq. lia. }
    rewrite <- (take_drop k ranked) in Hin.
    apply elem_of_app in Hin as [Hin | Hin]; [done | exact Hin].
Qed.

(** C7: search on an indexer without a vector store (as the constructor
    leaves it) raises the "not initialized" ValueError, which is the
    specification's NotIndexedError, and queries nothing; on an indexer
    with a vector store it hands the query and k to the store's similarity
    search and returns its answer, the documents as the store holds them;
    and an indexer has a vector store once index_doctrines has returned
    one.  With the store as the specification describes it, built on what
    create_vector_store made of the chunks (one vector for each), the
    answer is the k nearest chunks with their metadata: min(k, number of
    chunks) of the indexed documents, each as it was indexed, from
    pairwise different positions, ordered from the nearest on, and none of
    the chunks left out is nearer to the embedded query than one that is
    returned; the vectors are the embeddings of the chunk texts. *)
Theorem search_requires_index (query : string) (k : nat) (t : trace) :
  search DoctrineIndexer_init query k t
  = (Raise (ValueError
       "Vector store not initialized. Call index_doctrines() first."), t)
  /\ (forall self, vector_store self = None ->
        search self query k t
        = (Raise (ValueError
             "Vector store not initialized. Call index_doctrines() first."),
           t))
  /\ (forall self vs, vector_store self = Some vs ->
        search self query k t
        = (Ok (similarity_search vs query k), t ++ [(query, k)]))
  /\ (forall env self force_reindex vs self',
        index_doctrines env self force_reindex = (Ok vs, self') ->
        search self' query k t
        = (Ok (similarity_search vs query k), t ++ [(query, k)]))
  /\ (forall embed_query distance L documents args self,
        Indexer.create_vector_store L documents = Ok args ->
        length (Indexer.index_vectors args) = length documents ->
        vector_store self = Some (flat_index embed_query distance args) ->
        exists positions docs,
          search self query k t = (Ok docs, t ++ [(query, k)])
          /\ length docs = Nat.min k (length documents)
          /\ NoDup positions
          /\ Forall2 (fun j doc => documents !! j = Some doc) positions docs
          /\ StronglySorted
               (nearer distance (embed_query query)
                  (Indexer.index_vectors args))
               positions
          /\ (forall j j',
                j ∈ positions -> j' < length documents -> j' ∉ positions ->
                (distance_at distance (embed_query query)
                   (Indexer.index_vectors args) j
                 <= distance_at distance (embed_query query)
                      (Indexer.index_vectors args) j')%Z)
          /\ (documents <> [] ->
              Indexer.embed_documents L (page_content <$> documents)
              = Ok (Indexer.index_vectors args))).
Proof.
  split; [reflexivity |]. split; [| split; [| split]].
  - intros self Hnone. unfold search. by rewrite Hnone.
  - intros self vs Hvs. unfold search. by rewrite Hvs.
  - intros env self force vs self' Hidx.
    apply index_doctrines_indexed in Hidx. unfold search. by rewrite Hidx.
  - intros embed_query distance L documents args self Hargs Hlen Hvs.
    destruct (flat_index_search_nearest embed_query distance L documents args
                query k Hargs Hlen)
      as (positions & Hk & Hnodup & Hdocs & Hsorted & Hnearest).
    exists positions,
      (similarity_search (flat_index embed_query distance args) query k).
    unfold search. rewrite Hvs.
    split; [reflexivity |].
    split; [by rewrite <- (Forall2_length _ _ _ Hdocs) |].
    split; [exact Hnodup |]. split; [exact Hdocs |].
    split; [exact Hsorted |]. split; [exact Hnearest |].
    intros Hne. by apply create_vector_store_vectors.
Qed.

Lemma search_requires_index_witness :
  match Indexer.create_vector_store sized_library
          [ Sample.speed_chunk; Sample.course_chunk; Sample.contact_chunk;
            Sample.debrief_chunk ] with
  | Ok args =>
      exists positions docs,
        search
          (mk_DoctrineIndexer
             (Some (flat_index sample_embed sample_distance args)))
          "Assign a tracking number to each contact" 2 []
        = (Ok docs, [] ++ [("Assign a tracking number to each contact", 2)])
        /\ length docs = 2
        /\ Forall2
             (fun j doc =>
                [ Sample.speed_chunk; Sample.course_chunk;
                  Sample.contact_chunk; Sample.debrief_chunk ] !! j
                = Some doc)
             positions docs
  | Raise _ => False
  end.
Proof.
  destruct (Indexer.create_vector_store sized_library _) as [args |] eqn:Hargs;
    [| vm_compute in Hargs; discriminate].
  assert (Hvectors : Indexer.index_vectors args
                     = sample_embed
                         <$> (page_content
                                <$> [ Sample.speed_chunk; Sample.course_chunk;
                                      Sample.contact_chunk;
                                      Sample.debrief_chunk ])).
  { assert (Hne : [ Sample.speed_chunk; Sample.course_chunk;
                    Sample.contact_chunk; Sample.debrief_chunk ] <> [])
      by discriminate.
    pose proof (create_vector_store_vectors sized_library _ args Hne Hargs)
      as H.
    by injection H. }
  destruct (proj2 (proj2 (proj2 (proj2
              (search_requires_index
                 "Assign a tracking number to each contact" 2 []))))
              sample_embed sample_distance sized_library
              [ Sample.speed_chunk; Sample.course_chunk; Sample.contact_chunk;
                Sample.debrief_chunk ]
              args
              (mk_DoctrineIndexer
                 (Some (flat_index sample_embed sample_distance args)))
              Hargs)
    as (positions & docs & Hrun & Hlen & _ & Hdocs & _).
  - by rewrite Hvectors.
  - reflexivity.
  - by exists positions, docs.
Defined.

(** The sample index at work: of the four chunks, the two nearest to the
    query in length are the debrief chunk and then the course chunk. *)
Example flat_index_search_sample :
  match Indexer.create_vector_store sized_library
          [ Sample.speed_chunk; Sample.course_chunk; Sample.contact_chunk;
            Sample.debrief_chunk ] with
  | Ok args =>
      similarity_search (flat_index sample_embed sample_distance args)
        "Assign a tracking number to each contact" 2
      = [ Sample.debrief_chunk; Sample.course_chunk ]
  | Raise _ => False
  end.
Proof. vm_compute. reflexivity. Qed.
